(** * In-page overlay scripts of the browser-automation toolkit

    A shallow embedding of the JavaScript that the toolkit injects into the
    page, and the properties of it that the specification states:

    - [Basic]: the single-selector highlighter
      ([highlight], [removeHighlight], [removeAllHighlights], ...);
    - [Adv]: the DOM-tree scan ([findAndHighlightInteractiveElements],
      [buildDomTree], [highlightElement], the classification predicates);
    - [Photo]: the metrics panel of [displayPhoto] and [getScoreColor];
    - [Research]: the card grid of [displayResearch];
    - [Tracking], [Scan]: what the two highlighters keep true from call to
      call;
    - [Text]: [highlightAllText];
    - [Landmarks]: the [onload] handler of [displayPhoto];
    - [Panels]: the coming and going of the research panel, the loading
      indicator and the photo display in the document.

    Conventions.  JavaScript numbers that stand for pixel quantities and
    scores are rationals ([Q]); counters are [nat].  A property that may be
    [undefined]/[null] is an [option].  The browser is an explicit
    environment: what the layout engine, the selector engine and the
    hit-testing would answer is a field of an environment record or a
    variable of a section.  The mutable variables at the top of a script
    are the fields of a [State] record that every operation threads. *)

From Stdlib Require Import Ascii QArith Qround Qminmax Qabs.
From stdpp Require Import gmap strings list pretty.

Open Scope string_scope.
Open Scope list_scope.

(** ** JavaScript helpers *)
Module JS.

(** [String.prototype.toLowerCase], on the ASCII letters.  Tag names,
    roles and class names are taken to be ASCII; of the characters
    outside it the code also lowers U+212A, the Kelvin sign, to [k]. *)
Definition lower_ascii (c : ascii) : ascii :=
  let n := nat_of_ascii c in
  if (65 <=? n)%nat && (n <=? 90)%nat then ascii_of_nat (n + 32) else c.

Fixpoint toLowerCase (s : string) : string :=
  match s with
  | EmptyString => EmptyString
  | String c s' => String (lower_ascii c) (toLowerCase s')
  end.

(** [String.prototype.includes]. *)
Fixpoint includes (s sub : string) : bool :=
  String.prefix sub s ||
  match s with
  | EmptyString => false
  | String _ s' => includes s' sub
  end.

(** [Array.prototype.join]. *)
Definition join (sep : string) (l : list string) : string :=
  String.concat sep l.

(** Truthiness of a string-valued property: present and non-empty. *)
Definition truthy_string (s : option string) : bool :=
  match s with
  | Some s => negb (String.eqb s "")
  | None => false
  end.

(** Truthiness of a number-valued property: present and not zero. *)
Definition truthy_number (x : option Q) : bool :=
  match x with
  | Some q => negb (Qeq_bool q 0)
  | None => false
  end.

(** [a < b] on numbers. *)
Definition ltb (a b : Q) : bool := negb (Qle_bool b a).

(** [Math.round]: the nearest integer, halves towards plus infinity. *)
Definition Math_round (x : Q) : Z := Qfloor (x + (1 # 2))%Q.

(** Set membership for the small literal [Set]s of the scripts. *)
Definition has (l : list string) (s : string) : bool :=
  bool_decide (s ∈ l).

End JS.

(** A [DOMRect], as [getBoundingClientRect] returns it. *)
Record DOMRect : Type := mkRect {
  rect_left : Q;
  rect_top : Q;
  rect_width : Q;
  rect_height : Q
}.

Definition rect_right (r : DOMRect) : Q := (rect_left r + rect_width r)%Q.
Definition rect_bottom (r : DOMRect) : Q := (rect_top r + rect_height r)%Q.

(** ** The basic highlighter: [window.elementHighlighter = { highlights: [], ... }] *)
Module Basic.

(** The [options] argument of [highlight]; every key may be missing. *)
Record Options : Type := mkOptions {
  o_color : option string;
  o_borderWidth : option Q;
  o_fillOpacity : option Q;
  o_duration : option Q;
  o_pulseEffect : option bool;
  o_zIndex : option Z;
  o_id : option string
}.

Definition noOptions : Options := mkOptions None None None None None None None.

(** [config = {...defaults, ...options}]. *)
Record Config : Type := mkConfig {
  color : string;
  borderWidth : Q;
  fillOpacity : Q;
  duration : Q;
  pulseEffect : bool;
  zIndex : Z;
  id : string
}.

(** [defaults]; [rnd] is the value drawn for
    [Math.random().toString(36).substr(2, 9)]. *)
Definition defaults (rnd : string) : Config :=
  {| color := "rgba(255, 105, 180, 0.5)";
     borderWidth := 3;
     fillOpacity := 2 # 10;
     duration := 1000;
     pulseEffect := true;
     zIndex := 10000;
     id := "highlight-" +:+ rnd |}.

Definition merge (d : Config) (o : Options) : Config :=
  {| color := default (color d) (o_color o);
     borderWidth := default (borderWidth d) (o_borderWidth o);
     fillOpacity := default (fillOpacity d) (o_fillOpacity o);
     duration := default (duration d) (o_duration o);
     pulseEffect := default (pulseEffect d) (o_pulseEffect o);
     zIndex := default (zIndex d) (o_zIndex o);
     id := default (id d) (o_id o) |}.

(** The overlay [div] that [highlight] creates.  [node] is the identity of
    the DOM object; the style is kept as the values it is computed from. *)
Record Overlay : Type := mkOverlay {
  node : nat;
  el_id : string;
  el_rect : DOMRect;
  el_border : Q * string;
  el_fill : string * Q;
  el_zIndex : Z;
  el_animation : bool
}.

(** The part of the document the script writes: the [style] elements it
    appended to [document.head] (by id) and the overlays it appended to
    [document.body]. *)
Record Document : Type := mkDocument {
  head : list string;
  body : list Overlay
}.

(** [document.getElementById], as a test, among what the script added. *)
Definition getElementById (d : Document) (i : string) : bool :=
  bool_decide (i ∈ head d) || bool_decide (i ∈ el_id <$> body d).

(** One element of [this.highlights]. *)
Record HighlightEntry : Type := mkEntry {
  h_id : string;
  h_element : nat;
  h_selector : string;
  h_timer : option positive
}.

(** [timers]: the pending [setTimeout] callbacks, each
    [() => this.removeHighlight(config.id)], with the id it closes over.
    Timer handles are positive integers, so a stored handle is truthy. *)
Record State : Type := mkState {
  highlights : list HighlightEntry;
  document : Document;
  timers : list (positive * string);
  nextNode : nat;
  nextTimer : positive
}.

Definition initial : State :=
  {| highlights := []; document := mkDocument [] [];
     timers := []; nextNode := 0; nextTimer := 1%positive |}.

Definition clearTimeout (t : positive) (ts : list (positive * string))
  : list (positive * string) :=
  filter (λ p, p.1 ≠ t) ts.

Definition removeChild (n : nat) (b : list Overlay) : list Overlay :=
  filter (λ o, node o ≠ n) b.

Section WithPage.

(** [document.querySelector]: the first element of the current document
    that matches, with the rectangle its [getBoundingClientRect]
    returns. *)
Variable querySelector : Document -> string -> option DOMRect.

Definition highlight (selector : string) (options : Options) (rnd : string)
    (st : State) : option string * State :=
  match querySelector (document st) selector with
  | None => (None, st)
  | Some rect =>
    let config := merge (defaults rnd) options in
    let highlight :=
      {| node := nextNode st;
         el_id := id config;
         el_rect := rect;
         el_border := (borderWidth config, color config);
         el_fill := (color config, fillOpacity config);
         el_zIndex := zIndex config;
         el_animation := pulseEffect config |} in
    let head' :=
      if pulseEffect config
      then if getElementById (document st) "highlight-keyframes"
           then head (document st)
           else head (document st) ++ ["highlight-keyframes"]
      else head (document st) in
    let doc' := mkDocument head' (body (document st) ++ [highlight]) in
    let pushed :=
      highlights st ++
      [ {| h_id := id config; h_element := nextNode st;
           h_selector := selector; h_timer := None |} ] in
    if JS.ltb 0 (duration config) then
      let timer := nextTimer st in
      let stored :=
        match list_find (λ h, h_id h = id config) pushed with
        | Some (i, _) =>
            alter (λ h, mkEntry (h_id h) (h_element h) (h_selector h)
                                (Some timer)) i pushed
        | None => pushed
        end in
      (Some (id config),
       {| highlights := stored; document := doc';
          timers := timers st ++ [(timer, id config)];
          nextNode := S (nextNode st);
          nextTimer := Pos.succ timer |})
    else
      (Some (id config),
       {| highlights := pushed; document := doc';
          timers := timers st;
          nextNode := S (nextNode st);
          nextTimer := nextTimer st |})
  end.

Definition removeHighlight (i : string) (st : State) : bool * State :=
  match list_find (λ h, h_id h = i) (highlights st) with
  | Some (index, highlight) =>
    let timers' :=
      match h_timer highlight with
      | Some t => clearTimeout t (timers st)
      | None => timers st
      end in
    let body' := removeChild (h_element highlight) (body (document st)) in
    (true,
     {| highlights := delete index (highlights st);
        document := mkDocument (head (document st)) body';
        timers := timers';
        nextNode := nextNode st;
        nextTimer := nextTimer st |})
  | None => (false, st)
  end.

Definition removeAllHighlights (st : State) : nat * State :=
  let highlightIds := h_id <$> highlights st in
  (length highlightIds,
   foldl (λ s i, (removeHighlight i s).2) st highlightIds).

Definition setRect (r : DOMRect) (o : Overlay) : Overlay :=
  mkOverlay (node o) (el_id o) r (el_border o) (el_fill o) (el_zIndex o)
            (el_animation o).

Definition updateHighlightPosition (i : string) (st : State) : bool * State :=
  match list_find (λ h, h_id h = i) (highlights st) with
  | None => (false, st)
  | Some (_, highlight) =>
    match querySelector (document st) (h_selector highlight) with
    | None => (false, st)
    | Some rect =>
      let body' :=
        (λ o, if decide (node o = h_element highlight)
              then setRect rect o else o) <$> body (document st) in
      (true,
       {| highlights := highlights st;
          document := mkDocument (head (document st)) body';
          timers := timers st;
          nextNode := nextNode st;
          nextTimer := nextTimer st |})
    end
  end.

Definition updateAllHighlightPositions (st : State) : nat * State :=
  let st' :=
    foldl (λ s h, (updateHighlightPosition (h_id h) s).2) st (highlights st) in
  (length (highlights st'), st').

(** A pending timeout expires: it leaves the pending set and its
    callback runs. *)
Definition timeout (t : positive) (st : State) : State :=
  match list_find (λ p, p.1 = t) (timers st) with
  | Some (_, (_, i)) =>
    (removeHighlight i
       {| highlights := highlights st; document := document st;
          timers := clearTimeout t (timers st);
          nextNode := nextNode st; nextTimer := nextTimer st |}).2
  | None => st
  end.

(** What can happen to the highlighter, one event at a time. *)
Inductive Call : Type :=
| CallHighlight (selector : string) (options : Options) (rnd : string)
| CallRemoveHighlight (i : string)
| CallRemoveAllHighlights
| CallUpdateHighlightPosition (i : string)
| CallUpdateAllHighlightPositions
| TimerExpires (t : positive).

Definition step (st : State) (c : Call) : State :=
  match c with
  | CallHighlight selector options rnd => (highlight selector options rnd st).2
  | CallRemoveHighlight i => (removeHighlight i st).2
  | CallRemoveAllHighlights => (removeAllHighlights st).2
  | CallUpdateHighlightPosition i => (updateHighlightPosition i st).2
  | CallUpdateAllHighlightPositions => (updateAllHighlightPositions st).2
  | TimerExpires t => timeout t st
  end.

Definition run (st : State) (cs : list Call) : State := foldl step st cs.

(** The ids of the tracked entries. *)
Definition ids (st : State) : list string := h_id <$> highlights st.

(** Every [highlight] call of the sequence that resolves its selector
    uses an id that no tracked entry has at that moment. *)
Fixpoint fresh_ids (st : State) (cs : list Call) : Prop :=
  match cs with
  | [] => True
  | c :: cs' =>
    match c with
    | CallHighlight selector options rnd =>
        is_Some (querySelector (document st) selector) ->
        id (merge (defaults rnd) options) ∉ ids st
    | _ => True
    end ∧ fresh_ids (step st c) cs'
  end.

(** Every overlay in the document is the element of a tracked entry. *)
Definition overlays_tracked (st : State) : Prop :=
  ∀ o, o ∈ body (document st) ->
       ∃ h, h ∈ highlights st ∧ h_element h = node o.

(** Every pending timer is the one stored in a tracked entry. *)
Definition timers_held (st : State) : Prop :=
  ∀ p, p ∈ timers st -> ∃ h, h ∈ highlights st ∧ h_timer h = Some p.1.

(** [n] calls of [highlight] in a row, with the value each returned. *)
Fixpoint highlightMany (calls : list (string * Options * string)) (st : State)
    : list (option string) * State :=
  match calls with
  | [] => ([], st)
  | (selector, options, rnd) :: calls' =>
    let r := highlight selector options rnd st in
    let rs := highlightMany calls' r.2 in
    (r.1 :: rs.1, rs.2)
  end.

End WithPage.

End Basic.

(** ** The advanced highlighter: the DOM-tree scan *)
Module Adv.

Definition HIGHLIGHT_CONTAINER_ID : string := "playwright-highlight-container".

Definition COLORS : list string :=
  [ "#FF0000"; "#00FF00"; "#0000FF"; "#FFA500"; "#800080";
    "#008080"; "#FF69B4"; "#4B0082"; "#FF4500"; "#2E8B57";
    "#DC143C"; "#4682B4" ].

Definition ELEMENT_NODE : nat := 1.

(** *** The page *)

(** An element node: [ref] is the identity of the DOM object (the key of
    the [WeakMap]s and what the layout engine is asked about); the other
    fields are the properties and attributes the script reads. *)
Record Element : Type := mkElement {
  ref : nat;
  tagName : string;
  id : string;
  attributes : list (string * string);
  classList : list string;
  onclick : bool;
  draggable : bool
}.

Definition getAttribute (e : Element) (name : string) : option string :=
  (λ r, r.2.2) <$> list_find (λ p, p.1 = name) (attributes e).

Definition hasAttribute (e : Element) (name : string) : bool :=
  bool_decide (name ∈ (attributes e).*1).

(** Where a node sits: its previous siblings (nearest first, each with its
    [nodeType] and [nodeName]) and its [parentNode].  This is what the
    [previousSibling] and [parentNode] pointers of the node give.
    [ParentDocument] stands for a parent that is not an element and not a
    shadow root: the document, or none. *)
Inductive Position : Type :=
| Pos (previousSiblings : list (nat * string)) (parentNode : Parent)
with Parent : Type :=
| ParentDocument
| ParentShadowRoot
| ParentElement (nodeName : string) (position : Position).

(** A DOM subtree.  [frame] is what an [iframe] element gives when its
    content document is asked for. *)
#[local] Unset Elimination Schemes.
Inductive node : Type :=
| Other (nodeType : nat) (nodeName : string)
| Elem (e : Element) (childNodes : list node)
       (shadowRoot : option (list node)) (frame : frameDoc)
with frameDoc : Type :=
| FrameThrows
| FrameNone
| FrameBody (position : Position) (body : node).
#[local] Set Elimination Schemes.

Definition nodeType (n : node) : nat :=
  match n with
  | Other t _ => t
  | Elem _ _ _ _ => ELEMENT_NODE
  end.

Definition nodeName (n : node) : string :=
  match n with
  | Other _ name => name
  | Elem e _ _ _ => tagName e
  end.

Record CSSStyle : Type := mkStyle {
  visibility : string;
  display : string
}.

(** The result of [document.elementFromPoint] followed by the walk up the
    [parentElement] chain: the call throws, returns nothing, or returns an
    element, of which [chain] lists the objects from that element upwards
    and below [document.documentElement]. *)
Inductive HitTest : Type :=
| HitThrows
| HitNull
| HitChain (chain : list nat).

(** The browser as the scan sees it. *)
Record Browser : Type := mkBrowser {
  getBoundingClientRect : nat -> DOMRect;
  getComputedStyle : nat -> CSSStyle;
  offsetWidth : nat -> Q;
  offsetHeight : nat -> Q;
  innerWidth : Q;
  innerHeight : Q;
  elementFromPoint : Q -> Q -> HitTest;
  document_body : option (Position * node);
  querySelector : string -> option (Position * node)
}.

(** *** The module state *)

Record NodeData : Type := mkNodeData {
  nd_tagName : string;
  nd_xpath : string;
  nd_children : list string;
  nd_isVisible : option bool;
  nd_isTopElement : option bool;
  nd_isInteractive : option bool;
  nd_highlightIndex : option nat
}.

Record OverlayBox : Type := mkOverlayBox {
  ov_border : string;
  ov_backgroundColor : string;
  ov_top : Q;
  ov_left : Q;
  ov_width : Q;
  ov_height : Q
}.

Record Label : Type := mkLabel {
  lb_background : string;
  lb_fontSize : Q;
  lb_textContent : nat;
  lb_top : Q;
  lb_left : Q
}.

Inductive ContainerChild : Type :=
| COverlay (o : OverlayBox)
| CLabel (l : Label).

Inductive LogEntry : Type :=
| ConsoleLog (message : string)
| ConsoleWarn (message : string)
| ConsoleError (message : string).

(** [highlightIndex], [ID.current], [DOM_HASH_MAP] and [DOM_CACHE] are the
    private variables of the module.  [container] is the element with id
    [HIGHLIGHT_CONTAINER_ID] that the script adds to the document, with
    its children (an element of the page that has this id is passed over
    by the walk, and is not taken for the container);
    [listeners] are the [scroll]/[resize] listeners registered on
    [window]; [console] is what was written to the console.  [assigned] is
    a history variable: the pairs (element, index) of the executions of
    [nodeData.highlightIndex = highlightIndex++] since the counter was
    last reset, in order. *)
Record State : Type := mkState {
  highlightIndex : nat;
  ID_current : nat;
  DOM_HASH_MAP : gmap string NodeData;
  boundingRects : gmap nat DOMRect;
  computedStyles : gmap nat CSSStyle;
  container : option (list ContainerChild);
  listeners : list (string * nat);
  console : list LogEntry;
  assigned : list (nat * nat)
}.

Definition initial : State :=
  mkState 0 0 ∅ ∅ ∅ None [] [] [].

Definition set_highlightIndex (v : nat) (st : State) : State :=
  mkState v (ID_current st) (DOM_HASH_MAP st) (boundingRects st)
          (computedStyles st) (container st) (listeners st) (console st)
          (assigned st).

Definition set_ID_current (v : nat) (st : State) : State :=
  mkState (highlightIndex st) v (DOM_HASH_MAP st) (boundingRects st)
          (computedStyles st) (container st) (listeners st) (console st)
          (assigned st).

Definition set_DOM_HASH_MAP (v : gmap string NodeData) (st : State) : State :=
  mkState (highlightIndex st) (ID_current st) v (boundingRects st)
          (computedStyles st) (container st) (listeners st) (console st)
          (assigned st).

Definition set_boundingRects (v : gmap nat DOMRect) (st : State) : State :=
  mkState (highlightIndex st) (ID_current st) (DOM_HASH_MAP st) v
          (computedStyles st) (container st) (listeners st) (console st)
          (assigned st).

Definition set_computedStyles (v : gmap nat CSSStyle) (st : State) : State :=
  mkState (highlightIndex st) (ID_current st) (DOM_HASH_MAP st)
          (boundingRects st) v (container st) (listeners st) (console st)
          (assigned st).

Definition set_container (v : option (list ContainerChild)) (st : State) : State :=
  mkState (highlightIndex st) (ID_current st) (DOM_HASH_MAP st)
          (boundingRects st) (computedStyles st) v (listeners st)
          (console st) (assigned st).

Definition set_listeners (v : list (string * nat)) (st : State) : State :=
  mkState (highlightIndex st) (ID_current st) (DOM_HASH_MAP st)
          (boundingRects st) (computedStyles st) (container st) v
          (console st) (assigned st).

Definition set_console (v : list LogEntry) (st : State) : State :=
  mkState (highlightIndex st) (ID_current st) (DOM_HASH_MAP st)
          (boundingRects st) (computedStyles st) (container st)
          (listeners st) v (assigned st).

Definition set_assigned (v : list (nat * nat)) (st : State) : State :=
  mkState (highlightIndex st) (ID_current st) (DOM_HASH_MAP st)
          (boundingRects st) (computedStyles st) (container st)
          (listeners st) (console st) v.

Definition log (e : LogEntry) (st : State) : State :=
  set_console (console st ++ [e]) st.

(** [DOM_CACHE.clearCache()]. *)
Definition clearCache (st : State) : State :=
  set_computedStyles ∅ (set_boundingRects ∅ st).

(** *** XPath *)

(** [parentNode instanceof ShadowRoot || parentNode instanceof
    HTMLIFrameElement]; an element parent is an [iframe] element when
    its name says so. *)
Definition isBoundary (p : Parent) : bool :=
  match p with
  | ParentShadowRoot => true
  | ParentElement name _ => String.eqb (JS.toLowerCase name) "iframe"
  | ParentDocument => false
  end.

(** The loop of [getXPathTree]: from the element upwards, each segment
    put in front of the ones found so far. *)
Fixpoint xpathSegments (stopAtBoundary : bool) (name : string) (pos : Position)
    : list string :=
  match pos with
  | Pos previousSiblings parent =>
    if stopAtBoundary && isBoundary parent then []
    else
      let index :=
        length (filter (λ s, s = (ELEMENT_NODE, name)) previousSiblings) in
      let xpathIndex :=
        if (0 <? index)%nat then "[" +:+ pretty (index + 1)%nat +:+ "]" else "" in
      let segment := JS.toLowerCase name +:+ xpathIndex in
      match parent with
      | ParentElement parentName parentPos =>
          xpathSegments stopAtBoundary parentName parentPos ++ [segment]
      | _ => [segment]
      end
  end.

Definition getXPathTree (e : Element) (pos : Position) (stopAtBoundary : bool)
    : string :=
  JS.join "/" (xpathSegments stopAtBoundary (tagName e) pos).

(** *** Classification *)

Definition interactiveElements : list string :=
  [ "a"; "button"; "details"; "embed"; "input"; "menu"; "menuitem";
    "object"; "select"; "textarea"; "canvas"; "summary"; "dialog" ].

Definition interactiveRoles : list string :=
  [ "button"; "link"; "checkbox"; "radio"; "tab"; "menu"; "menuitem";
    "slider"; "switch"; "textbox"; "combobox"; "listbox"; "option";
    "searchbox"; "spinbutton"; "scrollbar"; "tooltip"; "treeitem" ].

Definition interactiveClass (cls : string) : bool :=
  let lowerCls := JS.toLowerCase cls in
  JS.includes lowerCls "button" ||
  JS.includes lowerCls "btn" ||
  JS.includes lowerCls "clickable" ||
  JS.includes lowerCls "interactive" ||
  JS.includes lowerCls "selectable" ||
  JS.includes lowerCls "dropdown".

Definition isInteractiveElement (element : Element) : bool :=
  let tag := JS.toLowerCase (tagName element) in
  let role := getAttribute element "role" in
  let tabIndex := getAttribute element "tabindex" in
  if JS.has interactiveElements tag ||
     match role with
     | Some r => negb (String.eqb r "") && JS.has interactiveRoles (JS.toLowerCase r)
     | None => false
     end ||
     match tabIndex with
     | Some t => negb (String.eqb t "-1")
     | None => false
     end ||
     onclick element ||
     hasAttribute element "onclick" ||
     hasAttribute element "ng-click" ||
     hasAttribute element "@click" ||
     hasAttribute element "v-on:click" ||
     hasAttribute element "aria-expanded" ||
     hasAttribute element "aria-pressed" ||
     hasAttribute element "aria-selected" ||
     hasAttribute element "aria-checked" ||
     bool_decide (getAttribute element "contenteditable" = Some "true") ||
     draggable element ||
     bool_decide (getAttribute element "draggable" = Some "true")
  then true
  else existsb interactiveClass (classList element).

Definition alwaysAccept : list string :=
  [ "body"; "div"; "main"; "article"; "section"; "nav"; "header"; "footer" ].

Definition leafElementDenyList : list string :=
  [ "svg"; "script"; "style"; "link"; "meta"; "noscript"; "template" ].

Definition isElementAccepted (element : Element) : bool :=
  if String.eqb (tagName element) "" then false
  else
    let tag := JS.toLowerCase (tagName element) in
    if JS.has alwaysAccept tag then true
    else negb (JS.has leafElementDenyList tag).

(** *** Cached layout queries *)

Section WithBrowser.

Variable B : Browser.

Definition getCachedBoundingRect (element : Element) (st : State)
    : DOMRect * State :=
  match boundingRects st !! ref element with
  | Some rect => (rect, st)
  | None =>
    let rect := getBoundingClientRect B (ref element) in
    (rect, set_boundingRects (<[ref element := rect]> (boundingRects st)) st)
  end.

Definition getCachedComputedStyle (element : Element) (st : State)
    : CSSStyle * State :=
  match computedStyles st !! ref element with
  | Some style => (style, st)
  | None =>
    let style := getComputedStyle B (ref element) in
    (style, set_computedStyles (<[ref element := style]> (computedStyles st)) st)
  end.

Definition isElementVisible (element : Element) (st : State) : bool * State :=
  let r := getCachedComputedStyle element st in
  (JS.ltb 0 (offsetWidth B (ref element)) &&
   JS.ltb 0 (offsetHeight B (ref element)) &&
   negb (String.eqb (visibility r.1) "hidden") &&
   negb (String.eqb (display r.1) "none"),
   r.2).

Definition inViewport (rect : DOMRect) : bool :=
  JS.ltb (rect_left rect) (innerWidth B) &&
  JS.ltb 0 (rect_right rect) &&
  JS.ltb (rect_top rect) (innerHeight B) &&
  JS.ltb 0 (rect_bottom rect).

Definition hitTest (element : Element) (rect : DOMRect) : bool :=
  let centerX := (rect_left rect + rect_width rect / 2)%Q in
  let centerY := (rect_top rect + rect_height rect / 2)%Q in
  match elementFromPoint B centerX centerY with
  | HitThrows => true
  | HitNull => false
  | HitChain chain => bool_decide (ref element ∈ chain)
  end.

Definition isTopElement (element : Element) (st : State) : bool * State :=
  let r := getCachedBoundingRect element st in
  (if negb (inViewport r.1) then true else hitTest element r.1, r.2).

(** *** Drawing one overlay *)

(** The position of an element on the page: its rectangle, moved by
    the offset of the [iframe] it is in. *)
Definition placed (element : Element) (parentIframe : option Element) : Q * Q :=
  let rect := getBoundingClientRect B (ref element) in
  let iframeOffset :=
    match parentIframe with
    | Some f =>
      let iframeRect := getBoundingClientRect B (ref f) in
      (rect_left iframeRect, rect_top iframeRect)
    | None => (0%Q, 0%Q)
    end in
  ((rect_top rect + iframeOffset.2)%Q, (rect_left rect + iframeOffset.1)%Q).

(** The [overlay] element that [highlightElement] builds. *)
Definition overlayFor (element : Element) (index : nat)
    (parentIframe : option Element) : OverlayBox :=
  let rect := getBoundingClientRect B (ref element) in
  let colorIndex := index mod length COLORS in
  let baseColor := COLORS !!! colorIndex in
  let backgroundColor := baseColor +:+ "1A" in
  let top := (placed element parentIframe).1 in
  let left := (placed element parentIframe).2 in
  {| ov_border := baseColor; ov_backgroundColor := backgroundColor;
     ov_top := top; ov_left := left;
     ov_width := rect_width rect; ov_height := rect_height rect |}.

(** The [label] element that [highlightElement] builds. *)
Definition labelFor (element : Element) (index : nat)
    (parentIframe : option Element) : Label :=
  let rect := getBoundingClientRect B (ref element) in
  let colorIndex := index mod length COLORS in
  let baseColor := COLORS !!! colorIndex in
  let top := (placed element parentIframe).1 in
  let left := (placed element parentIframe).2 in
  let labelWidth : Q := 20%Q in
  let labelHeight : Q := 16%Q in
  let small :=
    JS.ltb (rect_width rect) (labelWidth + 4)%Q ||
    JS.ltb (rect_height rect) (labelHeight + 4)%Q in
  let labelTop := (if small then top - labelHeight - 2 else top + 2)%Q in
  let labelLeft :=
    (if small then left + rect_width rect - labelWidth
     else left + rect_width rect - labelWidth - 2)%Q in
  {| lb_background := baseColor;
     lb_fontSize := Qmin 12 (Qmax 8 (rect_height rect / 2)%Q);
     lb_textContent := index;
     lb_top := labelTop; lb_left := labelLeft |}.

(** The body of the [try] block of [highlightElement]: [None] when it
    throws.  The one operation of it that can fail on a live DOM is
    [document.body.appendChild(container)], when the document has no
    body and the container does not exist yet. *)
Definition drawOverlay (element : Element) (index : nat)
    (parentIframe : option Element) (st : State) : option (nat * State) :=
  match
    match container st with
    | Some children => Some children
    | None => match document_body B with Some _ => Some [] | None => None end
    end
  with
  | None => None
  | Some children =>
    Some (index + 1,
          set_listeners
            (listeners st ++ [("scroll", ref element); ("resize", ref element)])
            (set_container
               (Some (children ++
                      [COverlay (overlayFor element index parentIframe);
                       CLabel (labelFor element index parentIframe)])) st))
  end.

Definition highlightElement (element : Element) (index : nat)
    (parentIframe : option Element) (st : State) : nat * State :=
  match drawOverlay element index parentIframe st with
  | Some r => r
  | None => (index, log (ConsoleError "Error highlighting element:") st)
  end.

Definition removeAllHighlights (st : State) : State :=
  set_container None st.

(** *** The tree walk *)

(** The block "Check visibility and interactivity" of [buildDomTree]. *)
Definition classify (element : Element) (parentIframe : option Element)
    (nodeData : NodeData) (st : State) : NodeData * State :=
  let v := isElementVisible element st in
  let nodeData :=
    mkNodeData (nd_tagName nodeData) (nd_xpath nodeData) (nd_children nodeData)
               (Some v.1) None None None in
  if v.1 then
    let t := isTopElement element v.2 in
    let nodeData :=
      mkNodeData (nd_tagName nodeData) (nd_xpath nodeData) (nd_children nodeData)
                 (nd_isVisible nodeData) (Some t.1) None None in
    if t.1 then
      let i := isInteractiveElement element in
      let nodeData :=
        mkNodeData (nd_tagName nodeData) (nd_xpath nodeData)
                   (nd_children nodeData) (nd_isVisible nodeData)
                   (nd_isTopElement nodeData) (Some i) None in
      if i then
        let index := highlightIndex t.2 in
        let st1 :=
          set_assigned (assigned t.2 ++ [(ref element, index)])
                       (set_highlightIndex (S index) t.2) in
        let nodeData :=
          mkNodeData (nd_tagName nodeData) (nd_xpath nodeData)
                     (nd_children nodeData) (nd_isVisible nodeData)
                     (nd_isTopElement nodeData) (nd_isInteractive nodeData)
                     (Some index) in
        (nodeData, (highlightElement element index parentIframe st1).2)
      else (nodeData, t.2)
    else (nodeData, t.2)
  else (nodeData, v.2).

Definition isIframe (element : Element) : bool :=
  String.eqb (JS.toLowerCase (tagName element)) "iframe".

(** [DOM_HASH_MAP[id] = nodeData] with [id = `${ID.current++}`]. *)
Definition store (nodeData : NodeData) (st : State) : string * State :=
  let i := pretty (ID_current st) in
  (i, set_DOM_HASH_MAP (<[i := nodeData]> (DOM_HASH_MAP st))
        (set_ID_current (S (ID_current st)) st)).

(** The two [for ... of] loops over child nodes: [visit] is the call of
    [buildDomTree] on a child, which is handed the child's position;
    the loop over [node.childNodes] calls it for element nodes only,
    the loop over [node.shadowRoot.childNodes] for every node. *)
Definition forEachChild (visit : node -> Position -> State -> State)
    (elementsOnly : bool) (parent : Parent) (children : list node)
    (st : State) : State :=
  (foldl
     (λ acc child,
        ((nodeType child, nodeName child) :: acc.1,
         if elementsOnly && negb (nodeType child =? ELEMENT_NODE)%nat
         then acc.2
         else visit child (Pos acc.1 parent) acc.2))
     ([], st) children).2.

Fixpoint buildDomTree (n : node) (pos : Position) (parentIframe : option Element)
    (st : State) : option string * State :=
  match n with
  | Other _ _ => (None, st)
  | Elem e childNodes shadowRoot frame =>
    if String.eqb (id e) HIGHLIGHT_CONTAINER_ID then (None, st)
    else if negb (isElementAccepted e) then (None, st)
    else
      let nodeData :=
        {| nd_tagName := JS.toLowerCase (tagName e);
           nd_xpath := getXPathTree e pos true;
           nd_children := [];
           nd_isVisible := None; nd_isTopElement := None;
           nd_isInteractive := None; nd_highlightIndex := None |} in
      let c := classify e parentIframe nodeData st in
      let visit child p s := (buildDomTree child p parentIframe s).2 in
      let st' :=
        if isIframe e then
          match frame with
          | FrameBody bodyPos body => (buildDomTree body bodyPos (Some e) c.2).2
          | FrameNone => c.2
          | FrameThrows => log (ConsoleWarn "Unable to access iframe:") c.2
          end
        else
          match shadowRoot with
          | Some children => forEachChild visit false ParentShadowRoot children c.2
          | None =>
            forEachChild visit true (ParentElement (tagName e) pos) childNodes c.2
          end in
      let r := store c.1 st' in
      (Some r.1, r.2)
  end.

(** *** The entry point *)

Record Options : Type := mkOptions {
  o_doHighlightElements : option bool;
  o_focusHighlightIndex : option Z;
  o_viewportExpansion : option Q;
  o_parentSelector : option string
}.

Record Config : Type := mkConfig {
  doHighlightElements : bool;
  focusHighlightIndex : Z;
  viewportExpansion : Q;
  parentSelector : option string
}.

Definition defaults : Config :=
  {| doHighlightElements := true;
     focusHighlightIndex := (-1)%Z;
     viewportExpansion := 0;
     parentSelector := None |}.

Definition merge (d : Config) (o : Options) : Config :=
  {| doHighlightElements := default (doHighlightElements d) (o_doHighlightElements o);
     focusHighlightIndex := default (focusHighlightIndex d) (o_focusHighlightIndex o);
     viewportExpansion := default (viewportExpansion d) (o_viewportExpansion o);
     parentSelector :=
       match o_parentSelector o with
       | Some s => Some s
       | None => parentSelector d
       end |}.

(** "Reset for new highlighting session". *)
Definition reset (st : State) : State :=
  clearCache (set_ID_current 0 (set_assigned [] (set_highlightIndex 0 st))).

(** The node the scan starts from, and what is logged on the way. *)
Definition startNode (config : Config) (st : State)
    : option (Position * node) * State :=
  if JS.truthy_string (parentSelector config) then
    match querySelector B (default "" (parentSelector config)) with
    | Some parentElement =>
      (Some parentElement,
       log (ConsoleLog ("Starting highlight from parent selector: " +:+
                        default "" (parentSelector config))) st)
    | None =>
      (document_body B,
       log (ConsoleWarn ("Parent selector not found: " +:+
                         default "" (parentSelector config) +:+
                         ", using document.body")) st)
    end
  else (document_body B, st).

Definition findAndHighlightInteractiveElements (options : Options) (st : State)
    : nat * State :=
  let config := merge defaults options in
  let st1 := removeAllHighlights (reset st) in
  let s := startNode config st1 in
  let st2 :=
    match s.1 with
    | Some (pos, n) => (buildDomTree n pos None s.2).2
    | None => s.2
    end in
  (highlightIndex st2, st2).

(** *** What the scan is compared with *)

(** The three checks, asked of the browser directly. *)
Definition visible (e : Element) : bool :=
  JS.ltb 0 (offsetWidth B (ref e)) &&
  JS.ltb 0 (offsetHeight B (ref e)) &&
  negb (String.eqb (visibility (getComputedStyle B (ref e))) "hidden") &&
  negb (String.eqb (display (getComputedStyle B (ref e))) "none").

Definition topmost (e : Element) : bool :=
  let rect := getBoundingClientRect B (ref e) in
  if negb (inViewport rect) then true else hitTest e rect.

(** An element that passes all three: it is classified interactive and
    given a highlight index. *)
Definition highlightable (e : Element) : bool :=
  visible e && topmost e && isInteractiveElement e.

(** The caches hold only what the browser answers. *)
Definition cache_ok (st : State) : Prop :=
  (∀ k r, boundingRects st !! k = Some r -> r = getBoundingClientRect B k) ∧
  (∀ k s, computedStyles st !! k = Some s -> s = getComputedStyle B k).

(** The node a scan with these options starts from. *)
Definition start (options : Options) : option (Position * node) :=
  (startNode (merge defaults options) initial).1.

(** An overlay can be drawn: the container exists or can be created. *)
Definition can_draw (st : State) : bool :=
  match container st, document_body B with
  | None, None => false
  | _, _ => true
  end.

End WithBrowser.

(** The accepted elements of a subtree in pre-order, descending as the
    walk does: into the body of an [iframe]'s document, else into the
    children of the shadow root, else into the child nodes. *)
Fixpoint visited (n : node) : list Element :=
  match n with
  | Other _ _ => []
  | Elem e childNodes shadowRoot frame =>
    if String.eqb (id e) HIGHLIGHT_CONTAINER_ID then []
    else if negb (isElementAccepted e) then []
    else
      e ::
      (if isIframe e then
         match frame with
         | FrameBody _ body => visited body
         | _ => []
         end
       else
         match shadowRoot with
         | Some children => flat_map visited children
         | None => flat_map visited childNodes
         end)
  end.

Definition visitedFrom (start : option (Position * node)) : list Element :=
  match start with
  | Some (_, n) => visited n
  | None => []
  end.

(** Consecutive indices from [start], one per element, in order. *)
Fixpoint number (l : list Element) (start : nat) : list (nat * nat) :=
  match l with
  | [] => []
  | e :: l' => (ref e, start) :: number l' (S start)
  end.

(** The overlays (bordered boxes) present in the document. *)
Definition isOverlay (c : ContainerChild) : bool :=
  match c with
  | COverlay _ => true
  | CLabel _ => false
  end.

Definition overlays (st : State) : nat :=
  match container st with
  | Some children => length (filter isOverlay children)
  | None => 0
  end.

(** Two states that the scan cannot tell apart: they agree on everything
    the scan reads, and the mapping of the second is the mapping of the
    first over [M]. *)
Definition related (M : gmap string NodeData) (s t : State) : Prop :=
  highlightIndex s = highlightIndex t ∧
  ID_current s = ID_current t ∧
  boundingRects s = boundingRects t ∧
  computedStyles s = computedStyles t ∧
  container s = container t ∧
  assigned s = assigned t ∧
  DOM_HASH_MAP t = DOM_HASH_MAP s ∪ M.

(** A step that touches neither the counter, nor the history, nor the
    container. *)
Definition quiet (st st' : State) : Prop :=
  highlightIndex st' = highlightIndex st ∧
  assigned st' = assigned st ∧
  container st' = container st.

(** What walking over the elements [l] does to the counter, the history
    and the overlays. *)
Definition scanned (B : Browser) (st : State) (l : list Element) (st' : State)
    : Prop :=
  let found := filter (λ e, highlightable B e = true) l in
  cache_ok B st' ∧
  highlightIndex st' = highlightIndex st + length found ∧
  assigned st' = assigned st ++ number found (highlightIndex st) ∧
  can_draw B st' = can_draw B st ∧
  overlays st' = overlays st + (if can_draw B st then length found else 0).

(** No record of the mapping lists a child. *)
Definition childless (st : State) : Prop :=
  map_Forall (λ _ nd, nd_children nd = []) (DOM_HASH_MAP st).

(** Induction over a DOM subtree. *)
Section NodeInd.

Variable P : node -> Prop.

Definition shadowAll (shadowRoot : option (list node)) : Prop :=
  match shadowRoot with
  | Some children => Forall P children
  | None => True
  end.

Definition frameAll (frame : frameDoc) : Prop :=
  match frame with
  | FrameBody _ body => P body
  | _ => True
  end.

Hypothesis P_Other : ∀ t name, P (Other t name).
Hypothesis P_Elem : ∀ e childNodes shadowRoot frame,
  Forall P childNodes -> shadowAll shadowRoot -> frameAll frame ->
  P (Elem e childNodes shadowRoot frame).

Fixpoint node_ind (n : node) : P n :=
  match n with
  | Other t name => P_Other t name
  | Elem e childNodes shadowRoot frame =>
    let all :=
      fix all (l : list node) : Forall P l :=
        match l with
        | [] => @List.Forall_nil node P
        | x :: l' => @List.Forall_cons node P x l' (node_ind x) (all l')
        end in
    P_Elem e childNodes shadowRoot frame
      (all childNodes)
      (match shadowRoot as s return shadowAll s with
       | Some children => all children
       | None => I
       end)
      (match frame as f return frameAll f with
       | FrameBody _ body => node_ind body
       | FrameThrows => I
       | FrameNone => I
       end)
  end.

End NodeInd.

End Adv.

(** ** The photo display: the metrics panel built when the image has loaded *)
Module Photo.

(** The double-quote character of the HTML attributes. *)
Definition dq : string := String (ascii_of_nat 34) EmptyString.

Definition getScoreColor (score : Q) : string :=
  if Qle_bool 8 score then "#4CAF50"
  else if Qle_bool 6 score then "#FFC107"
  else "#F44336".

(** The [metrics] argument: each key may be missing ([undefined]). *)
Record Metrics : Type := mkMetrics {
  symmetry : option Q;
  golden_ratio : option Q;
  thirds : option Q;
  eye_spacing : option Q
}.

(** [Number.prototype.toFixed(1)], for magnitudes below 10^21: the sign,
    then the integer [n] for which [n / 10] is nearest to the magnitude
    (the larger one of two), written with one digit after the point. *)
Definition toFixed1 (x : Q) : string :=
  let n := Qfloor (Qabs x * 10 + (1 # 2))%Q in
  (if JS.ltb x 0 then "-" else "") +:+
  pretty (n `div` 10)%Z +:+ "." +:+ pretty (n `mod` 10)%Z.

(** [(x * 100).toFixed(1)] and the percent sign.  The product is exact
    here; in the code it is a product of doubles, rounded to a double,
    which moves a product that lies on a half step of the last digit
    (that of [0.8135]) off it: the digit shown can then be one lower. *)
Definition percent (x : Q) : string := toFixed1 (x * 100)%Q +:+ "%".

Definition unavailable : string :=
  "<h3 style=" +:+ dq +:+ "margin-top: 0; color: red" +:+ dq +:+
  ">Facial analysis unavailable.</h3>".

Section WithNumbers.

(** How a number is written inside a template literal. *)
Variable Number_toString : Q -> string.

Definition line (title : string) (value : option Q) : string :=
  match value with
  | Some v => "<p>" +:+ title +:+ ": " +:+ percent v +:+ "</p>"
  | None => ""
  end.

(** [metricsOverlay.innerHTML] as the [onload] handler of [displayPhoto]
    sets it. *)
Definition metricsHtml (attractivenessScore : option Q) (metrics : option Metrics)
    : string :=
  match attractivenessScore, metrics with
  | Some score, Some m =>
    if JS.truthy_number attractivenessScore then
      "<h3 style=" +:+ dq +:+ "margin-top: 0; color: " +:+ getScoreColor score +:+
      dq +:+ ">Score: " +:+ Number_toString score +:+ "/10</h3>" +:+
      line "Symmetry" (symmetry m) +:+
      line "Golden Ratio" (golden_ratio m) +:+
      line "Facial Thirds" (thirds m) +:+
      line "Eye Spacing" (eye_spacing m)
    else unavailable
  | _, _ => unavailable
  end.

End WithNumbers.

End Photo.

(** ** The research panel *)
Module Research.

Record Item : Type := mkItem {
  url : option string;
  thumbnailUrl : option string;
  likenessScore : option Q
}.

Record ResearchResult : Type := mkResult {
  name : option string;
  description : option string;
  metadata : option (list Item)
}.

(** A card of the grid: the link, the thumbnail in it, and the score line
    when there is one. *)
Record Card : Type := mkCard {
  href : string;
  target : string;
  src : string;
  score : option string
}.

Inductive PanelChild : Type :=
| Header (title : string)
| Name (text : string)
| Description (text : string)
| MetaTitle (text : string)
| Grid (cards : list Card).

(** The body of the [forEach] callback: the card appended for [item], if
    any. *)
Definition card (item : Item) : option Card :=
  if JS.truthy_string (thumbnailUrl item) then
    Some {| href := if JS.truthy_string (url item)
                    then default "" (url item) else "#";
            target := "_blank";
            src := default "" (thumbnailUrl item);
            score :=
              if JS.truthy_number (likenessScore item)
              then Some ("Match: " +:+
                         pretty (JS.Math_round (default 0%Q (likenessScore item))) +:+
                         "%")
              else None |}
  else None.

(** The children of the container that [displayResearch] builds. *)
Definition displayResearch (data : ResearchResult) : list PanelChild :=
  [Header "Research Results"] ++
  (if JS.truthy_string (name data)
   then [Name (default "" (name data))] else []) ++
  (if JS.truthy_string (description data)
   then [Description (default "" (description data))] else []) ++
  match metadata data with
  | Some items =>
    if (0 <? length items)%nat
    then [MetaTitle "Found Images:"; Grid (omap card items)]
    else []
  | None => []
  end.

(** The cards of the grid, whether or not the grid is shown. *)
Definition cards (data : ResearchResult) : list Card :=
  omap card (default [] (metadata data)).

End Research.

(** ** Sample pages and calls *)
Module Sample.

(** A selector engine that finds an element for every selector. *)
Definition everywhere (_ : Basic.Document) (_ : string) : option DOMRect :=
  Some (mkRect 0 0 10 10).

(** Options that give the id of the highlight. *)
Definition explicit (i : string) : Basic.Options :=
  Basic.mkOptions None None None None None None (Some i).

(** Four events in which no id is used while it is tracked. *)
Definition fresh_calls : list Basic.Call :=
  [Basic.CallHighlight "a" (explicit "x") "r1";
   Basic.CallHighlight "a" (explicit "y") "r2";
   Basic.CallRemoveHighlight "x";
   Basic.CallHighlight "a" (explicit "x") "r3"].

Definition three_calls : list (string * Basic.Options * string) :=
  [("#a", Basic.noOptions, "r1"); ("#b", explicit "x", "r2");
   ("#c", Basic.noOptions, "r3")].

Import Adv.

Definition el (r : nat) (tag i : string) : Element :=
  mkElement r tag i [] [] false false.

Definition htmlPos : Position := Pos [] ParentDocument.
Definition bodyPos : Position := Pos [(1, "HEAD")] (ParentElement "HTML" htmlPos).

Definition button : node := Elem (el 2 "BUTTON" "") [] None FrameNone.
Definition div : node := Elem (el 1 "DIV" "d") [Other 3 "#text"; button] None FrameNone.
Definition body : node := Elem (el 0 "BODY" "") [div] None FrameNone.
Definition divPos : Position := Pos [] (ParentElement "BODY" bodyPos).

(** A page [<body><div id="d">text<button></button></div></body>], all of
    it visible, the point in the middle of every box on the button. *)
Definition page : Browser :=
  {| getBoundingClientRect := λ _, mkRect 0 0 100 50;
     getComputedStyle := λ _, mkStyle "visible" "block";
     offsetWidth := λ _, 100%Q;
     offsetHeight := λ _, 50%Q;
     innerWidth := 1000;
     innerHeight := 800;
     elementFromPoint := λ _ _, HitChain [2; 1; 0];
     document_body := Some (bodyPos, body);
     querySelector := λ s, if String.eqb s "#d" then Some (divPos, div) else None |}.

(** A document whose [body] was replaced by a lone button:
    [document.body] is [null], [#b] selects the button. *)
Definition bodiless : Browser :=
  {| getBoundingClientRect := λ _, mkRect 0 0 100 50;
     getComputedStyle := λ _, mkStyle "visible" "block";
     offsetWidth := λ _, 100%Q;
     offsetHeight := λ _, 50%Q;
     innerWidth := 1000;
     innerHeight := 800;
     elementFromPoint := λ _ _, HitChain [2];
     document_body := None;
     querySelector := λ s, if String.eqb s "#b"
                           then Some (bodyPos, Elem (el 2 "BUTTON" "b") [] None FrameNone)
                           else None |}.

(** A page with a visible button, a button with [display: none], and a
    visible [div role="button"] that something else covers. *)
Definition covered : Browser :=
  {| getBoundingClientRect := λ r,
       match r with
       | 0 => mkRect 0 0 1000 800
       | 3 => mkRect 0 100 100 50
       | _ => mkRect 0 0 100 50
       end;
     getComputedStyle := λ r,
       match r with
       | 2 => mkStyle "visible" "none"
       | _ => mkStyle "visible" "block"
       end;
     offsetWidth := λ r, match r with 2 => 0%Q | _ => 100%Q end;
     offsetHeight := λ r, match r with 2 => 0%Q | _ => 50%Q end;
     innerWidth := 1000;
     innerHeight := 800;
     elementFromPoint := λ _ y,
       if JS.ltb y 100 then HitChain [1; 0]
       else if JS.ltb y 200 then HitChain [9; 0]
       else HitChain [0];
     document_body :=
       Some (bodyPos,
             Elem (el 0 "BODY" "")
               [ Elem (el 1 "BUTTON" "") [] None FrameNone;
                 Elem (el 2 "BUTTON" "") [] None FrameNone;
                 Elem (mkElement 3 "DIV" "" [("role", "button")] [] false false)
                      [] None FrameNone ]
               None FrameNone);
     querySelector := λ _, None |}.

Definition noOptions : Options := mkOptions None None None None.
Definition from (selector : string) : Options :=
  mkOptions None None None (Some selector).

(** Options that ask for no overlays, a focus index and a wider viewport. *)
Definition quietOptions : Options :=
  mkOptions (Some false) (Some 3%Z) (Some 200%Q) None.

End Sample.

(** ** The basic highlighter: what its state keeps *)
Module Tracking.

Import Basic.

(** The overlays in the document are those of the tracked entries, one
    each and in the same order; every DOM object in use and every pending
    timer was handed out before the next ones. *)
Definition consistent (st : State) : Prop :=
  node <$> body (document st) = h_element <$> highlights st ∧
  NoDup (node <$> body (document st)) ∧
  (∀ o, o ∈ body (document st) -> node o < nextNode st) ∧
  (∀ p, p ∈ timers st -> (p.1 < nextTimer st)%positive).

(** The [style] element with the keyframes is in the head at most once. *)
Definition keyframes_once (st : State) : Prop :=
  head (document st) = [] ∨ head (document st) = ["highlight-keyframes"].

(** An overlay seen from outside: which object it is and its id. *)
Definition identity (o : Overlay) : nat * string := (node o, el_id o).

End Tracking.

(** ** The scan: what it records and what it draws *)
Module Scan.

Import Adv.

(** The walk over the elements [l] stored one record for each, under the
    next ids. *)
Definition recorded (st : State) (l : list Element) (st' : State) : Prop :=
  ID_current st' = ID_current st + length l ∧
  dom (DOM_HASH_MAP st') =
  dom (DOM_HASH_MAP st) ∪
  list_to_set (pretty <$> seq (ID_current st) (length l)).

(** The numbers shown by the labels in the container, in document order. *)
Definition labelText (c : ContainerChild) : option nat :=
  match c with
  | CLabel l => Some (lb_textContent l)
  | COverlay _ => None
  end.

Definition labelTexts (st : State) : list nat :=
  match container st with
  | Some children => omap labelText children
  | None => []
  end.

(** The two listeners that [highlightElement] registers for an element. *)
Definition listenersOf (e : Element) : list (string * nat) :=
  [("scroll", ref e); ("resize", ref e)].

(** The walk over the elements [l] drew a label for each element it gave
    an index, showing that index, and registered its listeners, when
    overlays can be drawn at all. *)
Definition drawn (B : Browser) (st : State) (l : list Element) (st' : State)
    : Prop :=
  let found := filter (λ e, highlightable B e = true) l in
  scanned B st l st' ∧
  labelTexts st' =
  labelTexts st ++
  (if can_draw B st then (number found (highlightIndex st)).*2 else []) ∧
  listeners st' =
  listeners st ++ (if can_draw B st then flat_map listenersOf found else []).

End Scan.

(** ** The advanced highlighter: [highlightAllText] *)
Module Text.

Import Adv.

Definition TEXT_NODE : nat := 3.

(** What [String.prototype.trim] strips, by UTF-16 code unit: the
    WhiteSpace and LineTerminator code points of ECMAScript. *)
Definition isSpace (c : N) : bool :=
  (((9 <=? c) && (c <=? 13))       (* TAB, LF, VT, FF, CR *)
   || (c =? 32)                    (* SPACE *)
   || (c =? 160)                   (* U+00A0 NO-BREAK SPACE *)
   || (c =? 5760)                  (* U+1680 *)
   || ((8192 <=? c) && (c <=? 8202)) (* U+2000 to U+200A *)
   || (c =? 8232) || (c =? 8233)   (* U+2028, U+2029 *)
   || (c =? 8239)                  (* U+202F *)
   || (c =? 8287)                  (* U+205F *)
   || (c =? 12288)                 (* U+3000 *)
   || (c =? 65279))%N.             (* U+FEFF *)

Fixpoint trimStart (s : list N) : list N :=
  match s with
  | [] => []
  | c :: s' => if isSpace c then trimStart s' else s
  end.

Definition trim (s : list N) : list N :=
  reverse (trimStart (reverse (trimStart s))).

(** The code units of a string of ASCII characters. *)
Fixpoint units (s : string) : list N :=
  match s with
  | EmptyString => []
  | String c s' => N_of_ascii c :: units s'
  end.

(** A node as [processTextNodes] sees it: its type and name, its text
    content as UTF-16 code units, whether it has a parent element, the
    rectangles that a range over its contents gives ([getClientRects]),
    and its child nodes. *)
#[local] Unset Elimination Schemes.
Inductive tnode : Type :=
| TNode (nodeType : nat) (nodeName : string) (textContent : list N)
        (parentElement : bool) (clientRects : list DOMRect)
        (childNodes : list tnode).
#[local] Set Elimination Schemes.

(** The box drawn for one rectangle, in the colour of the current index.
    (It is a [div] of the overlay container like the boxes of the scan;
    its z-index is not kept.) *)
Definition textBox (index : nat) (rect : DOMRect) : ContainerChild :=
  let colorIndex := index mod length COLORS in
  let baseColor := COLORS !!! colorIndex in
  let backgroundColor := baseColor +:+ "1A" in
  COverlay
    {| ov_border := baseColor; ov_backgroundColor := backgroundColor;
       ov_top := rect_top rect; ov_left := rect_left rect;
       ov_width := rect_width rect; ov_height := rect_height rect |}.

Definition positive (rect : DOMRect) : bool :=
  JS.ltb 0 (rect_width rect) && JS.ltb 0 (rect_height rect).

(** The body of the loop over [rects]: the box goes into the container
    element, which is in the document; the counter goes up. *)
Definition drawRect (st : State) (rect : DOMRect) : State :=
  if positive rect then
    set_highlightIndex (S (highlightIndex st))
      (set_container
         (match container st with
          | Some children => Some (children ++ [textBox (highlightIndex st) rect])
          | None => None
          end) st)
  else st.

Definition isText (ty : nat) (text : list N) : bool :=
  (ty =? TEXT_NODE)%nat && (0 <? length (trim text))%nat.

Definition skipped (name : string) : bool :=
  String.eqb name "SCRIPT" || String.eqb name "STYLE".

Fixpoint processTextNodes (n : tnode) (st : State) : State :=
  match n with
  | TNode ty name text parentElement rects children =>
    if skipped name then st
    else
      let st1 :=
        if isText ty text
        then if parentElement then foldl drawRect st rects else st
        else st in
      foldl (λ s child, processTextNodes child s) st1 children
  end.

Section WithPage.

Variable B : Browser.

(** [document.querySelector], giving the subtree with its text. *)
Variable querySelector : string -> option tnode.

(** [None] when the call throws: the container is created with
    [document.body.appendChild], outside any [try]. *)
Definition highlightAllText (parentSelector : string) (st : State)
    : option (nat * State) :=
  let st1 := reset (removeAllHighlights st) in
  match querySelector parentSelector with
  | None =>
    Some (0, log (ConsoleWarn ("Parent selector not found: " +:+ parentSelector))
                 st1)
  | Some parentElement =>
    let st2 :=
      log (ConsoleLog ("Highlighting all text within: " +:+ parentSelector)) st1 in
    match
      match container st2 with
      | Some _ => Some st2
      | None =>
        match document_body B with
        | Some _ => Some (set_container (Some []) st2)
        | None => None
        end
      end
    with
    | None => None
    | Some st3 =>
      let st4 := processTextNodes parentElement st3 in
      Some (highlightIndex st4, st4)
    end
  end.

End WithPage.

(** The rectangles that get a box, in the order of the walk. *)
Fixpoint boxes (n : tnode) : list DOMRect :=
  match n with
  | TNode ty name text parentElement rects children =>
    if skipped name then []
    else
      (if isText ty text && parentElement
       then filter (λ r, positive r = true) rects else []) ++
      flat_map boxes children
  end.

(** The boxes for the rectangles [l], in the colours from [index] on. *)
Fixpoint paint (l : list DOMRect) (index : nat) : list ContainerChild :=
  match l with
  | [] => []
  | r :: l' => textBox index r :: paint l' (S index)
  end.

(** A stretch of the walk that put boxes for the rectangles [l] into the
    container. *)
Definition painted (st : State) (l : list DOMRect) (st' : State) : Prop :=
  highlightIndex st' = highlightIndex st + length l ∧
  ∀ children, container st = Some children ->
    container st' = Some (children ++ paint l (highlightIndex st)).

(** Induction over a subtree. *)
Section TNodeInd.

Variable P : tnode -> Prop.

Hypothesis P_TNode : ∀ ty name text parentElement rects children,
  Forall P children -> P (TNode ty name text parentElement rects children).

Fixpoint tnode_ind (n : tnode) : P n :=
  match n with
  | TNode ty name text parentElement rects children =>
    P_TNode ty name text parentElement rects children
      ((fix all (l : list tnode) : Forall P l :=
          match l with
          | [] => @List.Forall_nil tnode P
          | x :: l' => @List.Forall_cons tnode P x l' (tnode_ind x) (all l')
          end) children)
  end.

End TNodeInd.

End Text.

(** ** The photo display: the [onload] handler of the image *)
Module Landmarks.

Import Photo.

(** A landmark [[x, y]]. *)
Definition Point : Type := Q * Q.

(** The calls on the 2D context that leave a mark. *)
Inductive CanvasOp : Type :=
| BeginPath
| Arc (x y radius : Q)
| Fill
| MoveTo (x y : Q)
| LineTo (x y : Q)
| Stroke.

(** What the handler appends to the wrapper of the image. *)
Inductive WrapperChild : Type :=
| Canvas (ops : list CanvasOp)
| MetricsOverlay (innerHTML : string).

(** [landmarks && landmarks.length > 0 && originalWidth && originalHeight] *)
Definition drawing (landmarks : option (list Point))
    (originalWidth originalHeight : option Q) : bool :=
  match landmarks with
  | Some l => (0 <? length l)%nat
  | None => false
  end && JS.truthy_number originalWidth && JS.truthy_number originalHeight.

Definition scaled (scaleX scaleY : Q) (point : Point) : Point :=
  ((point.1 * scaleX)%Q, (point.2 * scaleY)%Q).

Definition dot (point : Point) : list CanvasOp :=
  [BeginPath; Arc point.1 point.2 2; Fill].

(** [None] when the call throws: an index outside the array gives
    [undefined], and reading [[0]] of it is a [TypeError]. *)
Definition connectPoints (scaledLandmarks : list Point) (indices : list nat)
    : option (list CanvasOp) :=
  match indices with
  | [] => None
  | first :: rest =>
    p ← scaledLandmarks !! first;
    ps ← mapM (λ i, scaledLandmarks !! i) rest;
    Some ([BeginPath; MoveTo p.1 p.2] ++ ((λ q, LineTo q.1 q.2) <$> ps) ++ [Stroke])
  end.

(** Jaw line, eyebrows, nose bridge, lower nose, eyes, outer and inner
    lip. *)
Definition groups : list (list nat) :=
  [ [0; 1; 2; 3; 4; 5; 6; 7; 8; 9; 10; 11; 12; 13; 14; 15; 16];
    [17; 18; 19; 20; 21];
    [22; 23; 24; 25; 26];
    [27; 28; 29; 30];
    [30; 31; 32; 33; 34; 35; 30];
    [36; 37; 38; 39; 40; 41; 36];
    [42; 43; 44; 45; 46; 47; 42];
    [48; 49; 50; 51; 52; 53; 54; 55; 56; 57; 58; 59; 48];
    [60; 61; 62; 63; 64; 65; 66; 67; 60] ].

(** The drawing on the canvas, for an image shown [width] by [height]. *)
Definition canvas (width height : Q) (landmarks : list Point)
    (originalWidth originalHeight : Q) : option (list CanvasOp) :=
  let scaleX := (width / originalWidth)%Q in
  let scaleY := (height / originalHeight)%Q in
  let scaledLandmarks := scaled scaleX scaleY <$> landmarks in
  lines ← mapM (connectPoints scaledLandmarks) groups;
  Some (flat_map dot scaledLandmarks ++ concat lines).

(** The centres of the dots of a drawing. *)
Definition arcs (ops : list CanvasOp) : list Point :=
  omap (λ op, match op with Arc x y _ => Some (x, y) | _ => None end) ops.

(** The number of lines of a drawing. *)
Definition strokes (ops : list CanvasOp) : nat :=
  length (omap (λ op, match op with Stroke => Some () | _ => None end) ops).

Section WithNumbers.

Variable Number_toString : Q -> string.

(** [img.onload]: what it appends to the wrapper, or [None] when it
    throws; the canvas is appended after the drawing, so that a handler
    that throws has appended nothing. *)
Definition onload (width height : Q) (landmarks : option (list Point))
    (attractivenessScore : option Q) (metrics : option Metrics)
    (originalWidth originalHeight : option Q) : option (list WrapperChild) :=
  drawn ←
    (if drawing landmarks originalWidth originalHeight then
       ops ← canvas width height (default [] landmarks)
               (default 0%Q originalWidth) (default 0%Q originalHeight);
       Some [Canvas ops]
     else Some []);
  Some (drawn ++
        [MetricsOverlay (metricsHtml Number_toString attractivenessScore metrics)]).

End WithNumbers.

End Landmarks.

(** ** The full-page panels: research display, loading indicator, photo
       display *)
Module Panels.

(** What a child of [document.body] is: an element of the page, with
    its [id] attribute, or one of the panels. *)
Inductive Content : Type :=
| PageElement (id : string)
| ResearchPanel (children : list Research.PanelChild)
| LoadingPanel (message : string)
| PhotoPanel (url : string).

(** A child of [document.body]: the identity of the node, and what it
    is. *)
Record Node : Type := mkNode {
  uid : nat;
  content : Content
}.

(** The [id] attribute: a panel keeps the one it is created with. *)
Definition elementId (n : Node) : string :=
  match content n with
  | PageElement i => i
  | ResearchPanel _ => "research-display-container"
  | LoadingPanel _ => "loading-indicator-container"
  | PhotoPanel _ => "photo-display-container"
  end.

(** [body] is the list of the children of [document.body], or [None] in a
    document without a body; [styles] counts the [style] elements in the
    head; [displayContainer] and [loadingContainer] are the properties of
    [window.researchDisplay] and [window.loadingIndicator], holding a
    node by its identity; [nextNode] is the identity of the next node
    that [createElement] gives.  Elements that have an [id] are looked
    for among the children of the body. *)
Record State : Type := mkState {
  body : option (list Node);
  styles : nat;
  displayContainer : option nat;
  loadingContainer : option nat;
  nextNode : nat
}.

Definition initial : State := mkState (Some []) 0 None None 0.

Definition set_body (b : option (list Node)) (st : State) : State :=
  mkState b (styles st) (displayContainer st) (loadingContainer st) (nextNode st).
Definition set_styles (n : nat) (st : State) : State :=
  mkState (body st) n (displayContainer st) (loadingContainer st) (nextNode st).
Definition set_displayContainer (c : option nat) (st : State) : State :=
  mkState (body st) (styles st) c (loadingContainer st) (nextNode st).
Definition set_loadingContainer (c : option nat) (st : State) : State :=
  mkState (body st) (styles st) (displayContainer st) c (nextNode st).
Definition set_nextNode (n : nat) (st : State) : State :=
  mkState (body st) (styles st) (displayContainer st) (loadingContainer st) n.

(** A call returns, or throws and leaves the state it had reached. *)
Inductive Result : Type :=
| Returns (st : State)
| Throws (st : State).

Definition andThen (r : Result) (k : State -> Result) : Result :=
  match r with
  | Returns st => k st
  | Throws st => Throws st
  end.

(** [document.body.removeChild(node)]: a [TypeError] without a body, a
    [NotFoundError] when the node is not a child of the body. *)
Definition removeChild (c : nat) (st : State) : Result :=
  match body st with
  | Some children =>
    if bool_decide (c ∈ uid <$> children)
    then Returns (set_body (Some (filter (λ n, uid n ≠ c) children)) st)
    else Throws st
  | None => Throws st
  end.

(** [document.body.appendChild(node)], for a node that has no parent. *)
Definition appendChild (n : Node) (st : State) : Result :=
  match body st with
  | Some children => Returns (set_body (Some (children ++ [n])) st)
  | None => Throws st
  end.

(** [node.remove()]. *)
Definition remove (c : nat) (st : State) : State :=
  set_body (filter (λ n, uid n ≠ c) <$> body st) st.

Definition getElementById (i : string) (st : State) : option Node :=
  match body st with
  | Some children => head (filter (λ n, elementId n = i) children)
  | None => None
  end.

(** *** [window.researchDisplay] *)

Definition removeResearchDisplay (st : State) : Result :=
  match displayContainer st with
  | Some c =>
    andThen (removeChild c st) (λ st1, Returns (set_displayContainer None st1))
  | None => Returns st
  end.

(** The container is created with the children that [displayResearch]
    goes on to append to it. *)
Definition createDisplayContainer (children : list Research.PanelChild)
    (st : State) : Result :=
  andThen (removeResearchDisplay st) (λ st1,
    let container :=
      mkNode (nextNode st1) (ResearchPanel children) in
    andThen (appendChild container (set_nextNode (S (nextNode st1)) st1))
      (λ st2, Returns (set_displayContainer (Some (uid container)) st2))).

Definition displayResearch (data : Research.ResearchResult) (st : State) : Result :=
  createDisplayContainer (Research.displayResearch data) st.

(** *** [window.loadingIndicator] *)

Definition hide (st : State) : Result :=
  match loadingContainer st with
  | Some c =>
    andThen (removeChild c st) (λ st1, Returns (set_loadingContainer None st1))
  | None => Returns st
  end.

(** [message] is [None] when the argument is left out. *)
Definition show (message : option string) (st : State) : Result :=
  andThen (hide st) (λ st1,
    let container :=
      mkNode (nextNode st1) (LoadingPanel (default "Loading..." message)) in
    let st2 := set_styles (S (styles st1)) (set_nextNode (S (nextNode st1)) st1) in
    andThen (appendChild container st2)
      (λ st3, Returns (set_loadingContainer (Some (uid container)) st3))).

(** *** [window.photoDisplay] *)

Definition removePhotoDisplay (st : State) : State :=
  match getElementById "photo-display-container" st with
  | Some container => remove (uid container) st
  | None => st
  end.

Definition displayPhoto (url : string) (st : State) : Result :=
  let st1 := removePhotoDisplay st in
  let container :=
    mkNode (nextNode st1) (PhotoPanel url) in
  appendChild container (set_nextNode (S (nextNode st1)) st1).

(** The [click] listener of a photo container: a click on the node [c]
    removes it when it is one. *)
Definition click (c : nat) (st : State) : State :=
  match body st with
  | Some children =>
    match list_find (λ n, uid n = c) children with
    | Some (_, mkNode _ (PhotoPanel _)) => remove c st
    | _ => st
    end
  | None => st
  end.

(** *** Sequences of calls *)

Inductive Call : Type :=
| DisplayResearch (data : Research.ResearchResult)
| RemoveResearchDisplay
| Show (message : option string)
| Hide
| DisplayPhoto (url : string)
| RemovePhotoDisplay
| Click (c : nat).

Definition call (c : Call) (st : State) : Result :=
  match c with
  | DisplayResearch data => displayResearch data st
  | RemoveResearchDisplay => removeResearchDisplay st
  | Show message => show message st
  | Hide => hide st
  | DisplayPhoto url => displayPhoto url st
  | RemovePhotoDisplay => Returns (removePhotoDisplay st)
  | Click c => Returns (click c st)
  end.

(** The calls one after the other, up to the first that throws. *)
Fixpoint run (calls : list Call) (st : State) : Result :=
  match calls with
  | [] => Returns st
  | c :: calls' => andThen (call c st) (run calls')
  end.

Definition isResearch (n : Node) : bool :=
  match content n with ResearchPanel _ => true | _ => false end.

Definition isLoading (n : Node) : bool :=
  match content n with LoadingPanel _ => true | _ => false end.

Definition isShow (c : Call) : bool :=
  match c with Show _ => true | _ => false end.

Definition children (st : State) : list Node := default [] (body st).

(** The identities of the children of the body that are panels of one
    kind. *)
Definition held (kind : Node -> bool) (st : State) : list nat :=
  uid <$> filter (λ n, kind n = true) (children st).

(** The document has a body, its nodes are told apart by their
    identities, which [createElement] has not yet given again, and the
    research and loading panels in it are the ones that the two objects
    hold. *)
Definition tidy (st : State) : Prop :=
  is_Some (body st) ∧
  NoDup (uid <$> children st) ∧
  (∀ n, n ∈ children st -> uid n < nextNode st) ∧
  held isResearch st = option_list (displayContainer st) ∧
  held isLoading st = option_list (loadingContainer st).

End Panels.

(** ** More samples *)
Module Samples.

Import Adv Text.

(** [<p id="p">Hello <script>x</script><b>world</b> &nbsp;</p>]: two
    runs of text with one line box each (and an empty rectangle), a
    script, a blank text node and a text node of one no-break space. *)
Definition paragraph : tnode :=
  TNode 1 "P" (units "Hello xworld " ++ [160%N]) true []
    [ TNode 3 "#text" (units "Hello ") true [mkRect 0 0 40 16] [];
      TNode 1 "SCRIPT" (units "x") true []
        [TNode 3 "#text" (units "x") true [mkRect 0 0 8 16] []];
      TNode 1 "B" (units "world") true []
        [TNode 3 "#text" (units "world") true
           [mkRect 40 0 38 16; mkRect 0 16 0 16] []];
      TNode 3 "#text" (units " ") true [mkRect 78 0 4 16] [];
      TNode 3 "#text" [160%N] true [mkRect 82 0 4 16] [] ].

Definition paragraphs (selector : string) : option tnode :=
  if String.eqb selector "#p" then Some paragraph else None.

Import Panels.

Definition panel_calls : list Call :=
  [ Show None; DisplayResearch (Research.mkResult (Some "Ada") None None);
    DisplayPhoto "a.jpg"; Show (Some "Searching..."); Click 2;
    DisplayResearch (Research.mkResult None None None); Hide;
    RemoveResearchDisplay; RemovePhotoDisplay ].

(** The two objects hold the nodes 0 and 1, which are not in the body any
    more. *)
Definition detached : State := mkState (Some []) 1 (Some 0) (Some 1) 2.

(** A photo is on show. *)
Definition with_photo : State :=
  mkState (Some [mkNode 0 (PhotoPanel "a.jpg")]) 0 None None 1.

End Samples.

(** * Properties of the basic highlighter *)
Section BasicFacts.

Import Basic.

Variable querySelector : Document -> string -> option DOMRect.

Local Abbreviation highlight := (Basic.highlight querySelector).

(** Storing the timer in an entry leaves the ids as they are. *)
Lemma ids_alter_timer (t : option positive) (i : nat) (l : list HighlightEntry) :
  h_id <$> alter (λ h, mkEntry (h_id h) (h_element h) (h_selector h) t) i l
  = h_id <$> l.
Proof.
  revert i. induction l as [|h l IH]; intros [|i]; simpl; try reflexivity.
  f_equal. apply IH.
Qed.

(** A successful [highlight] appends exactly one entry, with the id of the
    merged configuration. *)
Lemma highlight_ids selector options rnd st rect :
  querySelector (document st) selector = Some rect ->
  ids (highlight selector options rnd st).2
  = ids st ++ [id (merge (defaults rnd) options)].
Proof.
  intros Hq. unfold Basic.highlight, ids. rewrite Hq.
  destruct (JS.ltb 0 (duration (merge (defaults rnd) options))); simpl.
  - destruct (list_find _ _) as [[i ?]|]; simpl.
    + rewrite ids_alter_timer, fmap_app. reflexivity.
    + rewrite fmap_app. reflexivity.
  - rewrite fmap_app. reflexivity.
Qed.

Lemma highlight_result selector options rnd st rect :
  querySelector (document st) selector = Some rect ->
  (highlight selector options rnd st).1 = Some (id (merge (defaults rnd) options)).
Proof.
  intros Hq. unfold Basic.highlight. rewrite Hq.
  destruct (JS.ltb 0 _); reflexivity.
Qed.

Lemma highlight_absent selector options rnd st :
  querySelector (document st) selector = None ->
  highlight selector options rnd st = (None, st).
Proof. intros Hq. unfold Basic.highlight. rewrite Hq. reflexivity. Qed.

(** [removeHighlight] only ever drops an entry. *)
Lemma removeHighlight_sublist i st :
  ids (removeHighlight i st).2 `sublist_of` ids st.
Proof.
  unfold Basic.removeHighlight, ids.
  destruct (list_find _ _) as [[index h]|]; simpl; [|reflexivity].
  rewrite list_fmap_delete. apply sublist_delete.
Qed.

Lemma removeAll_fold_sublist (l : list string) st :
  ids (foldl (λ s i, (removeHighlight i s).2) st l) `sublist_of` ids st.
Proof.
  revert st. induction l as [|i l IH]; intros st; simpl; [reflexivity|].
  etrans; [apply IH|apply removeHighlight_sublist].
Qed.

Lemma updateHighlightPosition_highlights i st :
  highlights (updateHighlightPosition querySelector i st).2 = highlights st.
Proof.
  unfold updateHighlightPosition.
  destruct (list_find _ _) as [[? h]|]; simpl; [|reflexivity].
  destruct (querySelector _ _); reflexivity.
Qed.

Lemma updateAll_fold_highlights (l : list HighlightEntry) st :
  highlights (foldl (λ s h, (updateHighlightPosition querySelector (h_id h) s).2) st l)
  = highlights st.
Proof.
  revert st. induction l as [|h l IH]; intros st; simpl; [reflexivity|].
  rewrite IH. apply updateHighlightPosition_highlights.
Qed.

Lemma timeout_sublist t st :
  ids (timeout t st) `sublist_of` ids st.
Proof.
  unfold timeout.
  destruct (list_find _ _) as [[? [? i]]|]; [|reflexivity].
  apply (removeHighlight_sublist i (mkState _ _ _ _ _)).
Qed.

(** One event keeps the ids pairwise distinct when the id of a new entry
    is not tracked yet. *)
Lemma step_NoDup st c :
  NoDup (ids st) ->
  match c with
  | CallHighlight selector options rnd =>
      is_Some (querySelector (document st) selector) ->
      id (merge (defaults rnd) options) ∉ ids st
  | _ => True
  end ->
  NoDup (ids (step querySelector st c)).
Proof.
  intros Hnd Hfresh. destruct c as [selector options rnd|i| |i| |t]; simpl.
  - destruct (querySelector (document st) selector) as [rect|] eqn:Hq.
    + rewrite (highlight_ids _ _ _ _ _ Hq).
      apply NoDup_app. split; [exact Hnd|]. split.
      * intros x Hx Hin. apply list_elem_of_singleton in Hin. subst x.
        apply Hfresh; [eexists; reflexivity|exact Hx].
      * apply NoDup_singleton.
    + rewrite highlight_absent by exact Hq. exact Hnd.
  - eapply sublist_NoDup; [exact Hnd|apply removeHighlight_sublist].
  - eapply sublist_NoDup; [exact Hnd|apply removeAll_fold_sublist].
  - unfold ids. rewrite updateHighlightPosition_highlights. exact Hnd.
  - unfold ids, updateAllHighlightPositions. simpl.
    rewrite updateAll_fold_highlights. exact Hnd.
  - eapply sublist_NoDup; [exact Hnd|apply timeout_sublist].
Qed.

(** **** Removing everything *)

Lemma removeHighlight_first h hs st :
  highlights st = h :: hs ->
  removeHighlight (h_id h) st =
  (true,
   {| highlights := hs;
      document := mkDocument (head (document st))
                             (removeChild (h_element h) (body (document st)));
      timers := match h_timer h with
                | Some t => clearTimeout t (timers st)
                | None => timers st
                end;
      nextNode := nextNode st;
      nextTimer := nextTimer st |}).
Proof.
  intros Hh. unfold removeHighlight. rewrite Hh. simpl.
  rewrite decide_True by reflexivity. reflexivity.
Qed.

(** The loop of [removeAllHighlights], run on the ids of the tracked
    entries themselves: each call finds the entry at the front. *)
Lemma removeAll_fold hs : ∀ st,
  highlights st = hs ->
  let st' := foldl (λ s i, (removeHighlight i s).2) st (h_id <$> hs) in
  highlights st' = [] ∧
  (∀ o, o ∈ body (document st') ->
        o ∈ body (document st) ∧ node o ∉ h_element <$> hs) ∧
  (∀ p, p ∈ timers st' ->
        p ∈ timers st ∧ ∀ h, h ∈ hs -> h_timer h ≠ Some p.1).
Proof.
  induction hs as [|h hs IH]; intros st Hh; simpl.
  - split; [exact Hh|]. split.
    + intros o Ho. split; [exact Ho|]. apply not_elem_of_nil.
    + intros p Hp. split; [exact Hp|]. intros h Hin.
      apply elem_of_nil in Hin. destruct Hin.
  - rewrite (removeHighlight_first h hs st Hh). simpl.
    match goal with
    | |- context [foldl _ ?s _] => destruct (IH s eq_refl) as (H1 & H2 & H3)
    end.
    split; [exact H1|]. split.
    + intros o Ho. destruct (H2 o Ho) as [Hin Hnot]. simpl in Hin.
      unfold removeChild in Hin. apply list_elem_of_filter in Hin.
      destruct Hin as [Hne Hin]. split; [exact Hin|].
      intros Hx. apply elem_of_cons in Hx. destruct Hx as [Hx|Hx]; auto.
    + intros p Hp. destruct (H3 p Hp) as [Hin Hnot]. simpl in Hin.
      assert (p ∈ timers st ∧ h_timer h ≠ Some p.1) as [Hin2 Hh2].
      { destruct (h_timer h) as [t|]; [|split; [exact Hin|discriminate]].
        unfold clearTimeout in Hin. apply list_elem_of_filter in Hin.
        destruct Hin as [Hne Hin]. split; [exact Hin|]. congruence. }
      split; [exact Hin2|]. intros h2 Hx.
      apply elem_of_cons in Hx. destruct Hx as [->|Hx]; auto.
Qed.

Lemma highlightMany_length calls : ∀ st,
  Forall is_Some (highlightMany querySelector calls st).1 ->
  length (highlights (highlightMany querySelector calls st).2)
  = length (highlights st) + length calls.
Proof.
  induction calls as [|[[selector options] rnd] calls IH]; intros st Hall; simpl.
  - lia.
  - simpl in Hall. apply Forall_cons in Hall. destruct Hall as [Hs Hall].
    rewrite (IH _ Hall).
    destruct (querySelector (document st) selector) as [rect|] eqn:Hq.
    + pose proof (highlight_ids selector options rnd st rect Hq) as Hi.
      apply (f_equal length) in Hi. unfold ids in Hi.
      rewrite length_app, !length_fmap in Hi. simpl in Hi. lia.
    + rewrite (highlight_absent _ _ _ _ Hq) in Hs. simpl in Hs.
      destruct Hs as [? Hs]. discriminate Hs.
Qed.

(** **** What is in the document and what is pending *)

Lemma list_find_fresh (i : string) (hs : list HighlightEntry) (new : HighlightEntry) :
  i ∉ h_id <$> hs -> h_id new = i ->
  list_find (λ h, h_id h = i) (hs ++ [new]) = Some (length hs, new).
Proof.
  intros Hfresh Hnew. induction hs as [|h hs IH]; simpl.
  - rewrite decide_True by exact Hnew. reflexivity.
  - rewrite fmap_cons in Hfresh. apply not_elem_of_cons in Hfresh.
    destruct Hfresh as [Hne Hfresh].
    rewrite decide_False by congruence. rewrite (IH Hfresh). reflexivity.
Qed.

Lemma elem_of_alter_timer (t : option positive) (i : nat)
    (l : list HighlightEntry) (h : HighlightEntry) :
  h ∈ l ->
  ∃ h', h' ∈ alter (λ h, mkEntry (h_id h) (h_element h) (h_selector h) t) i l ∧
        h_element h' = h_element h.
Proof.
  revert i. induction l as [|x l IH]; intros i Hin.
  - apply elem_of_nil in Hin. destruct Hin.
  - apply elem_of_cons in Hin. destruct i as [|i]; simpl.
    + destruct Hin as [->|Hin].
      * eexists. split; [apply list_elem_of_here|reflexivity].
      * exists h. split; [apply list_elem_of_further, Hin|reflexivity].
    + destruct Hin as [->|Hin].
      * exists x. split; [apply list_elem_of_here|reflexivity].
      * destruct (IH i Hin) as (h' & Hin' & He).
        exists h'. split; [apply list_elem_of_further, Hin'|exact He].
Qed.

Lemma highlight_overlays_tracked selector options rnd st :
  overlays_tracked st ->
  overlays_tracked (highlight selector options rnd st).2.
Proof.
  intros Htr. unfold Basic.highlight.
  destruct (querySelector (document st) selector) as [rect|]; [|exact Htr].
  set (config := merge (defaults rnd) options).
  set (new := mkEntry (id config) (nextNode st) selector None).
  assert (∀ hs' : list HighlightEntry,
            (∀ h, h ∈ highlights st ++ [new] ->
                  ∃ h', h' ∈ hs' ∧ h_element h' = h_element h) ->
            ∀ o, o ∈ body (document st) ++
                     [mkOverlay (nextNode st) (id config) rect
                        (borderWidth config, color config)
                        (color config, fillOpacity config)
                        (zIndex config) (pulseEffect config)] ->
                 ∃ h, h ∈ hs' ∧ h_element h = node o) as Hgen.
  { intros hs' Hhs o Ho. apply elem_of_app in Ho. destruct Ho as [Ho|Ho].
    - destruct (Htr o Ho) as (h & Hh & He).
      destruct (Hhs h) as (h' & Hh' & He'); [apply elem_of_app; left; exact Hh|].
      exists h'. split; [exact Hh'|congruence].
    - apply list_elem_of_singleton in Ho. subst o.
      destruct (Hhs new) as (h' & Hh' & He');
        [apply elem_of_app; right; apply list_elem_of_here|].
      exists h'. split; [exact Hh'|exact He']. }
  destruct (JS.ltb 0 (duration config)); cbn [snd].
  - intros o Ho. cbn in Ho. cbn [highlights]. revert o Ho. apply Hgen.
    intros h Hh. destruct (list_find _ _) as [[i ?]|].
    + apply elem_of_alter_timer, Hh.
    + exists h. split; [exact Hh|reflexivity].
  - intros o Ho. cbn in Ho. cbn [highlights]. revert o Ho. apply Hgen.
    intros h Hh. exists h. split; [exact Hh|reflexivity].
Qed.

Lemma highlight_timers_held selector options rnd st :
  timers_held st ->
  id (merge (defaults rnd) options) ∉ ids st ->
  timers_held (highlight selector options rnd st).2.
Proof.
  intros Hheld Hfresh. unfold Basic.highlight.
  destruct (querySelector (document st) selector) as [rect|]; [|exact Hheld].
  set (config := merge (defaults rnd) options) in *.
  destruct (JS.ltb 0 (duration config)); cbn [snd].
  - rewrite (list_find_fresh (id config) (highlights st)
               (mkEntry (id config) (nextNode st) selector None) Hfresh eq_refl).
    replace (length (highlights st)) with (length (highlights st) + 0) by lia.
    rewrite alter_app_r. cbn [alter list_alter].
    intros p Hp. cbn in Hp. cbn [highlights].
    apply elem_of_app in Hp. destruct Hp as [Hp|Hp].
    + destruct (Hheld p Hp) as (h & Hh & Ht).
      exists h. split; [apply elem_of_app; left; exact Hh|exact Ht].
    + apply list_elem_of_singleton in Hp. subst p.
      eexists. split; [apply elem_of_app; right; apply list_elem_of_here|].
      reflexivity.
  - intros p Hp. cbn in Hp. cbn [highlights].
    destruct (Hheld p Hp) as (h & Hh & Ht).
    exists h. split; [apply elem_of_app; left; exact Hh|exact Ht].
Qed.

Lemma highlightMany_ids calls : ∀ st,
  ∃ rest, ids (highlightMany querySelector calls st).2 = ids st ++ rest.
Proof.
  induction calls as [|[[selector options] rnd] calls IH]; intros st; simpl.
  - exists []. rewrite app_nil_r. reflexivity.
  - destruct (IH (highlight selector options rnd st).2) as [rest Hrest].
    rewrite Hrest.
    destruct (querySelector (document st) selector) as [rect|] eqn:Hq.
    + rewrite (highlight_ids _ _ _ _ _ Hq), <- app_assoc. eexists. reflexivity.
    + rewrite (highlight_absent _ _ _ _ Hq). eexists. reflexivity.
Qed.

Lemma highlightMany_overlays_tracked calls : ∀ st,
  overlays_tracked st -> overlays_tracked (highlightMany querySelector calls st).2.
Proof.
  induction calls as [|[[selector options] rnd] calls IH]; intros st H; simpl.
  - exact H.
  - apply IH, highlight_overlays_tracked, H.
Qed.

Lemma highlightMany_timers_held calls : ∀ st,
  timers_held st ->
  NoDup (ids (highlightMany querySelector calls st).2) ->
  timers_held (highlightMany querySelector calls st).2.
Proof.
  induction calls as [|[[selector options] rnd] calls IH]; intros st H Hnd; simpl.
  - exact H.
  - simpl in Hnd. apply IH; [|exact Hnd].
    destruct (highlightMany_ids calls (highlight selector options rnd st).2)
      as [rest Hrest].
    rewrite Hrest in Hnd. apply NoDup_app in Hnd. destruct Hnd as [Hnd _].
    destruct (querySelector (document st) selector) as [rect|] eqn:Hq.
    + apply highlight_timers_held; [exact H|].
      rewrite (highlight_ids _ _ _ _ _ Hq) in Hnd.
      apply NoDup_app in Hnd. destruct Hnd as (_ & Hdis & _).
      intros Hin. apply (Hdis _ Hin). apply list_elem_of_here.
    + rewrite (highlight_absent _ _ _ _ Hq). exact H.
Qed.

(** [removeAllHighlights] leaves nothing behind when everything in the
    document and everything pending belonged to a tracked entry. *)
Lemma removeAll_clean st :
  (overlays_tracked st -> body (document (removeAllHighlights st).2) = []) ∧
  (timers_held st -> timers (removeAllHighlights st).2 = []).
Proof.
  destruct (removeAll_fold (highlights st) st eq_refl) as (_ & H2 & H3).
  unfold removeAllHighlights. cbn [snd]. split.
  - intros Htr. apply elem_of_nil_inv. intros o Ho.
    destruct (H2 o Ho) as [Hin Hnot]. destruct (Htr o Hin) as (h & Hh & He).
    apply Hnot. rewrite <- He. apply list_elem_of_fmap.
    exists h. split; [reflexivity|exact Hh].
  - intros Hheld. apply elem_of_nil_inv. intros p Hp.
    destruct (H3 p Hp) as [Hin Hnot]. destruct (Hheld p Hin) as (h & Hh & Ht).
    exact (Hnot h Hh Ht).
Qed.

End BasicFacts.

(** C8.  [highlight] with a selector that matches no element returns nothing
    and leaves the whole state as it was: no overlay is added to the
    document and no entry to the tracked collection. *)
Theorem highlight_no_match
    (querySelector : Basic.Document -> string -> option DOMRect)
    (selector : string) (options : Basic.Options) (rnd : string)
    (st : Basic.State) :
  querySelector (Basic.document st) selector = None ->
  Basic.highlight querySelector selector options rnd st = (None, st).
Proof. apply highlight_absent. Qed.

Lemma highlight_no_match_witness :
  (λ _ _, None) (Basic.document Basic.initial) "#missing" = @None DOMRect ∧
  Basic.highlight (λ _ _, None) "#missing" Basic.noOptions "k3f9x0a1b"
                  Basic.initial = (None, Basic.initial).
Proof.
  split; [reflexivity|].
  apply (highlight_no_match (λ _ _, None) "#missing" Basic.noOptions
                            "k3f9x0a1b" Basic.initial).
  reflexivity.
Defined.

(** C6, as amended.  Starting from pairwise distinct ids, the ids of the
    tracked entries stay pairwise distinct through every sequence of calls
    and timer expiries in which each [highlight] call that resolves its
    selector uses an id, given or generated, that is not tracked at that
    moment. *)
Theorem ids_unique_when_fresh
    (querySelector : Basic.Document -> string -> option DOMRect)
    (cs : list Basic.Call) (st : Basic.State) :
  NoDup (Basic.ids st) ->
  Basic.fresh_ids querySelector st cs ->
  NoDup (Basic.ids (Basic.run querySelector st cs)).
Proof.
  revert st. induction cs as [|c cs IH]; intros st Hnd Hfresh; simpl.
  - exact Hnd.
  - destruct Hfresh as [Hc Hrest]. apply IH; [|exact Hrest].
    apply step_NoDup; [exact Hnd|]. destruct c; auto.
Qed.

Lemma ids_unique_when_fresh_witness :
  NoDup (Basic.ids Basic.initial) ∧
  Basic.fresh_ids Sample.everywhere Basic.initial Sample.fresh_calls ∧
  NoDup (Basic.ids (Basic.run Sample.everywhere Basic.initial Sample.fresh_calls)).
Proof.
  assert (NoDup (Basic.ids Basic.initial)) as H0 by apply NoDup_nil_2.
  assert (Basic.fresh_ids Sample.everywhere Basic.initial Sample.fresh_calls) as H1.
  { simpl. repeat split; intros _; vm_compute;
      intros H; repeat (apply elem_of_cons in H; destruct H as [H|H]; [discriminate H|]);
      apply elem_of_nil in H; exact H. }
  split; [exact H0|]. split; [exact H1|].
  exact (ids_unique_when_fresh Sample.everywhere Sample.fresh_calls Basic.initial H0 H1).
Defined.

(** C6, the claim as stated fails: two [highlight] calls that pass the same
    explicit id leave two tracked entries with that id. *)
Lemma ids_not_unique_counterexample :
  ¬ NoDup (Basic.ids
             (Basic.run Sample.everywhere Basic.initial
                [Basic.CallHighlight "a" (Sample.explicit "x") "r1";
                 Basic.CallHighlight "a" (Sample.explicit "x") "r2"])).
Proof.
  vm_compute. intros H. apply NoDup_cons in H. destruct H as [H _].
  apply H. apply list_elem_of_here.
Qed.

(** C9, amended.  After [N] calls of [highlight] that all succeeded,
    starting from the state of a freshly loaded script,
    [removeAllHighlights] returns [N] and leaves no tracked entry and no
    overlay in the document, and the timer stored in any entry that was
    tracked is no longer pending.  Every pending timer is cancelled when
    the ids of the entries were pairwise distinct; this condition cannot be
    left out. *)
Theorem removeAllHighlights_after_highlights
    (querySelector : Basic.Document -> string -> option DOMRect)
    (calls : list (string * Basic.Options * string)) :
  Forall is_Some (Basic.highlightMany querySelector calls Basic.initial).1 ->
  (Basic.removeAllHighlights
     (Basic.highlightMany querySelector calls Basic.initial).2).1
  = length calls ∧
  Basic.highlights
    (Basic.removeAllHighlights
       (Basic.highlightMany querySelector calls Basic.initial).2).2 = [] ∧
  Basic.body
    (Basic.document
       (Basic.removeAllHighlights
          (Basic.highlightMany querySelector calls Basic.initial).2).2) = [] ∧
  (∀ h t,
     h ∈ Basic.highlights (Basic.highlightMany querySelector calls Basic.initial).2 ->
     Basic.h_timer h = Some t ->
     t ∉ (Basic.timers
            (Basic.removeAllHighlights
               (Basic.highlightMany querySelector calls Basic.initial).2).2).*1) ∧
  (NoDup (Basic.ids (Basic.highlightMany querySelector calls Basic.initial).2) ->
   Basic.timers
     (Basic.removeAllHighlights
        (Basic.highlightMany querySelector calls Basic.initial).2).2 = []).
Proof.
  intros Hall.
  pose proof (highlightMany_length querySelector calls Basic.initial Hall) as Hlen.
  assert (Basic.overlays_tracked Basic.initial) as Ho0.
  { intros o Ho. apply elem_of_nil in Ho. destruct Ho. }
  assert (Basic.timers_held Basic.initial) as Ht0.
  { intros p Hp. apply elem_of_nil in Hp. destruct Hp. }
  pose proof (highlightMany_overlays_tracked querySelector calls _ Ho0) as Ho.
  pose proof (highlightMany_timers_held querySelector calls _ Ht0) as Ht.
  set (st := (Basic.highlightMany querySelector calls Basic.initial).2) in *.
  destruct (removeAll_fold (Basic.highlights st) st eq_refl) as (H1 & _ & H3).
  destruct (removeAll_clean st) as [Hbody Htimers].
  split; [unfold Basic.removeAllHighlights; cbn [fst]; rewrite length_fmap; exact Hlen|].
  split; [exact H1|]. split; [exact (Hbody Ho)|]. split.
  - intros h t Hh Htm Hin. apply list_elem_of_fmap in Hin.
    destruct Hin as (p & Hp & Hin).
    destruct (H3 p Hin) as [_ Hnot]. apply (Hnot h Hh). congruence.
  - intros Hnd. exact (Htimers (Ht Hnd)).
Qed.

Lemma removeAllHighlights_after_highlights_witness :
  Forall is_Some
    (Basic.highlightMany Sample.everywhere Sample.three_calls Basic.initial).1 ∧
  (Basic.removeAllHighlights
     (Basic.highlightMany Sample.everywhere Sample.three_calls Basic.initial).2).1 = 3 ∧
  Basic.highlights
    (Basic.removeAllHighlights
       (Basic.highlightMany Sample.everywhere Sample.three_calls Basic.initial).2).2 = [] ∧
  Basic.timers
    (Basic.removeAllHighlights
       (Basic.highlightMany Sample.everywhere Sample.three_calls Basic.initial).2).2 = [].
Proof.
  assert (Forall is_Some
            (Basic.highlightMany Sample.everywhere Sample.three_calls Basic.initial).1)
    as H0 by (repeat constructor; eexists; reflexivity).
  assert (NoDup (Basic.ids
                   (Basic.highlightMany Sample.everywhere Sample.three_calls
                      Basic.initial).2))
    as Hd by (apply (bool_decide_unpack _); vm_compute; exact I).
  split; [exact H0|].
  destruct (removeAllHighlights_after_highlights Sample.everywhere Sample.three_calls H0)
    as (H1 & H2 & _ & _ & H5).
  split; [exact H1|]. split; [exact H2|exact (H5 Hd)].
Defined.

(** C9, the claim as stated fails: two calls that pass the same explicit id
    both succeed, and the timer of the second call is stored in the first
    entry, over the timer of the first call, which is then stored nowhere
    and is still pending after [removeAllHighlights]. *)
Lemma overwritten_timer_stays_pending :
  Forall is_Some
    (Basic.highlightMany Sample.everywhere
       [("#a", Sample.explicit "x", "r1"); ("#b", Sample.explicit "x", "r2")]
       Basic.initial).1 ∧
  Basic.timers
    (Basic.removeAllHighlights
       (Basic.highlightMany Sample.everywhere
          [("#a", Sample.explicit "x", "r1"); ("#b", Sample.explicit "x", "r2")]
          Basic.initial).2).2
  = [(1%positive, "x")].
Proof.
  split; [repeat constructor; eexists; reflexivity|reflexivity].
Qed.

(** * Properties of the DOM-tree scan *)
Section AdvFacts.

Import Adv.

Variable B : Browser.

(** **** Unfolding *)

Lemma buildDomTree_Elem e childNodes shadowRoot frame pos parentIframe st :
  buildDomTree B (Elem e childNodes shadowRoot frame) pos parentIframe st =
  if String.eqb (id e) HIGHLIGHT_CONTAINER_ID then (None, st)
  else if negb (isElementAccepted e) then (None, st)
  else
    let nodeData :=
      {| nd_tagName := JS.toLowerCase (tagName e);
         nd_xpath := getXPathTree e pos true;
         nd_children := [];
         nd_isVisible := None; nd_isTopElement := None;
         nd_isInteractive := None; nd_highlightIndex := None |} in
    let c := classify B e parentIframe nodeData st in
    let visit child p s := (buildDomTree B child p parentIframe s).2 in
    let st' :=
      if isIframe e then
        match frame with
        | FrameBody bodyPos body => (buildDomTree B body bodyPos (Some e) c.2).2
        | FrameNone => c.2
        | FrameThrows => log (ConsoleWarn "Unable to access iframe:") c.2
        end
      else
        match shadowRoot with
        | Some children => forEachChild visit false ParentShadowRoot children c.2
        | None =>
          forEachChild visit true (ParentElement (tagName e) pos) childNodes c.2
        end in
    let r := store c.1 st' in
    (Some r.1, r.2).
Proof. reflexivity. Qed.

(** **** States the scan cannot tell apart *)

Section Related.

Variable M : gmap string NodeData.

Ltac related :=
  unfold related in *; simpl in *; intuition (try congruence).

Lemma related_style e s t :
  related M s t ->
  (getCachedComputedStyle B e s).1 = (getCachedComputedStyle B e t).1 ∧
  related M (getCachedComputedStyle B e s).2 (getCachedComputedStyle B e t).2.
Proof.
  intros H. unfold getCachedComputedStyle.
  replace (computedStyles t) with (computedStyles s) by related.
  destruct (computedStyles s !! ref e); related.
Qed.

Lemma related_rect e s t :
  related M s t ->
  (getCachedBoundingRect B e s).1 = (getCachedBoundingRect B e t).1 ∧
  related M (getCachedBoundingRect B e s).2 (getCachedBoundingRect B e t).2.
Proof.
  intros H. unfold getCachedBoundingRect.
  replace (boundingRects t) with (boundingRects s) by related.
  destruct (boundingRects s !! ref e); related.
Qed.

Lemma related_visible e s t :
  related M s t ->
  (isElementVisible B e s).1 = (isElementVisible B e t).1 ∧
  related M (isElementVisible B e s).2 (isElementVisible B e t).2.
Proof.
  intros H. destruct (related_style e s t H) as [H1 H2].
  unfold isElementVisible. simpl. rewrite H1. split; [reflexivity|exact H2].
Qed.

Lemma related_top e s t :
  related M s t ->
  (isTopElement B e s).1 = (isTopElement B e t).1 ∧
  related M (isTopElement B e s).2 (isTopElement B e t).2.
Proof.
  intros H. destruct (related_rect e s t H) as [H1 H2].
  unfold isTopElement. simpl. rewrite H1. split; [reflexivity|exact H2].
Qed.

Lemma related_log entry s t :
  related M s t -> related M (log entry s) (log entry t).
Proof. intros H. related. Qed.

Lemma related_highlightElement e i pf s t :
  related M s t ->
  related M (highlightElement B e i pf s).2 (highlightElement B e i pf t).2.
Proof.
  intros H. unfold highlightElement, drawOverlay.
  replace (container t) with (container s) by related.
  destruct (container s); [related|].
  destruct (document_body B); related.
Qed.

Lemma related_classify e pf nd s t :
  related M s t ->
  (classify B e pf nd s).1 = (classify B e pf nd t).1 ∧
  related M (classify B e pf nd s).2 (classify B e pf nd t).2.
Proof.
  intros H. unfold classify.
  destruct (related_visible e s t H) as [Hv Hv2]. rewrite <- Hv.
  destruct (isElementVisible B e s).1; [|split; [reflexivity|exact Hv2]].
  destruct (related_top e _ _ Hv2) as [Ht Ht2]. rewrite <- Ht.
  destruct (isTopElement B e (isElementVisible B e s).2).1;
    [|split; [reflexivity|exact Ht2]].
  destruct (isInteractiveElement e); [|split; [reflexivity|exact Ht2]].
  cbv zeta.
  set (s2 := (isTopElement B e (isElementVisible B e s).2).2) in *.
  set (t2 := (isTopElement B e (isElementVisible B e t).2).2) in *.
  assert (highlightIndex t2 = highlightIndex s2) as -> by related.
  assert (assigned t2 = assigned s2) as -> by related.
  split; [reflexivity|].
  apply related_highlightElement.
  clearbody s2 t2. related.
Qed.

Lemma related_store nd s t :
  related M s t ->
  (store nd s).1 = (store nd t).1 ∧ related M (store nd s).2 (store nd t).2.
Proof.
  intros H. unfold store. simpl.
  replace (ID_current t) with (ID_current s) by related.
  split; [reflexivity|].
  unfold related in *. simpl. intuition (try congruence).
  match goal with Hm : DOM_HASH_MAP t = _ |- _ => rewrite Hm end.
  apply insert_union_l.
Qed.

Lemma related_forEachChild
    (visit : node -> Position -> State -> State) eo parent children :
  Forall (λ child, ∀ p s t, related M s t ->
            related M (visit child p s) (visit child p t)) children ->
  ∀ s t, related M s t ->
    related M (forEachChild visit eo parent children s)
              (forEachChild visit eo parent children t).
Proof.
  intros Hall s t H. unfold forEachChild.
  generalize (@nil (nat * string)) as prev. revert s t H.
  induction Hall as [|child children Hc Hall IH]; intros s t H prev; simpl.
  - exact H.
  - apply IH.
    destruct (eo && negb (nodeType child =? ELEMENT_NODE)%nat);
      [exact H|apply Hc, H].
Qed.

Lemma related_buildDomTree n : ∀ pos pf s t,
  related M s t ->
  (buildDomTree B n pos pf s).1 = (buildDomTree B n pos pf t).1 ∧
  related M (buildDomTree B n pos pf s).2 (buildDomTree B n pos pf t).2.
Proof.
  induction n as [ty name|e childNodes shadowRoot frame IHc IHs IHf]
    using node_ind; intros pos pf s t H.
  - simpl. split; [reflexivity|exact H].
  - rewrite !buildDomTree_Elem.
    destruct (String.eqb (id e) HIGHLIGHT_CONTAINER_ID);
      [split; [reflexivity|exact H]|].
    destruct (negb (isElementAccepted e)); [split; [reflexivity|exact H]|].
    cbv zeta.
    destruct (related_classify e pf
                (mkNodeData (JS.toLowerCase (tagName e)) (getXPathTree e pos true)
                            [] None None None None) s t H) as [Hc1 Hc2].
    rewrite <- Hc1.
    match goal with
    | |- (Some (store _ ?a).1, _).1 = (Some (store _ ?b).1, _).1 ∧ _ =>
        assert (related M a b) as Hst
    end.
    { destruct (isIframe e).
      - destruct frame as [| |bodyPos body]; simpl in IHf.
        + apply related_log, Hc2.
        + exact Hc2.
        + apply IHf, Hc2.
      - destruct shadowRoot as [children|]; simpl in IHs.
        + apply related_forEachChild; [|exact Hc2].
          eapply Forall_impl; [exact IHs|]. intros child Hch p s0 t0 H0.
          apply Hch, H0.
        + apply related_forEachChild; [|exact Hc2].
          eapply Forall_impl; [exact IHc|]. intros child Hch p s0 t0 H0.
          apply Hch, H0. }
    destruct (related_store (classify B e pf
                (mkNodeData (JS.toLowerCase (tagName e)) (getXPathTree e pos true)
                            [] None None None None) s).1 _ _ Hst) as [Hs1 Hs2].
    split; [cbn [fst]; f_equal; exact Hs1|cbn [snd]; exact Hs2].
Qed.

End Related.

(** **** The effect of the walk on the counter, the history and the overlays *)

Lemma number_app l1 l2 k :
  number (l1 ++ l2) k = number l1 k ++ number l2 (k + length l1).
Proof.
  revert k. induction l1 as [|e l1 IH]; intros k; simpl.
  - rewrite Nat.add_0_r. reflexivity.
  - rewrite IH. do 3 f_equal. lia.
Qed.


Lemma scanned_quiet st st' :
  cache_ok B st' -> quiet st st' -> scanned B st [] st'.
Proof.
  intros Hc (H1 & H2 & H3). unfold scanned, overlays, can_draw. simpl.
  rewrite H1, H2, H3, app_nil_r.
  split; [exact Hc|]. split; [lia|]. split; [reflexivity|].
  split; [reflexivity|].
  destruct (container st); [lia|]. destruct (document_body B); lia.
Qed.

Lemma scanned_refl st : cache_ok B st -> scanned B st [] st.
Proof. intros Hc. apply scanned_quiet; [exact Hc|]. repeat split. Qed.

Lemma scanned_trans st l1 st1 l2 st2 :
  scanned B st l1 st1 -> scanned B st1 l2 st2 -> scanned B st (l1 ++ l2) st2.
Proof.
  unfold scanned. cbv zeta.
  intros (_ & Hi1 & Ha1 & Hd1 & Ho1) (Hc2 & Hi2 & Ha2 & Hd2 & Ho2).
  rewrite filter_app, length_app, number_app.
  split; [exact Hc2|]. split; [lia|]. split.
  - rewrite Ha2, Ha1, Hi1, <- app_assoc. reflexivity.
  - split; [congruence|]. rewrite Ho2, Ho1, Hd1.
    destruct (can_draw B st); lia.
Qed.

Lemma scanned_then_quiet st l st1 st2 :
  scanned B st l st1 -> cache_ok B st2 -> quiet st1 st2 -> scanned B st l st2.
Proof.
  intros H1 Hc Hq. rewrite <- (app_nil_r l).
  eapply scanned_trans; [exact H1|]. apply scanned_quiet; assumption.
Qed.

Lemma style_spec e st :
  cache_ok B st ->
  (getCachedComputedStyle B e st).1 = getComputedStyle B (ref e) ∧
  cache_ok B (getCachedComputedStyle B e st).2 ∧
  quiet st (getCachedComputedStyle B e st).2.
Proof.
  intros [Hr Hs]. unfold getCachedComputedStyle.
  destruct (computedStyles st !! ref e) as [style|] eqn:Hl; simpl.
  - split; [apply Hs, Hl|]. split; [split; assumption|repeat split].
  - split; [reflexivity|]. split; [|repeat split].
    split; simpl; [exact Hr|]. intros k s Hk.
    destruct (decide (k = ref e)) as [->|Hne].
    + rewrite lookup_insert_eq in Hk. congruence.
    + rewrite lookup_insert_ne in Hk by congruence. apply Hs, Hk.
Qed.

Lemma rect_spec e st :
  cache_ok B st ->
  (getCachedBoundingRect B e st).1 = getBoundingClientRect B (ref e) ∧
  cache_ok B (getCachedBoundingRect B e st).2 ∧
  quiet st (getCachedBoundingRect B e st).2.
Proof.
  intros [Hr Hs]. unfold getCachedBoundingRect.
  destruct (boundingRects st !! ref e) as [rect|] eqn:Hl; simpl.
  - split; [apply Hr, Hl|]. split; [split; assumption|repeat split].
  - split; [reflexivity|]. split; [|repeat split].
    split; simpl; [|exact Hs]. intros k r Hk.
    destruct (decide (k = ref e)) as [->|Hne].
    + rewrite lookup_insert_eq in Hk. congruence.
    + rewrite lookup_insert_ne in Hk by congruence. apply Hr, Hk.
Qed.

Lemma visible_spec e st :
  cache_ok B st ->
  (isElementVisible B e st).1 = visible B e ∧
  cache_ok B (isElementVisible B e st).2 ∧
  quiet st (isElementVisible B e st).2.
Proof.
  intros Hc. destruct (style_spec e st Hc) as (H1 & H2 & H3).
  unfold isElementVisible, visible. cbn [fst snd]. rewrite H1.
  split; [reflexivity|]. split; assumption.
Qed.

Lemma top_spec e st :
  cache_ok B st ->
  (isTopElement B e st).1 = topmost B e ∧
  cache_ok B (isTopElement B e st).2 ∧
  quiet st (isTopElement B e st).2.
Proof.
  intros Hc. destruct (rect_spec e st Hc) as (H1 & H2 & H3).
  unfold isTopElement, topmost. cbn [fst snd]. rewrite H1.
  split; [reflexivity|]. split; assumption.
Qed.

Lemma quiet_trans s1 s2 s3 : quiet s1 s2 -> quiet s2 s3 -> quiet s1 s3.
Proof. unfold quiet. intuition congruence. Qed.

Lemma filter_one (e : Element) :
  filter (λ e, highlightable B e = true) [e]
  = if highlightable B e then [e] else [].
Proof.
  rewrite filter_cons, filter_nil.
  destruct (highlightable B e); case_decide; congruence.
Qed.

(** Drawing adds one overlay when it can, none when it throws; either way
    the counter and the history are as the caller left them. *)
Lemma highlightElement_spec e i pf st :
  let st' := (highlightElement B e i pf st).2 in
  highlightIndex st' = highlightIndex st ∧
  assigned st' = assigned st ∧
  boundingRects st' = boundingRects st ∧
  computedStyles st' = computedStyles st ∧
  can_draw B st' = can_draw B st ∧
  overlays st' = overlays st + (if can_draw B st then 1 else 0).
Proof.
  unfold highlightElement, drawOverlay, can_draw, overlays.
  destruct (container st) as [children|] eqn:Hc.
  - cbn. rewrite filter_app, length_app.
    repeat split; reflexivity.
  - destruct (document_body B) as [b|]; cbn; rewrite ?Hc; repeat split; lia.
Qed.

Lemma classify_scanned e pf nd st :
  cache_ok B st -> scanned B st [e] (classify B e pf nd st).2.
Proof.
  intros Hc. destruct (visible_spec e st Hc) as (Hv & Hvc & Hvq).
  unfold classify. cbv zeta. unfold scanned. cbv zeta.
  rewrite filter_one. unfold highlightable. rewrite <- Hv.
  set (sv := (isElementVisible B e st).2) in *.
  destruct (isElementVisible B e st).1; cbn [andb snd];
    [|apply (scanned_quiet st sv Hvc Hvq)].
  destruct (top_spec e sv Hvc) as (Ht & Htc & Htq). rewrite <- Ht.
  set (stt := (isTopElement B e sv).2) in *.
  pose proof (quiet_trans _ _ _ Hvq Htq) as Hq.
  destruct (isTopElement B e sv).1; cbn [andb snd];
    [|apply (scanned_quiet st stt Htc Hq)].
  destruct (isInteractiveElement e); cbn [snd];
    [|apply (scanned_quiet st stt Htc Hq)].
  destruct Hq as (Hq1 & Hq2 & Hq3).
  match goal with
  | |- context [highlightElement B e ?i pf ?s] =>
      destruct (highlightElement_spec e i pf s) as (H1 & H2 & H3 & H4 & H5 & H6)
  end.
  cbv zeta in *.
  assert (can_draw B (set_assigned (assigned stt ++ [(ref e, highlightIndex stt)])
                        (set_highlightIndex (S (highlightIndex stt)) stt))
          = can_draw B st) as Hcd.
  { unfold can_draw. simpl. rewrite Hq3. reflexivity. }
  assert (overlays (set_assigned (assigned stt ++ [(ref e, highlightIndex stt)])
                        (set_highlightIndex (S (highlightIndex stt)) stt))
          = overlays st) as Hov.
  { unfold overlays. simpl. rewrite Hq3. reflexivity. }
  split.
  { destruct Htc as [Hr Hs]. split.
    - intros k r. rewrite H3. simpl. apply Hr.
    - intros k s. rewrite H4. simpl. apply Hs. }
  rewrite H1, H2, H5, H6, Hcd, Hov. simpl. rewrite Hq1, Hq2.
  repeat split; try lia.
Qed.

Lemma store_quiet nd st : quiet st (store nd st).2.
Proof. repeat split. Qed.

Lemma store_cache_ok nd st : cache_ok B st -> cache_ok B (store nd st).2.
Proof. intros H. exact H. Qed.

Lemma log_quiet entry st : quiet st (log entry st).
Proof. repeat split. Qed.

Lemma log_cache_ok entry st : cache_ok B st -> cache_ok B (log entry st).
Proof. intros H. exact H. Qed.

Lemma scanned_cache_ok st l st' : scanned B st l st' -> cache_ok B st'.
Proof. intros H. apply H. Qed.

Lemma forEachChild_scanned
    (visit : node -> Position -> State -> State) eo parent children :
  Forall (λ child, ∀ p s, cache_ok B s ->
            scanned B s (visited child) (visit child p s)) children ->
  ∀ st, cache_ok B st ->
    scanned B st (flat_map visited children)
            (forEachChild visit eo parent children st).
Proof.
  intros Hall st Hc. unfold forEachChild.
  generalize (@nil (nat * string)) as prev. revert st Hc.
  induction Hall as [|child children Hch Hall IH]; intros st Hc prev; simpl.
  - apply scanned_refl, Hc.
  - assert (scanned B st (visited child)
              (if eo && negb (nodeType child =? ELEMENT_NODE)%nat
               then st else visit child (Pos prev parent) st)) as Hstep.
    { destruct (eo && negb (nodeType child =? ELEMENT_NODE)%nat) eqn:Hskip;
        [|apply Hch, Hc].
      destruct child as [ty name|e cs sh fr]; simpl.
      - apply scanned_refl, Hc.
      - rewrite andb_comm in Hskip. discriminate Hskip. }
    eapply scanned_trans; [exact Hstep|].
    apply IH. eapply scanned_cache_ok, Hstep.
Qed.

Lemma buildDomTree_scanned n : ∀ pos pf st,
  cache_ok B st -> scanned B st (visited n) (buildDomTree B n pos pf st).2.
Proof.
  induction n as [ty name|e childNodes shadowRoot frame IHc IHs IHf]
    using node_ind; intros pos pf st Hc.
  - simpl. apply scanned_refl, Hc.
  - rewrite buildDomTree_Elem. simpl visited.
    destruct (String.eqb (id e) HIGHLIGHT_CONTAINER_ID);
      [apply scanned_refl, Hc|].
    destruct (negb (isElementAccepted e)); [apply scanned_refl, Hc|].
    cbv zeta. cbn [snd].
    pose proof (classify_scanned e pf
                  (mkNodeData (JS.toLowerCase (tagName e)) (getXPathTree e pos true)
                              [] None None None None) st Hc) as Hcl.
    pose proof (scanned_cache_ok _ _ _ Hcl) as Hcc.
    match goal with
    | |- scanned B st (e :: ?l) (store _ ?s).2 =>
        assert (scanned B st ([e] ++ l) s) as Hwalk
    end.
    { eapply scanned_trans; [exact Hcl|].
      destruct (isIframe e).
      - destruct frame as [| |bodyPos body]; simpl in IHf.
        + apply scanned_quiet; [apply log_cache_ok, Hcc|apply log_quiet].
        + apply scanned_refl, Hcc.
        + apply IHf, Hcc.
      - destruct shadowRoot as [children|]; simpl in IHs.
        + apply forEachChild_scanned; [|exact Hcc].
          eapply Forall_impl; [exact IHs|]. intros child Hch p s Hs.
          apply Hch, Hs.
        + apply forEachChild_scanned; [|exact Hcc].
          eapply Forall_impl; [exact IHc|]. intros child Hch p s Hs.
          apply Hch, Hs. }
    eapply scanned_then_quiet; [exact Hwalk| |apply store_quiet].
    apply store_cache_ok. eapply scanned_cache_ok, Hwalk.
Qed.

(** **** The entry point *)

Lemma startNode_fst config st st' :
  (startNode B config st).1 = (startNode B config st').1.
Proof.
  unfold startNode. destruct (JS.truthy_string _); [|reflexivity].
  destruct (querySelector B _); reflexivity.
Qed.

Lemma startNode_snd config st :
  (startNode B config st).2 = st ∨
  ∃ entry, (startNode B config st).2 = log entry st.
Proof.
  unfold startNode. destruct (JS.truthy_string _); [|left; reflexivity].
  destruct (querySelector B _); right; eexists; reflexivity.
Qed.

Lemma startNode_related M config s t :
  related M s t ->
  related M (startNode B config s).2 (startNode B config t).2.
Proof.
  intros H. unfold startNode. destruct (JS.truthy_string _); [|exact H].
  destruct (querySelector B _); apply related_log, H.
Qed.

(** The scan reads nothing of the state it is started in: it does what it
    does from the state of a freshly loaded script, and writes its
    records over the mapping it finds. *)
Lemma scan_from_initial options st :
  (findAndHighlightInteractiveElements B options st).1
  = (findAndHighlightInteractiveElements B options initial).1 ∧
  related (DOM_HASH_MAP st)
    (findAndHighlightInteractiveElements B options initial).2
    (findAndHighlightInteractiveElements B options st).2.
Proof.
  unfold findAndHighlightInteractiveElements. cbv zeta. cbn [fst snd].
  set (config := merge defaults options).
  assert (related (DOM_HASH_MAP st)
            (removeAllHighlights (reset initial))
            (removeAllHighlights (reset st))) as H0.
  { unfold related. cbn. repeat split; try reflexivity.
    rewrite (left_id_L ∅ (∪)). reflexivity. }
  pose proof (startNode_related _ config _ _ H0) as H1.
  rewrite (startNode_fst config (removeAllHighlights (reset st))
                         (removeAllHighlights (reset initial))).
  destruct (startNode B config (removeAllHighlights (reset initial))).1
    as [[pos n]|].
  - destruct (related_buildDomTree _ n pos None _ _ H1) as [_ H2].
    split; [|exact H2]. symmetry. apply H2.
  - split; [|exact H1]. symmetry. apply H1.
Qed.

Lemma scan_scanned options st :
  scanned B (removeAllHighlights (reset st))
    (visitedFrom (start B options))
    (findAndHighlightInteractiveElements B options st).2.
Proof.
  unfold findAndHighlightInteractiveElements, start. cbv zeta. cbn [fst snd].
  set (config := merge defaults options).
  set (s0 := removeAllHighlights (reset st)).
  assert (cache_ok B s0) as Hc0.
  { split; intros k v Hk; cbn in Hk; rewrite lookup_empty in Hk; discriminate Hk. }
  assert (cache_ok B (startNode B config s0).2 ∧ quiet s0 (startNode B config s0).2)
    as [Hc1 Hq1].
  { destruct (startNode_snd config s0) as [->|[entry ->]].
    - split; [exact Hc0|repeat split].
    - split; [apply log_cache_ok, Hc0|apply log_quiet]. }
  rewrite (startNode_fst config initial s0).
  destruct (startNode B config s0).1 as [[pos n]|]; simpl visitedFrom.
  - rewrite <- (app_nil_l (visited n)).
    eapply scanned_trans; [apply scanned_quiet; eassumption|].
    apply buildDomTree_scanned, Hc1.
  - apply scanned_quiet; assumption.
Qed.

(** **** The records *)

Lemma classify_fields e pf nd st :
  nd_tagName (classify B e pf nd st).1 = nd_tagName nd ∧
  nd_xpath (classify B e pf nd st).1 = nd_xpath nd ∧
  nd_children (classify B e pf nd st).1 = nd_children nd.
Proof.
  unfold classify. cbv zeta.
  destruct (isElementVisible B e st).1; [|repeat split].
  destruct (isTopElement B e _).1; [|repeat split].
  destruct (isInteractiveElement e); repeat split.
Qed.

(** Every accepted element that the walk reaches gets a record under the
    id the call returns, with its lower-cased tag name, its XPath, and an
    empty [children] sequence, whatever children it has. *)
Lemma buildDomTree_record e childNodes shadowRoot frame pos pf st :
  id e ≠ HIGHLIGHT_CONTAINER_ID ->
  isElementAccepted e = true ->
  ∃ i nd,
    (buildDomTree B (Elem e childNodes shadowRoot frame) pos pf st).1 = Some i ∧
    DOM_HASH_MAP (buildDomTree B (Elem e childNodes shadowRoot frame) pos pf st).2
      !! i = Some nd ∧
    nd_tagName nd = JS.toLowerCase (tagName e) ∧
    nd_xpath nd = getXPathTree e pos true ∧
    nd_children nd = [].
Proof.
  intros Hid Hacc. rewrite buildDomTree_Elem.
  rewrite (proj2 (String.eqb_neq _ _) Hid), Hacc. cbv zeta. cbn [negb fst snd].
  eexists _, _. split; [reflexivity|]. split.
  - unfold store. cbn. apply lookup_insert_eq.
  - apply (classify_fields e pf
             (mkNodeData (JS.toLowerCase (tagName e)) (getXPathTree e pos true)
                         [] None None None None) st).
Qed.

(** **** What stays in the mapping *)

(** A scan deletes nothing: every key of the mapping before the scan is a
    key of the mapping after it. *)
Lemma scan_keeps_keys options st k :
  is_Some (DOM_HASH_MAP st !! k) ->
  is_Some (DOM_HASH_MAP (findAndHighlightInteractiveElements B options st).2 !! k).
Proof.
  intros Hk. destruct (scan_from_initial options st) as [_ R].
  destruct R as (_ & _ & _ & _ & _ & _ & Rm). rewrite Rm.
  apply lookup_union_is_Some. right. exact Hk.
Qed.

Lemma style_map e st :
  DOM_HASH_MAP (getCachedComputedStyle B e st).2 = DOM_HASH_MAP st.
Proof.
  unfold getCachedComputedStyle. destruct (computedStyles st !! ref e); reflexivity.
Qed.

Lemma rect_map e st :
  DOM_HASH_MAP (getCachedBoundingRect B e st).2 = DOM_HASH_MAP st.
Proof.
  unfold getCachedBoundingRect. destruct (boundingRects st !! ref e); reflexivity.
Qed.

Lemma highlightElement_map e i pf st :
  DOM_HASH_MAP (highlightElement B e i pf st).2 = DOM_HASH_MAP st.
Proof.
  unfold highlightElement, drawOverlay.
  destruct (container st); [reflexivity|].
  destruct (document_body B); reflexivity.
Qed.

Lemma classify_map e pf nd st :
  DOM_HASH_MAP (classify B e pf nd st).2 = DOM_HASH_MAP st.
Proof.
  unfold classify. cbv zeta.
  assert (DOM_HASH_MAP (isElementVisible B e st).2 = DOM_HASH_MAP st) as Hv
    by apply style_map.
  destruct (isElementVisible B e st).1; [|exact Hv].
  assert (DOM_HASH_MAP (isTopElement B e (isElementVisible B e st).2).2
          = DOM_HASH_MAP st) as Ht.
  { unfold isTopElement. cbn [snd]. rewrite rect_map. exact Hv. }
  destruct (isTopElement B e _).1; [|exact Ht].
  destruct (isInteractiveElement e); [|exact Ht].
  cbn [snd]. rewrite highlightElement_map. exact Ht.
Qed.

Lemma forEachChild_preserves (Q : State -> Prop)
    (visit : node -> Position -> State -> State) eo parent children :
  Forall (λ child, ∀ p s, Q s -> Q (visit child p s)) children ->
  ∀ st, Q st -> Q (forEachChild visit eo parent children st).
Proof.
  intros Hall st H. unfold forEachChild.
  generalize (@nil (nat * string)) as prev. revert st H.
  induction Hall as [|child children Hch Hall IH]; intros st H prev; simpl.
  - exact H.
  - apply IH. destruct (eo && negb (nodeType child =? ELEMENT_NODE)%nat);
      [exact H|apply Hch, H].
Qed.

(** The walk stores no record with a child id in it. *)
Lemma buildDomTree_childless n : ∀ pos pf st,
  childless st -> childless (buildDomTree B n pos pf st).2.
Proof.
  induction n as [ty name|e childNodes shadowRoot frame IHc IHs IHf]
    using node_ind; intros pos pf st H.
  - exact H.
  - rewrite buildDomTree_Elem.
    destruct (String.eqb (id e) HIGHLIGHT_CONTAINER_ID); [exact H|].
    destruct (negb (isElementAccepted e)); [exact H|].
    cbv zeta. cbn [snd].
    set (nd := mkNodeData (JS.toLowerCase (tagName e)) (getXPathTree e pos true)
                          [] None None None None).
    assert (childless (classify B e pf nd st).2) as Hc.
    { unfold childless. rewrite classify_map. exact H. }
    match goal with
    | |- childless (store _ ?s).2 => assert (childless s) as Hw
    end.
    { destruct (isIframe e).
      - destruct frame as [| |bodyPos body]; simpl in IHf.
        + exact Hc.
        + exact Hc.
        + apply IHf, Hc.
      - destruct shadowRoot as [children|]; simpl in IHs.
        + apply (forEachChild_preserves childless); [|exact Hc].
          eapply Forall_impl; [exact IHs|]. intros child Hch p s Hs.
          apply Hch, Hs.
        + apply (forEachChild_preserves childless); [|exact Hc].
          eapply Forall_impl; [exact IHc|]. intros child Hch p s Hs.
          apply Hch, Hs. }
    unfold childless, store. cbn.
    apply map_Forall_insert_2; [|exact Hw].
    apply (classify_fields e pf nd st).
Qed.

(** After any scan started with a mapping whose records have no child
    ids, as the mapping of a freshly loaded script is, no record of the
    mapping has a child id. *)
Lemma scan_childless options st :
  childless st ->
  childless (findAndHighlightInteractiveElements B options st).2.
Proof.
  intros H. unfold findAndHighlightInteractiveElements. cbv zeta. cbn [snd].
  set (config := merge defaults options).
  assert (childless (startNode B config (removeAllHighlights (reset st))).2) as Hs.
  { destruct (startNode_snd config (removeAllHighlights (reset st)))
      as [->|[entry ->]]; exact H. }
  destruct (startNode B config (removeAllHighlights (reset st))).1 as [[pos n]|].
  - apply buildDomTree_childless, Hs.
  - exact Hs.
Qed.

End AdvFacts.

(** Two examples of the specification: a class name that contains "btn"
    makes an element interactive; of a visible button, a hidden button and
    a covered [div role="button"], only the first is given an index, 0. *)
Example btn_primary_is_interactive :
  Adv.isInteractiveElement
    (Adv.mkElement 7 "SPAN" "" [] ["btn-primary"] false false) = true.
Proof. reflexivity. Qed.

Example only_the_visible_button :
  Adv.assigned
    (Adv.findAndHighlightInteractiveElements Sample.covered Sample.noOptions
       Adv.initial).2 = [(1, 0)] ∧
  Adv.nd_highlightIndex <$>
    Adv.DOM_HASH_MAP
      (Adv.findAndHighlightInteractiveElements Sample.covered Sample.noOptions
         Adv.initial).2 !! "0" = Some (Some 0).
Proof. split; vm_compute; reflexivity. Qed.

(** C1, as amended.  The count that [findAndHighlightInteractiveElements]
    returns is the number of elements classified interactive (visible,
    topmost and interactive) among the accepted elements the walk reaches,
    whether or not their overlays could be drawn: overlays are drawn for all
    of them when the document has a body and for none of them when it has
    not.  When drawing throws, [highlightElement] catches the exception,
    logs it and returns its index argument unchanged; the scan has advanced
    its counter before the call and does not use the returned value. *)
Theorem count_is_number_classified
    (B : Adv.Browser) (options : Adv.Options) (st : Adv.State) :
  (Adv.findAndHighlightInteractiveElements B options st).1
  = length (filter (λ e, Adv.highlightable B e = true)
                   (Adv.visitedFrom (Adv.start B options))) ∧
  Adv.overlays (Adv.findAndHighlightInteractiveElements B options st).2
  = match Adv.document_body B with
    | Some _ => (Adv.findAndHighlightInteractiveElements B options st).1
    | None => 0
    end ∧
  (∀ e i pf s,
     Adv.drawOverlay B e i pf s = None ->
     Adv.highlightElement B e i pf s
     = (i, Adv.log (Adv.ConsoleError "Error highlighting element:") s)).
Proof.
  destruct (scan_scanned B options st) as (_ & Hi & _ & _ & Ho).
  cbv zeta in Hi, Ho.
  assert ((Adv.findAndHighlightInteractiveElements B options st).1
          = Adv.highlightIndex (Adv.findAndHighlightInteractiveElements B options st).2)
    as Hfst by reflexivity.
  rewrite Hfst, Hi. split; [reflexivity|]. split.
  - rewrite Ho. unfold Adv.can_draw, Adv.overlays. cbn.
    destruct (Adv.document_body B); reflexivity.
  - intros e i pf s Hthrow. unfold Adv.highlightElement. rewrite Hthrow.
    reflexivity.
Qed.

Lemma count_is_number_classified_witness :
  Adv.drawOverlay Sample.bodiless (Sample.el 2 "BUTTON" "b") 0 None Adv.initial = None ∧
  Adv.highlightElement Sample.bodiless (Sample.el 2 "BUTTON" "b") 0 None Adv.initial
  = (0, Adv.log (Adv.ConsoleError "Error highlighting element:") Adv.initial).
Proof.
  split; [reflexivity|].
  apply (count_is_number_classified Sample.bodiless Sample.noOptions Adv.initial).
  reflexivity.
Defined.

(** C1, the claim as stated fails: in a document without a body, a scan
    started at a button classifies it interactive and returns 1, drawing
    its overlay throws, the exception is caught and logged, and no overlay
    is drawn; the count is not the number of elements highlighted. *)
Lemma count_not_number_drawn_counterexample :
  Adv.console
    (Adv.findAndHighlightInteractiveElements Sample.bodiless (Sample.from "#b")
       Adv.initial).2
  = [Adv.ConsoleLog "Starting highlight from parent selector: #b";
     Adv.ConsoleError "Error highlighting element:"] ∧
  (Adv.findAndHighlightInteractiveElements Sample.bodiless (Sample.from "#b")
     Adv.initial).1
  ≠ Adv.overlays
      (Adv.findAndHighlightInteractiveElements Sample.bodiless (Sample.from "#b")
         Adv.initial).2.
Proof. split; [vm_compute; reflexivity|]. vm_compute. discriminate. Qed.

(** C2, at the failing input: a scan of the whole sample page stores the
    records "0", "1" and "2"; a second scan, started at the [div], stores
    two records and resets the node-id counter to count them, and the
    mapping still holds under "2" the record of [body] that the first scan
    stored. *)
Theorem stale_record_survives :
  Adv.ID_current
    (Adv.findAndHighlightInteractiveElements Sample.page (Sample.from "#d")
       (Adv.findAndHighlightInteractiveElements Sample.page Sample.noOptions
          Adv.initial).2).2 = 2 ∧
  Adv.DOM_HASH_MAP
    (Adv.findAndHighlightInteractiveElements Sample.page (Sample.from "#d")
       (Adv.findAndHighlightInteractiveElements Sample.page Sample.noOptions
          Adv.initial).2).2 !! "2"
  = Some (Adv.mkNodeData "body" "html/body" [] (Some true) (Some true)
                         (Some false) None).
Proof. split; vm_compute; reflexivity. Qed.

(** C3, at the failing input: after a scan of the sample page the records
    of the [div] and of the button inside it are stored under "1" and "0",
    and the [children] field of the record of [body], and of the [div], is
    empty. *)
Theorem children_never_recorded :
  Adv.DOM_HASH_MAP
    (Adv.findAndHighlightInteractiveElements Sample.page Sample.noOptions
       Adv.initial).2 !! "2"
  = Some (Adv.mkNodeData "body" "html/body" [] (Some true) (Some true)
                         (Some false) None) ∧
  Adv.DOM_HASH_MAP
    (Adv.findAndHighlightInteractiveElements Sample.page Sample.noOptions
       Adv.initial).2 !! "1"
  = Some (Adv.mkNodeData "div" "html/body/div" [] (Some true) (Some true)
                         (Some false) None) ∧
  Adv.DOM_HASH_MAP
    (Adv.findAndHighlightInteractiveElements Sample.page Sample.noOptions
       Adv.initial).2 !! "0"
  = Some (Adv.mkNodeData "button" "html/body/div/button" [] (Some true)
                         (Some true) (Some true) (Some 0)).
Proof. repeat split; vm_compute; reflexivity. Qed.


(** C10.  Two calls on the same page and state whose options agree on
    [parentSelector] return the same count and leave the same state, the
    overlays included: [doHighlightElements], [focusHighlightIndex] and
    [viewportExpansion] are not read. *)
Theorem unused_options_have_no_effect
    (B : Adv.Browser) (o1 o2 : Adv.Options) (st : Adv.State) :
  Adv.o_parentSelector o1 = Adv.o_parentSelector o2 ->
  Adv.findAndHighlightInteractiveElements B o1 st
  = Adv.findAndHighlightInteractiveElements B o2 st.
Proof.
  intros H. unfold Adv.findAndHighlightInteractiveElements, Adv.startNode.
  cbv zeta.
  replace (Adv.parentSelector (Adv.merge Adv.defaults o1))
    with (Adv.parentSelector (Adv.merge Adv.defaults o2)).
  - reflexivity.
  - unfold Adv.merge. cbn. rewrite H. reflexivity.
Qed.

Lemma unused_options_have_no_effect_witness :
  Adv.o_parentSelector Sample.quietOptions = Adv.o_parentSelector Sample.noOptions ∧
  Adv.findAndHighlightInteractiveElements Sample.page Sample.quietOptions Adv.initial
  = Adv.findAndHighlightInteractiveElements Sample.page Sample.noOptions Adv.initial ∧
  Adv.overlays
    (Adv.findAndHighlightInteractiveElements Sample.page Sample.quietOptions
       Adv.initial).2 = 1.
Proof.
  split; [reflexivity|]. split.
  - apply (unused_options_have_no_effect Sample.page Sample.quietOptions
             Sample.noOptions Adv.initial).
    reflexivity.
  - vm_compute. reflexivity.
Defined.

(** * Properties of the photo display *)
Section PhotoFacts.

Variable Number_toString : Q -> string.

(** With a score that is not zero and a metrics object, the panel is the
    score heading in the colour of [getScoreColor] followed by one line
    for each metric that is present. *)
Lemma metricsHtml_supplied (score : Q) (m : Photo.Metrics) :
  ¬ (score == 0)%Q ->
  Photo.metricsHtml Number_toString (Some score) (Some m)
  = "<h3 style=" +:+ Photo.dq +:+ "margin-top: 0; color: " +:+
    Photo.getScoreColor score +:+ Photo.dq +:+ ">Score: " +:+
    Number_toString score +:+ "/10</h3>" +:+
    Photo.line "Symmetry" (Photo.symmetry m) +:+
    Photo.line "Golden Ratio" (Photo.golden_ratio m) +:+
    Photo.line "Facial Thirds" (Photo.thirds m) +:+
    Photo.line "Eye Spacing" (Photo.eye_spacing m).
Proof.
  intros Hnz. unfold Photo.metricsHtml, JS.truthy_number.
  destruct (Qeq_bool score 0) eqn:Hz; [|reflexivity].
  apply Qeq_bool_iff in Hz. contradiction.
Qed.

Lemma metricsHtml_absent_score (m : option Photo.Metrics) :
  Photo.metricsHtml Number_toString None m = Photo.unavailable.
Proof. reflexivity. Qed.

Lemma metricsHtml_absent_metrics (score : option Q) :
  Photo.metricsHtml Number_toString score None = Photo.unavailable.
Proof. destruct score; reflexivity. Qed.

Lemma getScoreColor_high (score : Q) :
  (8 <= score)%Q -> Photo.getScoreColor score = "#4CAF50".
Proof.
  intros H. unfold Photo.getScoreColor.
  rewrite (proj2 (Qle_bool_iff 8 score) H). reflexivity.
Qed.

Lemma getScoreColor_medium (score : Q) :
  (6 <= score)%Q -> (score < 8)%Q -> Photo.getScoreColor score = "#FFC107".
Proof.
  intros H6 H8. unfold Photo.getScoreColor.
  destruct (Qle_bool 8 score) eqn:E.
  - apply Qle_bool_iff in E. exfalso. exact (Qlt_not_le _ _ H8 E).
  - rewrite (proj2 (Qle_bool_iff 6 score) H6). reflexivity.
Qed.

Lemma getScoreColor_low (score : Q) :
  (score < 6)%Q -> Photo.getScoreColor score = "#F44336".
Proof.
  intros H6. unfold Photo.getScoreColor.
  destruct (Qle_bool 8 score) eqn:E8.
  - apply Qle_bool_iff in E8. exfalso.
    apply (Qlt_not_le _ _ H6). eapply Qle_trans; [|exact E8]. discriminate.
  - destruct (Qle_bool 6 score) eqn:E6; [|reflexivity].
    apply Qle_bool_iff in E6. exfalso. exact (Qlt_not_le _ _ H6 E6).
Qed.

End PhotoFacts.

(** The examples of the specification: a symmetry of 0.873 is shown as
    87.3%, and a score of 7 is drawn in amber. *)
Example symmetry_line :
  Photo.line "Symmetry" (Some (873 # 1000)) = "<p>Symmetry: 87.3%</p>".
Proof. reflexivity. Qed.

Example score_seven_is_amber : Photo.getScoreColor 7 = "#FFC107".
Proof. reflexivity. Qed.

(** C4, at the failing input: with a score of 0, which is a score in the
    range 0 to 10, and a metrics object, the panel is the notice that the
    analysis is unavailable, not the score and the metrics. *)
Theorem zero_score_shows_unavailable
    (Number_toString : Q -> string) (m : Photo.Metrics) :
  Photo.metricsHtml Number_toString (Some 0%Q) (Some m) = Photo.unavailable.
Proof. reflexivity. Qed.

(** * Properties of the research panel *)

(** A card is made only for an entry with a thumbnail URL, and shows that
    thumbnail. *)
Lemma card_has_thumbnail (item : Research.Item) (c : Research.Card) :
  Research.card item = Some c ->
  JS.truthy_string (Research.thumbnailUrl item) = true ∧
  Research.thumbnailUrl item = Some (Research.src c).
Proof.
  unfold Research.card.
  destruct (Research.thumbnailUrl item) as [t|]; [|discriminate].
  destruct (JS.truthy_string (Some t)); [|discriminate].
  intros [= <-]. split; reflexivity.
Qed.

Lemma cards_have_thumbnails (data : Research.ResearchResult) (c : Research.Card) :
  c ∈ Research.cards data ->
  ∃ item, item ∈ default [] (Research.metadata data) ∧
          Research.thumbnailUrl item = Some (Research.src c).
Proof.
  unfold Research.cards. intros H. apply list_elem_of_omap in H.
  destruct H as (item & Hin & Hc). exists item. split; [exact Hin|].
  apply (card_has_thumbnail item c Hc).
Qed.

(** A likeness score that is not zero is shown rounded to the nearest
    whole percent. *)
Lemma card_shows_score (item : Research.Item) (c : Research.Card) (s : Q) :
  Research.card item = Some c ->
  Research.likenessScore item = Some s ->
  ¬ (s == 0)%Q ->
  Research.score c = Some ("Match: " +:+ pretty (JS.Math_round s) +:+ "%").
Proof.
  unfold Research.card. intros Hc Hs Hnz.
  destruct (JS.truthy_string (Research.thumbnailUrl item)); [|discriminate].
  injection Hc as <-. cbn. rewrite Hs. cbn.
  destruct (Qeq_bool s 0) eqn:Hz; [|reflexivity].
  apply Qeq_bool_iff in Hz. contradiction.
Qed.

(** The examples of the specification: an entry without a thumbnail gives
    no card, and a likeness of 87.6 is shown as 88%. *)
Example no_thumbnail_no_card :
  Research.card (Research.mkItem (Some "https://example.org/full.png") None
                                 (Some (876 # 10))) = None.
Proof. reflexivity. Qed.

Example likeness_rounds :
  Research.score <$>
    Research.card (Research.mkItem None (Some "thumb.png") (Some (876 # 10)))
  = Some (Some "Match: 88%").
Proof. reflexivity. Qed.

(** The grid that [displayResearch] shows holds the cards of the entries. *)
Lemma displayResearch_grid (data : Research.ResearchResult) (l : list Research.Card) :
  Research.Grid l ∈ Research.displayResearch data -> l = Research.cards data.
Proof.
  unfold Research.displayResearch, Research.cards. intros H.
  repeat (apply elem_of_app in H; destruct H as [H|H]).
  - apply list_elem_of_singleton in H. discriminate H.
  - destruct (JS.truthy_string (Research.name data));
      [apply list_elem_of_singleton in H; discriminate H|].
    apply elem_of_nil in H. destruct H.
  - destruct (JS.truthy_string (Research.description data));
      [apply list_elem_of_singleton in H; discriminate H|].
    apply elem_of_nil in H. destruct H.
  - destruct (Research.metadata data) as [items|];
      [|apply elem_of_nil in H; destruct H].
    destruct (0 <? length items)%nat; [|apply elem_of_nil in H; destruct H].
    apply elem_of_cons in H. destruct H as [H|H]; [discriminate H|].
    apply list_elem_of_singleton in H. injection H as ->. reflexivity.
Qed.

(** C5, at the failing input: an entry with a thumbnail and a likeness
    score of 0, which is a score in the range 0 to 100, gets a card without
    any "Match" line. *)
Theorem zero_likeness_has_no_match_line :
  Research.displayResearch
    (Research.mkResult (Some "Ada") None
       (Some [Research.mkItem None (Some "thumb.png") (Some 0%Q)]))
  = [Research.Header "Research Results"; Research.Name "Ada";
     Research.MetaTitle "Found Images:";
     Research.Grid [Research.mkCard "#" "_blank" "thumb.png" None]].
Proof. reflexivity. Qed.

(** * More on the basic highlighter *)
Section TrackingFacts.

Import Basic Tracking.

Variable querySelector : Document -> string -> option DOMRect.

Lemma filter_keeps_all {A} (P : A -> Prop) `{∀ x, Decision (P x)} (l : list A) :
  Forall P l -> filter P l = l.
Proof.
  induction 1 as [|x l Hx Hl IH]; [reflexivity|].
  rewrite filter_cons_True by exact Hx. rewrite IH. reflexivity.
Qed.

(** In a list of distinct objects, dropping by identity is dropping by
    position. *)
Lemma removeChild_delete (b : list Overlay) (i : nat) (o : Overlay) :
  NoDup (node <$> b) -> b !! i = Some o ->
  removeChild (node o) b = delete i b.
Proof.
  unfold removeChild. revert i. induction b as [|x b IH]; intros i Hnd Hi.
  - discriminate Hi.
  - rewrite fmap_cons in Hnd. apply NoDup_cons in Hnd. destruct Hnd as [Hx Hnd].
    destruct i as [|i]; simpl in Hi.
    + injection Hi as ->. rewrite filter_cons_False by (intros Hn; apply Hn; reflexivity).
      simpl. apply filter_keeps_all. apply Forall_forall. intros y Hy Heq.
      apply Hx. rewrite <- Heq. apply list_elem_of_fmap.
      exists y. split; [reflexivity|exact Hy].
    + rewrite filter_cons_True.
      * simpl. f_equal. apply IH; assumption.
      * intros Heq. apply Hx. rewrite Heq. apply list_elem_of_fmap.
        exists o. split; [reflexivity|]. eapply list_elem_of_lookup_2, Hi.
Qed.

Lemma elements_alter_timer (t : option positive) (i : nat) (l : list HighlightEntry) :
  h_element <$> alter (λ h, mkEntry (h_id h) (h_element h) (h_selector h) t) i l
  = h_element <$> l.
Proof.
  revert i. induction l as [|h l IH]; intros [|i]; simpl; try reflexivity.
  f_equal. apply IH.
Qed.

Lemma highlight_consistent selector options rnd st :
  consistent st -> consistent (highlight querySelector selector options rnd st).2.
Proof.
  intros (HA & HB & HC & HD). unfold highlight.
  destruct (querySelector (document st) selector) as [rect|];
    [|repeat split; assumption].
  set (config := merge (defaults rnd) options).
  assert (NoDup ((node <$> body (document st)) ++ [nextNode st])) as HB'.
  { apply NoDup_app. split; [exact HB|]. split; [|apply NoDup_singleton].
    intros n Hn Hin. apply list_elem_of_singleton in Hin. subst n.
    apply list_elem_of_fmap in Hn. destruct Hn as (o & Ho & Hin).
    specialize (HC o Hin). lia. }
  assert (∀ o, o ∈ body (document st) ++
                 [mkOverlay (nextNode st) (id config) rect
                    (borderWidth config, color config)
                    (color config, fillOpacity config)
                    (zIndex config) (pulseEffect config)] ->
               node o < S (nextNode st)) as HC'.
  { intros o Ho. apply elem_of_app in Ho. destruct Ho as [Ho|Ho].
    - specialize (HC o Ho). lia.
    - apply list_elem_of_singleton in Ho. subst o. simpl. lia. }
  destruct (JS.ltb 0 (duration config)); cbn [snd]; unfold consistent; cbn.
  - split.
    { rewrite fmap_app. cbn. destruct (list_find _ _) as [[i ?]|].
      - rewrite elements_alter_timer, fmap_app, HA. reflexivity.
      - rewrite fmap_app, HA. reflexivity. }
    split; [rewrite fmap_app; exact HB'|]. split; [exact HC'|].
    intros p Hp. apply elem_of_app in Hp. destruct Hp as [Hp|Hp].
    + specialize (HD p Hp). lia.
    + apply list_elem_of_singleton in Hp. subst p. simpl. lia.
  - split; [rewrite !fmap_app, HA; reflexivity|].
    split; [rewrite fmap_app; exact HB'|]. split; [exact HC'|exact HD].
Qed.

(** What [removeHighlight] does when it finds an entry. *)
Lemma removeHighlight_found i st index h :
  consistent st ->
  list_find (λ h, h_id h = i) (highlights st) = Some (index, h) ->
  body (document (removeHighlight i st).2) = delete index (body (document st)) ∧
  highlights (removeHighlight i st).2 = delete index (highlights st).
Proof.
  intros (HA & HB & _) Hfind. unfold removeHighlight. rewrite Hfind. cbn.
  split; [|reflexivity].
  apply list_find_Some in Hfind. destruct Hfind as (Hl & _).
  assert ((node <$> body (document st)) !! index = Some (h_element h)) as Hn.
  { rewrite HA, list_lookup_fmap, Hl. reflexivity. }
  rewrite list_lookup_fmap in Hn.
  destruct (body (document st) !! index) as [o|] eqn:Ho; [|discriminate Hn].
  injection Hn as <-. apply removeChild_delete; assumption.
Qed.

Lemma removeHighlight_consistent i st :
  consistent st -> consistent (removeHighlight i st).2.
Proof.
  intros Hc.
  destruct (list_find (λ h, h_id h = i) (highlights st)) as [[index h]|] eqn:Hfind.
  - destruct (removeHighlight_found i st index h Hc Hfind) as [Hb Hh].
    destruct Hc as (HA & HB & HC & HD).
    unfold consistent. rewrite Hb, Hh, !list_fmap_delete, HA.
    split; [reflexivity|]. split.
    { rewrite <- HA. eapply sublist_NoDup; [exact HB|apply sublist_delete]. }
    split.
    { intros o Ho. unfold removeHighlight. rewrite Hfind. cbn.
      apply HC. eapply elem_of_sublist; [exact Ho|apply sublist_delete]. }
    intros p Hp. unfold removeHighlight in *. rewrite Hfind in *. cbn in *.
    apply HD. destruct (h_timer h); [|exact Hp].
    unfold clearTimeout in Hp. apply list_elem_of_filter in Hp. apply Hp.
  - unfold removeHighlight. rewrite Hfind. exact Hc.
Qed.

Lemma removeAll_fold_consistent (l : list string) st :
  consistent st -> consistent (foldl (λ s i, (removeHighlight i s).2) st l).
Proof.
  revert st. induction l as [|i l IH]; intros st H; simpl; [exact H|].
  apply IH, removeHighlight_consistent, H.
Qed.

(** [updateHighlightPosition] moves overlays and does nothing else. *)
Lemma updateHighlightPosition_keeps i st :
  highlights (updateHighlightPosition querySelector i st).2 = highlights st ∧
  timers (updateHighlightPosition querySelector i st).2 = timers st ∧
  head (document (updateHighlightPosition querySelector i st).2)
  = head (document st) ∧
  identity <$> body (document (updateHighlightPosition querySelector i st).2)
  = identity <$> body (document st) ∧
  nextNode (updateHighlightPosition querySelector i st).2 = nextNode st ∧
  nextTimer (updateHighlightPosition querySelector i st).2 = nextTimer st.
Proof.
  unfold updateHighlightPosition.
  destruct (list_find _ _) as [[? h]|]; [|repeat split].
  destruct (querySelector _ _) as [rect|]; [|repeat split]. cbn.
  repeat split. rewrite <- list_fmap_compose. apply list_fmap_ext.
  intros ? o _. cbn. destruct (decide (node o = h_element h)); reflexivity.
Qed.

Lemma identity_node (b b' : list Overlay) :
  identity <$> b' = identity <$> b -> node <$> b' = node <$> b.
Proof.
  intros H. apply (f_equal (fmap fst)) in H.
  rewrite <- !list_fmap_compose in H. exact H.
Qed.

Lemma updateHighlightPosition_consistent i st :
  consistent st -> consistent (updateHighlightPosition querySelector i st).2.
Proof.
  intros (HA & HB & HC & HD).
  destruct (updateHighlightPosition_keeps i st) as (Hh & Ht & _ & Hb & Hn & Hm).
  pose proof (identity_node _ _ Hb) as Hb'.
  unfold consistent. rewrite Hh, Ht, Hn, Hm, Hb'.
  split; [exact HA|]. split; [exact HB|]. split; [|exact HD].
  intros o Ho.
  assert (node o ∈ node <$> body (document st)) as Hin.
  { rewrite <- Hb'. apply list_elem_of_fmap. exists o. split; [reflexivity|exact Ho]. }
  apply list_elem_of_fmap in Hin. destruct Hin as (o' & -> & Hin). apply HC, Hin.
Qed.

Lemma updateAll_fold_keeps (l : list HighlightEntry) st :
  let st' := foldl (λ s h, (updateHighlightPosition querySelector (h_id h) s).2) st l in
  highlights st' = highlights st ∧ timers st' = timers st ∧
  head (document st') = head (document st) ∧
  identity <$> body (document st') = identity <$> body (document st) ∧
  (consistent st -> consistent st').
Proof.
  revert st. induction l as [|h l IH]; intros st; cbn zeta; simpl foldl.
  { split; [reflexivity|]. split; [reflexivity|]. split; [reflexivity|].
    split; [reflexivity|]. intros Hc. exact Hc. }
  destruct (IH (updateHighlightPosition querySelector (h_id h) st).2)
    as (H1 & H2 & H3 & H4 & H5).
  destruct (updateHighlightPosition_keeps (h_id h) st) as (K1 & K2 & K3 & K4 & _).
  split; [congruence|]. split; [congruence|]. split; [congruence|].
  split; [congruence|]. intros Hc. apply H5, updateHighlightPosition_consistent, Hc.
Qed.

Lemma timeout_consistent t st : consistent st -> consistent (timeout t st).
Proof.
  intros Hc. unfold timeout.
  destruct (list_find _ _) as [[? [? i]]|]; [|exact Hc].
  apply removeHighlight_consistent.
  destruct Hc as (HA & HB & HC & HD). repeat split; try assumption.
  intros q Hq. cbn in Hq. unfold clearTimeout in Hq.
  apply list_elem_of_filter in Hq. apply HD, Hq.
Qed.

Lemma step_consistent st c : consistent st -> consistent (step querySelector st c).
Proof.
  intros Hc. destruct c as [selector options rnd|i| |i| |t]; simpl.
  - apply highlight_consistent, Hc.
  - apply removeHighlight_consistent, Hc.
  - apply removeAll_fold_consistent, Hc.
  - apply updateHighlightPosition_consistent, Hc.
  - apply (updateAll_fold_keeps (highlights st) st), Hc.
  - apply timeout_consistent, Hc.
Qed.

Lemma run_consistent cs : ∀ st,
  consistent st -> consistent (run querySelector st cs).
Proof.
  induction cs as [|c cs IH]; intros st Hc; simpl; [exact Hc|].
  apply IH, step_consistent, Hc.
Qed.

Lemma initial_consistent : consistent initial.
Proof.
  repeat split; try apply NoDup_nil_2; intros ? H; apply elem_of_nil in H; destruct H.
Qed.

(** **** The keyframes *)

Lemma removeHighlight_head i st :
  head (document (removeHighlight i st).2) = head (document st).
Proof.
  unfold removeHighlight. destruct (list_find _ _) as [[? ?]|]; reflexivity.
Qed.

Lemma removeAll_fold_head (l : list string) st :
  head (document (foldl (λ s i, (removeHighlight i s).2) st l)) = head (document st).
Proof.
  revert st. induction l as [|i l IH]; intros st; simpl; [reflexivity|].
  rewrite IH. apply removeHighlight_head.
Qed.

Lemma step_keyframes_once st c :
  keyframes_once st -> keyframes_once (step querySelector st c).
Proof.
  unfold keyframes_once. intros H.
  destruct c as [selector options rnd|i| |i| |t]; simpl.
  - unfold highlight.
    destruct (querySelector (document st) selector) as [rect|]; [|exact H].
    set (config := merge (defaults rnd) options).
    assert (head (document st) = [] ∨ head (document st) = ["highlight-keyframes"] ->
            (if pulseEffect config
             then if getElementById (document st) "highlight-keyframes"
                  then head (document st)
                  else head (document st) ++ ["highlight-keyframes"]
             else head (document st)) = [] ∨
            (if pulseEffect config
             then if getElementById (document st) "highlight-keyframes"
                  then head (document st)
                  else head (document st) ++ ["highlight-keyframes"]
             else head (document st)) = ["highlight-keyframes"]) as Hgen.
    { intros Hh. destruct (pulseEffect config); [|exact Hh].
      destruct (getElementById (document st) "highlight-keyframes") eqn:Hg;
        [exact Hh|].
      destruct Hh as [->|Hh]; [right; reflexivity|].
      unfold getElementById in Hg. rewrite Hh in Hg. cbn in Hg. discriminate Hg. }
    destruct (JS.ltb 0 (duration config)); cbn; apply Hgen, H.
  - rewrite removeHighlight_head. exact H.
  - rewrite removeAll_fold_head. exact H.
  - destruct (updateHighlightPosition_keeps i st) as (_ & _ & -> & _). exact H.
  - destruct (updateAll_fold_keeps (highlights st) st) as (_ & _ & -> & _). exact H.
  - unfold timeout. destruct (list_find _ _) as [[? [? i]]|]; [|exact H].
    rewrite removeHighlight_head. exact H.
Qed.

(** **** Looking up the last of a list *)

Lemma list_find_last {A} (P : A -> Prop) `{∀ x, Decision (P x)} (l : list A) (x : A) :
  Forall (λ y, ¬ P y) l -> P x -> list_find P (l ++ [x]) = Some (length l, x).
Proof.
  intros Hl Hx. induction Hl as [|y l Hy Hl IH]; simpl.
  - rewrite decide_True by exact Hx. reflexivity.
  - rewrite decide_False by exact Hy. rewrite IH. reflexivity.
Qed.

Lemma filter_drops_last {A} (P : A -> Prop) `{∀ x, Decision (P x)} (l : list A) (x : A) :
  Forall P l -> ¬ P x -> filter P (l ++ [x]) = l.
Proof.
  intros Hl Hx. rewrite filter_app, (filter_keeps_all P l Hl).
  rewrite filter_cons_False by exact Hx. rewrite filter_nil. apply app_nil_r.
Qed.

Lemma entries_fresh (i : string) (hs : list HighlightEntry) :
  i ∉ h_id <$> hs -> Forall (λ h, ¬ h_id h = i) hs.
Proof.
  intros Hi. apply Forall_forall. intros h Hh Heq. apply Hi.
  rewrite <- Heq. apply list_elem_of_fmap. exists h. split; [reflexivity|exact Hh].
Qed.

(** The state after a [highlight] with a timer and an id that is not
    tracked. *)
Lemma highlight_with_timer selector options rnd st rect :
  querySelector (document st) selector = Some rect ->
  JS.ltb 0 (duration (merge (defaults rnd) options)) = true ->
  id (merge (defaults rnd) options) ∉ ids st ->
  let config := merge (defaults rnd) options in
  highlight querySelector selector options rnd st =
  (Some (id config),
   {| highlights :=
        highlights st ++
        [mkEntry (id config) (nextNode st) selector (Some (nextTimer st))];
      document :=
        mkDocument
          (if pulseEffect config
           then if getElementById (document st) "highlight-keyframes"
                then head (document st)
                else head (document st) ++ ["highlight-keyframes"]
           else head (document st))
          (body (document st) ++
           [mkOverlay (nextNode st) (id config) rect
              (borderWidth config, color config)
              (color config, fillOpacity config)
              (zIndex config) (pulseEffect config)]);
      timers := timers st ++ [(nextTimer st, id config)];
      nextNode := S (nextNode st);
      nextTimer := Pos.succ (nextTimer st) |}).
Proof.
  intros Hq Hd Hfresh. unfold highlight. rewrite Hq. cbv zeta. rewrite Hd.
  rewrite (list_find_last
             (λ h, h_id h = id (merge (defaults rnd) options)) (highlights st)
             (mkEntry (id (merge (defaults rnd) options)) (nextNode st) selector None)
             (entries_fresh _ _ Hfresh) eq_refl).
  replace (length (highlights st)) with (length (highlights st) + 0) by lia.
  rewrite alter_app_r. reflexivity.
Qed.

End TrackingFacts.

(** X1.  [removeHighlight] with an id that no tracked entry has returns
    [false] and changes nothing. *)
Theorem removeHighlight_unknown_id (i : string) (st : Basic.State) :
  i ∉ Basic.ids st -> Basic.removeHighlight i st = (false, st).
Proof.
  intros Hi. unfold Basic.removeHighlight.
  rewrite (proj2 (list_find_None (λ h, Basic.h_id h = i) (Basic.highlights st))
                 (entries_fresh i _ Hi)).
  reflexivity.
Qed.

Lemma removeHighlight_unknown_id_witness :
  ("gone" ∉ Basic.ids (Basic.run Sample.everywhere Basic.initial Sample.fresh_calls)) ∧
  Basic.removeHighlight "gone"
    (Basic.run Sample.everywhere Basic.initial Sample.fresh_calls)
  = (false, Basic.run Sample.everywhere Basic.initial Sample.fresh_calls).
Proof.
  assert ("gone" ∉ Basic.ids
            (Basic.run Sample.everywhere Basic.initial Sample.fresh_calls)) as H.
  { vm_compute. intros H.
    repeat (apply elem_of_cons in H; destruct H as [H|H]; [discriminate H|]).
    apply elem_of_nil in H. exact H. }
  split; [exact H|].
  exact (removeHighlight_unknown_id "gone" _ H).
Defined.

(** X2.  [removeHighlight] with an id that is tracked returns [true] and
    drops the first entry with that id and nothing else: the entries before
    and after it stay, in order, and the timer stored in the dropped entry
    is no longer pending. *)
Theorem removeHighlight_drops_first (i : string) (st : Basic.State) :
  i ∈ Basic.ids st ->
  ∃ before h after,
    Basic.highlights st = before ++ h :: after ∧
    Basic.h_id h = i ∧
    (i ∉ Basic.h_id <$> before) ∧
    (Basic.removeHighlight i st).1 = true ∧
    Basic.highlights (Basic.removeHighlight i st).2 = before ++ after ∧
    (∀ t, Basic.h_timer h = Some t ->
          t ∉ (Basic.timers (Basic.removeHighlight i st).2).*1).
Proof.
  intros Hi. unfold Basic.ids in Hi. apply list_elem_of_fmap in Hi.
  destruct Hi as (h0 & Hid & Hin).
  destruct (list_find (λ h, Basic.h_id h = i) (Basic.highlights st))
    as [[index h]|] eqn:Hfind.
  - pose proof Hfind as Hf. apply list_find_Some in Hf.
    destruct Hf as (Hl & Hh & Hbefore).
    exists (take index (Basic.highlights st)), h,
           (drop (S index) (Basic.highlights st)).
    split; [symmetry; apply take_drop_middle, Hl|]. split; [exact Hh|]. split.
    { intros Hx. apply list_elem_of_fmap in Hx. destruct Hx as (y & Hy & Hyin).
      apply list_elem_of_lookup in Hyin. destruct Hyin as [j Hj].
      pose proof (lookup_lt_Some _ _ _ Hj) as Hlt. rewrite length_take in Hlt.
      rewrite lookup_take_lt in Hj by lia.
      apply (Hbefore j y Hj); [lia|congruence]. }
    unfold Basic.removeHighlight. rewrite Hfind. cbn.
    split; [reflexivity|]. split; [apply delete_take_drop|].
    intros t Ht Hx. rewrite Ht in Hx. apply list_elem_of_fmap in Hx.
    destruct Hx as (p & Hp & Hpin). unfold Basic.clearTimeout in Hpin.
    apply list_elem_of_filter in Hpin. destruct Hpin as [Hne _]. congruence.
  - exfalso. apply list_find_None in Hfind.
    rewrite Forall_forall in Hfind. apply (Hfind h0 Hin). congruence.
Qed.

Lemma removeHighlight_drops_first_witness :
  ("y" ∈ Basic.ids (Basic.run Sample.everywhere Basic.initial Sample.fresh_calls)) ∧
  (Basic.removeHighlight "y"
     (Basic.run Sample.everywhere Basic.initial Sample.fresh_calls)).1 = true.
Proof.
  assert ("y" ∈ Basic.ids
            (Basic.run Sample.everywhere Basic.initial Sample.fresh_calls)) as H
    by (vm_compute; apply list_elem_of_here).
  split; [exact H|].
  destruct (removeHighlight_drops_first "y" _ H) as (? & ? & ? & _ & _ & _ & Hr & _).
  exact Hr.
Defined.

(** X3.  Whatever is called, with whatever ids, and whichever timers
    expire, the overlays in the document are those of the tracked entries,
    one each and in the same order, and no overlay is in the document
    twice. *)
Theorem overlays_follow_entries
    (querySelector : Basic.Document -> string -> option DOMRect)
    (cs : list Basic.Call) :
  Basic.node <$> Basic.body (Basic.document (Basic.run querySelector Basic.initial cs))
  = Basic.h_element <$> Basic.highlights (Basic.run querySelector Basic.initial cs) ∧
  NoDup (Basic.node <$>
           Basic.body (Basic.document (Basic.run querySelector Basic.initial cs))).
Proof.
  destruct (run_consistent querySelector cs Basic.initial initial_consistent)
    as (HA & HB & _).
  split; assumption.
Qed.

(** X4.  The [style] element with the pulse keyframes is added to the head
    at most once, however many highlights are made. *)
Theorem keyframes_added_once
    (querySelector : Basic.Document -> string -> option DOMRect)
    (cs : list Basic.Call) :
  Basic.head (Basic.document (Basic.run querySelector Basic.initial cs)) = [] ∨
  Basic.head (Basic.document (Basic.run querySelector Basic.initial cs))
  = ["highlight-keyframes"].
Proof.
  assert (∀ st, Tracking.keyframes_once st ->
                Tracking.keyframes_once (Basic.run querySelector st cs)) as H.
  { induction cs as [|c cs IH]; intros st Hst; simpl; [exact Hst|].
    apply IH, step_keyframes_once, Hst. }
  apply (H Basic.initial). left. reflexivity.
Qed.

(** X5.  In a state the script can be in, a [highlight] with a positive
    duration and an id that is not tracked, followed by the expiry of the
    timer it started, leaves the tracked entries, the overlays in the
    document and the pending timers as they were before the call. *)
Theorem highlight_then_expiry
    (querySelector : Basic.Document -> string -> option DOMRect)
    (selector : string) (options : Basic.Options) (rnd : string)
    (st : Basic.State) :
  Tracking.consistent st ->
  is_Some (querySelector (Basic.document st) selector) ->
  JS.ltb 0 (Basic.duration (Basic.merge (Basic.defaults rnd) options)) = true ->
  Basic.id (Basic.merge (Basic.defaults rnd) options) ∉ Basic.ids st ->
  Basic.highlights
    (Basic.timeout (Basic.nextTimer st)
       (Basic.highlight querySelector selector options rnd st).2)
  = Basic.highlights st ∧
  Basic.body (Basic.document
    (Basic.timeout (Basic.nextTimer st)
       (Basic.highlight querySelector selector options rnd st).2))
  = Basic.body (Basic.document st) ∧
  Basic.timers
    (Basic.timeout (Basic.nextTimer st)
       (Basic.highlight querySelector selector options rnd st).2)
  = Basic.timers st.
Proof.
  intros (HA & HB & HC & HD) [rect Hq] Hd Hfresh.
  rewrite (highlight_with_timer querySelector selector options rnd st rect Hq Hd Hfresh).
  cbv zeta. cbn [snd].
  set (config := Basic.merge (Basic.defaults rnd) options) in *.
  assert (Forall (λ p : positive * string, p.1 ≠ Basic.nextTimer st) (Basic.timers st))
    as Hold.
  { apply Forall_forall. intros p Hp Heq. specialize (HD p Hp). lia. }
  unfold Basic.timeout. cbn [Basic.timers Basic.highlights Basic.document
                             Basic.nextNode Basic.nextTimer].
  rewrite (list_find_last (λ p : positive * string, p.1 = Basic.nextTimer st)
             (Basic.timers st) (Basic.nextTimer st, Basic.id config)).
  2: { eapply Forall_impl; [exact Hold|]. intros p Hp. exact Hp. }
  2: reflexivity.
  unfold Basic.clearTimeout.
  rewrite (filter_drops_last (λ p : positive * string, p.1 ≠ Basic.nextTimer st)
             (Basic.timers st) _ Hold) by (intros Hn; apply Hn; reflexivity).
  unfold Basic.removeHighlight.
  cbn [Basic.timers Basic.highlights Basic.document Basic.nextNode Basic.nextTimer].
  rewrite (list_find_last (λ h, Basic.h_id h = Basic.id config) (Basic.highlights st)
             (Basic.mkEntry (Basic.id config) (Basic.nextNode st) selector
                            (Some (Basic.nextTimer st)))
             (entries_fresh _ _ Hfresh) eq_refl).
  cbn [snd Basic.timers Basic.highlights Basic.document Basic.body
       Basic.h_timer Basic.h_element].
  split; [rewrite delete_middle; apply app_nil_r|]. split.
  - unfold Basic.removeChild. apply filter_drops_last.
    + apply Forall_forall. intros o Ho Heq. specialize (HC o Ho). lia.
    + intros Hn. apply Hn. reflexivity.
  - apply filter_keeps_all, Hold.
Qed.

Lemma highlight_then_expiry_witness :
  Basic.highlights
    (Basic.timeout (Basic.nextTimer Basic.initial)
       (Basic.highlight Sample.everywhere "#a" Basic.noOptions "r1" Basic.initial).2)
  = Basic.highlights Basic.initial.
Proof.
  destruct (highlight_then_expiry Sample.everywhere "#a" Basic.noOptions "r1"
              Basic.initial) as (H & _).
  - apply initial_consistent.
  - eexists. reflexivity.
  - reflexivity.
  - vm_compute. intros H. apply elem_of_nil in H. exact H.
  - exact H.
Defined.

(** X6.  [updateAllHighlightPositions] returns the number of tracked
    entries and only moves overlays: the tracked entries, the pending
    timers, the head of the document, and which overlays are in the
    document under which ids, are as before. *)
Theorem updateAllHighlightPositions_only_moves
    (querySelector : Basic.Document -> string -> option DOMRect)
    (st : Basic.State) :
  (Basic.updateAllHighlightPositions querySelector st).1
  = length (Basic.highlights st) ∧
  Basic.highlights (Basic.updateAllHighlightPositions querySelector st).2
  = Basic.highlights st ∧
  Basic.timers (Basic.updateAllHighlightPositions querySelector st).2
  = Basic.timers st ∧
  Basic.head (Basic.document (Basic.updateAllHighlightPositions querySelector st).2)
  = Basic.head (Basic.document st) ∧
  Tracking.identity <$>
    Basic.body (Basic.document (Basic.updateAllHighlightPositions querySelector st).2)
  = Tracking.identity <$> Basic.body (Basic.document st).
Proof.
  destruct (updateAll_fold_keeps querySelector (Basic.highlights st) st)
    as (H1 & H2 & H3 & H4 & _).
  unfold Basic.updateAllHighlightPositions. cbn [fst snd].
  rewrite H1. repeat split; assumption.
Qed.

(** * More on the DOM-tree scan *)

(** **** Walking a subtree, in general *)
Section Walk.

Import Adv.

Variable B : Browser.
Variable Pre : State -> Prop.
Variable R : State -> list Element -> State -> Prop.

Hypothesis R_refl : ∀ st, Pre st -> R st [] st.
Hypothesis R_trans : ∀ st l1 st1 l2 st2,
  R st l1 st1 -> R st1 l2 st2 -> R st (l1 ++ l2) st2.
Hypothesis R_pre : ∀ st l st', Pre st -> R st l st' -> Pre st'.
Hypothesis R_log : ∀ entry st, Pre st -> R st [] (log entry st).
Hypothesis R_enter : ∀ e pf nd st, Pre st -> Pre (classify B e pf nd st).2.
Hypothesis R_element : ∀ e pf nd nd' st sub st2,
  Pre st -> R (classify B e pf nd st).2 sub st2 ->
  R st (e :: sub) (store nd' st2).2.

Lemma forEachChild_walk
    (visit : node -> Position -> State -> State) eo parent children :
  Forall (λ child, ∀ p s, Pre s -> R s (visited child) (visit child p s)) children ->
  ∀ st, Pre st ->
    R st (flat_map visited children) (forEachChild visit eo parent children st).
Proof.
  intros Hall st Hpre. unfold forEachChild.
  generalize (@nil (nat * string)) as prev. revert st Hpre.
  induction Hall as [|child children Hch Hall IH]; intros st Hpre prev; simpl.
  - apply R_refl, Hpre.
  - assert (R st (visited child)
              (if eo && negb (nodeType child =? ELEMENT_NODE)%nat
               then st else visit child (Pos prev parent) st)) as Hstep.
    { destruct (eo && negb (nodeType child =? ELEMENT_NODE)%nat) eqn:Hskip;
        [|apply Hch, Hpre].
      destruct child as [ty name|e cs sh fr]; simpl.
      - apply R_refl, Hpre.
      - rewrite andb_comm in Hskip. discriminate Hskip. }
    eapply R_trans; [exact Hstep|].
    apply IH. eapply R_pre; [exact Hpre|exact Hstep].
Qed.

Lemma buildDomTree_walk n : ∀ pos pf st,
  Pre st -> R st (visited n) (buildDomTree B n pos pf st).2.
Proof.
  induction n as [ty name|e childNodes shadowRoot frame IHc IHs IHf]
    using node_ind; intros pos pf st Hpre.
  - simpl. apply R_refl, Hpre.
  - rewrite buildDomTree_Elem. simpl visited.
    destruct (String.eqb (id e) HIGHLIGHT_CONTAINER_ID); [apply R_refl, Hpre|].
    destruct (negb (isElementAccepted e)); [apply R_refl, Hpre|].
    cbv zeta. cbn [snd].
    set (nd := mkNodeData (JS.toLowerCase (tagName e)) (getXPathTree e pos true)
                          [] None None None None).
    pose proof (R_enter e pf nd st Hpre) as Hc.
    apply (R_element e pf nd); [exact Hpre|].
    destruct (isIframe e).
    + destruct frame as [| |bodyPos body]; simpl in IHf.
      * apply R_log, Hc.
      * apply R_refl, Hc.
      * apply IHf, Hc.
    + destruct shadowRoot as [children|]; simpl in IHs.
      * apply forEachChild_walk; [|exact Hc].
        eapply Forall_impl; [exact IHs|]. intros child Hch p s Hs. apply Hch, Hs.
      * apply forEachChild_walk; [|exact Hc].
        eapply Forall_impl; [exact IHc|]. intros child Hch p s Hs. apply Hch, Hs.
Qed.

End Walk.

Section ScanFacts.

Import Adv Scan.

Variable B : Browser.

(** **** The records *)

Lemma visible_ID e st :
  ID_current (isElementVisible B e st).2 = ID_current st.
Proof.
  unfold isElementVisible, getCachedComputedStyle. cbn [snd].
  destruct (computedStyles st !! ref e); reflexivity.
Qed.

Lemma top_ID e st :
  ID_current (isTopElement B e st).2 = ID_current st.
Proof.
  unfold isTopElement, getCachedBoundingRect. cbn [snd].
  destruct (boundingRects st !! ref e); reflexivity.
Qed.

Lemma highlightElement_ID e i pf st :
  ID_current (highlightElement B e i pf st).2 = ID_current st.
Proof.
  unfold highlightElement, drawOverlay.
  destruct (container st); [reflexivity|].
  destruct (document_body B); reflexivity.
Qed.

Lemma classify_ID e pf nd st :
  ID_current (classify B e pf nd st).2 = ID_current st.
Proof.
  unfold classify. cbv zeta.
  destruct (isElementVisible B e st).1; cbn [snd]; [|apply visible_ID].
  destruct (isTopElement B e _).1; cbn [snd];
    [|rewrite top_ID; apply visible_ID].
  destruct (isInteractiveElement e); cbn [snd];
    [|rewrite top_ID; apply visible_ID].
  rewrite highlightElement_ID. cbn [ID_current set_assigned set_highlightIndex].
  rewrite top_ID. apply visible_ID.
Qed.

Lemma recorded_refl st : recorded st [] st.
Proof.
  unfold recorded. cbn. split; [lia|]. rewrite (right_id_L ∅ (∪)). reflexivity.
Qed.

Lemma recorded_trans st l1 st1 l2 st2 :
  recorded st l1 st1 -> recorded st1 l2 st2 -> recorded st (l1 ++ l2) st2.
Proof.
  unfold recorded. intros [H1 D1] [H2 D2].
  rewrite length_app. split; [lia|].
  rewrite D2, D1, H1, seq_app, fmap_app, list_to_set_app_L, (assoc_L (∪)).
  reflexivity.
Qed.

Lemma recorded_element e pf nd nd' st sub st2 :
  recorded (classify B e pf nd st).2 sub st2 ->
  recorded st (e :: sub) (store nd' st2).2.
Proof.
  unfold recorded. rewrite classify_ID, classify_map. intros [H1 D1].
  unfold store.
  cbn [snd ID_current DOM_HASH_MAP set_DOM_HASH_MAP set_ID_current length].
  split; [lia|].
  rewrite dom_insert_L, (comm_L (∪) {[pretty (ID_current st2)]}), D1, H1.
  replace (S (length sub)) with (length sub + 1) by lia.
  rewrite seq_app, fmap_app, list_to_set_app_L. cbn.
  rewrite (right_id_L ∅ (∪)), (assoc_L (∪)). reflexivity.
Qed.

Lemma buildDomTree_recorded n pos pf st :
  recorded st (visited n) (buildDomTree B n pos pf st).2.
Proof.
  apply (buildDomTree_walk B (λ _, True) recorded).
  - intros. apply recorded_refl.
  - intros. eapply recorded_trans; eassumption.
  - intros. exact I.
  - intros entry s _. apply (recorded_refl (log entry s)).
  - intros. exact I.
  - intros. eapply recorded_element; eassumption.
  - exact I.
Qed.

(** **** The labels and the listeners *)

Lemma visible_listeners e st :
  listeners (isElementVisible B e st).2 = listeners st.
Proof.
  unfold isElementVisible, getCachedComputedStyle. cbn [snd].
  destruct (computedStyles st !! ref e); reflexivity.
Qed.

Lemma top_listeners e st :
  listeners (isTopElement B e st).2 = listeners st.
Proof.
  unfold isTopElement, getCachedBoundingRect. cbn [snd].
  destruct (boundingRects st !! ref e); reflexivity.
Qed.

Lemma labelTexts_container s t :
  container s = container t -> labelTexts s = labelTexts t.
Proof. unfold labelTexts. intros ->. reflexivity. Qed.

Lemma can_draw_container s t :
  container s = container t -> can_draw B s = can_draw B t.
Proof. unfold can_draw. intros ->. reflexivity. Qed.

Lemma highlightElement_drawn e i pf st :
  labelTexts (highlightElement B e i pf st).2
  = labelTexts st ++ (if can_draw B st then [i] else []) ∧
  listeners (highlightElement B e i pf st).2
  = listeners st ++ (if can_draw B st then listenersOf e else []).
Proof.
  unfold highlightElement, drawOverlay, can_draw, labelTexts.
  destruct (container st) as [children|] eqn:Hc.
  - cbn. rewrite omap_app. split; reflexivity.
  - destruct (document_body B); cbn; rewrite ?Hc, ?app_nil_r; split; reflexivity.
Qed.

Lemma drawn_still st st' :
  cache_ok B st' -> quiet st st' -> listeners st' = listeners st ->
  drawn B st [] st'.
Proof.
  intros Hc Hq Hl. split; [apply scanned_quiet; assumption|].
  cbn. destruct Hq as (_ & _ & Hcont).
  rewrite (labelTexts_container _ _ Hcont), Hl.
  destruct (can_draw B st); rewrite !app_nil_r; split; reflexivity.
Qed.

Lemma drawn_refl st : cache_ok B st -> drawn B st [] st.
Proof. intros Hc. apply drawn_still; [exact Hc|repeat split|reflexivity]. Qed.

Lemma snd_number_app l1 l2 k :
  (number (l1 ++ l2) k).*2 = (number l1 k).*2 ++ (number l2 (k + length l1)).*2.
Proof. rewrite number_app, fmap_app. reflexivity. Qed.

Lemma drawn_trans st l1 st1 l2 st2 :
  drawn B st l1 st1 -> drawn B st1 l2 st2 -> drawn B st (l1 ++ l2) st2.
Proof.
  intros (S1 & L1 & N1) (S2 & L2 & N2).
  split; [eapply scanned_trans; eassumption|].
  cbv zeta in *. destruct S1 as (_ & Hi1 & _ & Hd1 & _).
  rewrite filter_app, snd_number_app, flat_map_app.
  rewrite L2, L1, N2, N1, Hd1, Hi1.
  destruct (can_draw B st); rewrite <- ?app_assoc, ?app_nil_r; split; reflexivity.
Qed.

Lemma classify_drawn e pf nd st :
  cache_ok B st -> drawn B st [e] (classify B e pf nd st).2.
Proof.
  intros Hc. split; [apply classify_scanned, Hc|]. cbv zeta.
  rewrite filter_one. unfold highlightable.
  destruct (visible_spec B e st Hc) as (Hv & Hvc & Hvq). rewrite <- Hv.
  pose proof (visible_listeners e st) as Hvl.
  unfold classify. cbv zeta.
  set (sv := (isElementVisible B e st).2) in *.
  assert (∀ s, container s = container st -> listeners s = listeners st ->
               labelTexts s = labelTexts st ++ (if can_draw B st then [] else []) ∧
               listeners s = listeners st ++ (if can_draw B st then [] else []))
    as Hnone.
  { intros s Hcont Hl. rewrite (labelTexts_container _ _ Hcont), Hl.
    destruct (can_draw B st); rewrite !app_nil_r; split; reflexivity. }
  destruct (isElementVisible B e st).1; cbn [andb snd];
    [|apply Hnone; [apply Hvq|exact Hvl]].
  destruct (top_spec B e sv Hvc) as (Ht & Htc & Htq). rewrite <- Ht.
  pose proof (top_listeners e sv) as Htl.
  set (stt := (isTopElement B e sv).2) in *.
  assert (container stt = container st) as Hcont
    by (destruct Htq as (_ & _ & ->); apply Hvq).
  assert (listeners stt = listeners st) as Hlis by congruence.
  destruct (isTopElement B e sv).1; cbn [andb snd];
    [|apply Hnone; assumption].
  destruct (isInteractiveElement e); cbn [snd];
    [|apply Hnone; assumption].
  match goal with
  | |- context [highlightElement B e ?i pf ?s] =>
      destruct (highlightElement_drawn e i pf s) as [HL HN];
      assert (container s = container st) as Hcs by exact Hcont;
      assert (listeners s = listeners st) as Hls by exact Hlis
  end.
  rewrite HL, HN, (labelTexts_container _ _ Hcs), (can_draw_container _ _ Hcs), Hls.
  assert (highlightIndex stt = highlightIndex st) as ->.
  { destruct Htq as (-> & _). apply Hvq. }
  cbn. destruct (can_draw B st); rewrite ?app_nil_r; split; reflexivity.
Qed.

Lemma drawn_cache_ok st l st' : drawn B st l st' -> cache_ok B st'.
Proof. intros [H _]. apply H. Qed.

Lemma buildDomTree_drawn n pos pf st :
  cache_ok B st -> drawn B st (visited n) (buildDomTree B n pos pf st).2.
Proof.
  apply (buildDomTree_walk B (cache_ok B) (drawn B)).
  - apply drawn_refl.
  - apply drawn_trans.
  - intros s l s' _ H. eapply drawn_cache_ok, H.
  - intros entry s Hc. apply drawn_still; [exact Hc|repeat split|reflexivity].
  - intros e pf' nd s Hc. eapply drawn_cache_ok, classify_drawn, Hc.
  - intros e pf' nd nd' s sub s2 Hc Hsub.
    change (e :: sub) with ([e] ++ sub).
    rewrite <- (app_nil_r ([e] ++ sub)).
    eapply drawn_trans; [eapply drawn_trans; [apply classify_drawn, Hc|exact Hsub]|].
    apply drawn_still; [|repeat split|reflexivity].
    apply (drawn_cache_ok _ _ _ Hsub).
Qed.

Lemma snd_number l k : (number l k).*2 = seq k (length l).
Proof.
  revert k. induction l as [|e l IH]; intros k; cbn; [reflexivity|].
  f_equal. apply IH.
Qed.

Lemma length_listeners (l : list Element) :
  length (flat_map listenersOf l) = 2 * length l.
Proof. induction l as [|e l IH]; cbn; [reflexivity|]. rewrite IH. lia. Qed.

(** What a whole scan does, from the state it starts in after its
    resets. *)
Lemma scan_drawn options st :
  drawn B (removeAllHighlights (reset st))
    (visitedFrom (start B options))
    (findAndHighlightInteractiveElements B options st).2.
Proof.
  unfold findAndHighlightInteractiveElements, start. cbv zeta. cbn [fst snd].
  set (config := merge defaults options).
  set (s0 := removeAllHighlights (reset st)).
  assert (cache_ok B s0) as Hc0.
  { split; intros k v Hk; cbn in Hk; rewrite lookup_empty in Hk; discriminate Hk. }
  assert (drawn B s0 [] (startNode B config s0).2) as H1.
  { destruct (startNode_snd B config s0) as [->|[entry ->]].
    - apply drawn_refl, Hc0.
    - apply drawn_still; [exact Hc0|repeat split|reflexivity]. }
  rewrite (startNode_fst B config initial s0).
  destruct (startNode B config s0).1 as [[pos n]|]; simpl visitedFrom.
  - rewrite <- (app_nil_l (visited n)).
    eapply drawn_trans; [exact H1|].
    apply buildDomTree_drawn. eapply drawn_cache_ok, H1.
  - exact H1.
Qed.

Lemma scan_recorded options st :
  recorded (removeAllHighlights (reset st))
    (visitedFrom (start B options))
    (findAndHighlightInteractiveElements B options st).2.
Proof.
  unfold findAndHighlightInteractiveElements, start. cbv zeta. cbn [fst snd].
  set (config := merge defaults options).
  set (s0 := removeAllHighlights (reset st)).
  assert (recorded s0 [] (startNode B config s0).2) as H1.
  { destruct (startNode_snd B config s0) as [->|[entry ->]];
      [apply recorded_refl|apply (recorded_refl (log entry s0))]. }
  rewrite (startNode_fst B config initial s0).
  destruct (startNode B config s0).1 as [[pos n]|]; simpl visitedFrom.
  - rewrite <- (app_nil_l (visited n)).
    eapply recorded_trans; [exact H1|]. apply buildDomTree_recorded.
  - exact H1.
Qed.

End ScanFacts.

(** X7.  An element is accepted for the walk exactly when it has a tag
    name and the lower-cased name is not on the deny list; the list of
    names that are always accepted makes no difference. *)
Theorem accepted_unless_denied (element : Adv.Element) :
  Adv.isElementAccepted element
  = negb (String.eqb (Adv.tagName element) "") &&
    negb (JS.has Adv.leafElementDenyList (JS.toLowerCase (Adv.tagName element))).
Proof.
  unfold Adv.isElementAccepted.
  destruct (String.eqb (Adv.tagName element) ""); [reflexivity|]. cbn [negb andb].
  destruct (JS.has Adv.alwaysAccept (JS.toLowerCase (Adv.tagName element))) eqn:Ha;
    [|reflexivity].
  unfold JS.has in Ha. apply bool_decide_eq_true in Ha.
  unfold Adv.alwaysAccept in Ha.
  repeat (apply elem_of_cons in Ha; destruct Ha as [->|Ha]; [reflexivity|]).
  apply elem_of_nil in Ha. destruct Ha.
Qed.

(** X8.  A scan stores one record for each accepted element that the walk
    reaches, under the ids "0", "1", ...: afterwards the node-id counter is
    their number, and the keys of the mapping are the keys it had before
    together with these ids. *)
Theorem scan_stores_one_record_each
    (B : Adv.Browser) (options : Adv.Options) (st : Adv.State) :
  Adv.ID_current (Adv.findAndHighlightInteractiveElements B options st).2
  = length (Adv.visitedFrom (Adv.start B options)) ∧
  dom (Adv.DOM_HASH_MAP (Adv.findAndHighlightInteractiveElements B options st).2)
  = dom (Adv.DOM_HASH_MAP st) ∪
    list_to_set
      (pretty <$> seq 0 (length (Adv.visitedFrom (Adv.start B options)))).
Proof. exact (scan_recorded B options st). Qed.

(** X9.  When the document has a body, the labels that a scan leaves in the
    overlay container show 0, 1, 2, ... up to the count the scan returns,
    in document order. *)
Theorem labels_count_up
    (B : Adv.Browser) (options : Adv.Options) (st : Adv.State) :
  is_Some (Adv.document_body B) ->
  Scan.labelTexts (Adv.findAndHighlightInteractiveElements B options st).2
  = seq 0 (Adv.findAndHighlightInteractiveElements B options st).1.
Proof.
  intros [b Hb].
  destruct (scan_drawn B options st) as (Hs & Hl & _). cbv zeta in Hl.
  destruct Hs as (_ & Hi & _).
  change ((Adv.findAndHighlightInteractiveElements B options st).1)
    with (Adv.highlightIndex (Adv.findAndHighlightInteractiveElements B options st).2).
  rewrite Hl, Hi. unfold Adv.can_draw. cbn. rewrite Hb.
  apply snd_number.
Qed.

Lemma labels_count_up_witness :
  is_Some (Adv.document_body Sample.page) ∧
  Scan.labelTexts
    (Adv.findAndHighlightInteractiveElements Sample.page Sample.noOptions
       Adv.initial).2 = [0].
Proof.
  assert (is_Some (Adv.document_body Sample.page)) as H by (eexists; reflexivity).
  split; [exact H|].
  rewrite (labels_count_up Sample.page Sample.noOptions Adv.initial H).
  vm_compute. reflexivity.
Defined.

(** X10.  A scan never removes a listener: the [scroll] and [resize]
    listeners registered before it are all still there after it, followed
    by two new ones for every overlay it drew. *)
Theorem listeners_pile_up
    (B : Adv.Browser) (options : Adv.Options) (st : Adv.State) :
  ∃ new,
    Adv.listeners (Adv.findAndHighlightInteractiveElements B options st).2
    = Adv.listeners st ++ new ∧
    length new
    = 2 * Adv.overlays (Adv.findAndHighlightInteractiveElements B options st).2.
Proof.
  destruct (scan_drawn B options st) as (Hs & _ & Hn). cbv zeta in Hn.
  destruct Hs as (_ & _ & _ & _ & Ho).
  eexists. split; [exact Hn|]. rewrite Ho.
  change (Adv.overlays (Adv.removeAllHighlights (Adv.reset st))) with 0.
  destruct (Adv.can_draw B _); [apply length_listeners|reflexivity].
Qed.

(** * The layout cache and the look of an overlay *)

(** X11.  A rectangle that [getCachedBoundingRect] has returned for an
    element is returned again on every later call, without a new query and
    whatever the layout has become ([B'] is the browser at the later call),
    until [clearCache]; after [clearCache] the current rectangle is read. *)
Theorem cached_rect_is_reused
    (B B' : Adv.Browser) (element : Adv.Element) (st : Adv.State) :
  let r := Adv.getCachedBoundingRect B element st in
  Adv.getCachedBoundingRect B' element r.2 = r ∧
  (Adv.getCachedBoundingRect B' element (Adv.clearCache r.2)).1
  = Adv.getBoundingClientRect B' (Adv.ref element).
Proof.
  cbv zeta. split.
  - unfold Adv.getCachedBoundingRect.
    destruct (Adv.boundingRects st !! Adv.ref element) as [rect|] eqn:H; cbn.
    + rewrite H. reflexivity.
    + rewrite lookup_insert_eq. reflexivity.
  - unfold Adv.getCachedBoundingRect at 1. cbn. rewrite lookup_empty. reflexivity.
Qed.

(** X12.  The font size of a label is the half of the element's height,
    kept between 8 and 12 pixels. *)
Theorem label_font_size_bounds
    (B : Adv.Browser) (element : Adv.Element) (index : nat)
    (parentIframe : option Adv.Element) :
  (8 <= Adv.lb_fontSize (Adv.labelFor B element index parentIframe) <= 12)%Q.
Proof.
  unfold Adv.labelFor. cbn [Adv.lb_fontSize]. split.
  - apply Q.min_glb; [discriminate|apply Q.le_max_l].
  - apply Q.le_min_l.
Qed.

(** X13.  The box and the label of an element have one colour, which is a
    colour of the palette; the fill of the box is this colour at 10%
    opacity; and the colours come round again every twelve indices. *)
Theorem overlay_colours_cycle
    (B : Adv.Browser) (element : Adv.Element) (index : nat)
    (parentIframe : option Adv.Element) :
  let box := Adv.overlayFor B element index parentIframe in
  let label := Adv.labelFor B element index parentIframe in
  Adv.ov_border box ∈ Adv.COLORS ∧
  Adv.lb_background label = Adv.ov_border box ∧
  Adv.ov_backgroundColor box = Adv.ov_border box +:+ "1A" ∧
  Adv.ov_border (Adv.overlayFor B element (index + 12) parentIframe)
  = Adv.ov_border box.
Proof.
  cbv zeta. unfold Adv.overlayFor, Adv.labelFor.
  cbn [Adv.ov_border Adv.lb_background Adv.ov_backgroundColor].
  repeat split.
  - apply list_elem_of_lookup_total_2.
    apply Nat.mod_upper_bound. discriminate.
  - change (length Adv.COLORS) with 12.
    replace (index + 12) with (index + 1 * 12) by lia.
    rewrite Nat.Div0.mod_add. reflexivity.
Qed.

(** X14.  With [stopAtBoundary], the XPath of an element that sits right under
    a shadow root or an [iframe] is empty, and the XPath of its children
    does not name it: it is what it would be at the top of a document. *)
Theorem xpath_starts_below_the_boundary
    (element child : Adv.Element) (siblings siblings' : list (nat * string))
    (parent : Adv.Parent) :
  Adv.isBoundary parent = true ->
  Adv.isBoundary (Adv.ParentElement (Adv.tagName element) (Adv.Pos siblings parent))
  = false ->
  Adv.getXPathTree element (Adv.Pos siblings parent) true = "" ∧
  Adv.getXPathTree child
    (Adv.Pos siblings'
       (Adv.ParentElement (Adv.tagName element) (Adv.Pos siblings parent))) true
  = Adv.getXPathTree child (Adv.Pos siblings' Adv.ParentDocument) true.
Proof.
  intros Hp He. unfold Adv.getXPathTree.
  cbn [Adv.xpathSegments andb]. rewrite Hp, He. split; reflexivity.
Qed.

Lemma xpath_starts_below_the_boundary_witness :
  Adv.getXPathTree (Sample.el 1 "DIV" "host")
    (Adv.Pos [] Adv.ParentShadowRoot) true = "" ∧
  Adv.getXPathTree (Sample.el 2 "SPAN" "")
    (Adv.Pos [(1, "SPAN")]
       (Adv.ParentElement "DIV" (Adv.Pos [] Adv.ParentShadowRoot))) true
  = "span[2]".
Proof.
  exact (xpath_starts_below_the_boundary (Sample.el 1 "DIV" "host")
           (Sample.el 2 "SPAN" "") [] [(1, "SPAN")] Adv.ParentShadowRoot
           eq_refl eq_refl).
Defined.

(** * The highlighting of text *)
Section TextFacts.

Import Adv Text.

Lemma paint_app l1 l2 k :
  paint (l1 ++ l2) k = paint l1 k ++ paint l2 (k + length l1).
Proof.
  revert k. induction l1 as [|r l1 IH]; intros k; simpl.
  - rewrite Nat.add_0_r. reflexivity.
  - rewrite IH. do 3 f_equal. lia.
Qed.

Lemma paint_length l k : length (paint l k) = length l.
Proof. revert k. induction l as [|r l IH]; intros k; simpl; [|rewrite IH]; reflexivity. Qed.

Lemma painted_refl st : painted st [] st.
Proof.
  split; [cbn; lia|]. intros children H. cbn. rewrite app_nil_r. exact H.
Qed.

Lemma painted_trans st l1 st1 l2 st2 :
  painted st l1 st1 -> painted st1 l2 st2 -> painted st (l1 ++ l2) st2.
Proof.
  intros [H1 C1] [H2 C2]. split; [rewrite length_app; lia|].
  intros children Hc. rewrite (C2 _ (C1 _ Hc)), H1, paint_app, app_assoc.
  reflexivity.
Qed.

Lemma drawRects_painted (rects : list DOMRect) : ∀ st,
  painted st (filter (λ r, positive r = true) rects) (foldl drawRect st rects).
Proof.
  induction rects as [|r rects IH]; intros st; simpl.
  - apply painted_refl.
  - rewrite filter_cons. unfold drawRect at 2.
    destruct (positive r) eqn:Hp.
    + rewrite decide_True by reflexivity.
      change (r :: filter (λ r, positive r = true) rects)
        with ([r] ++ filter (λ r, positive r = true) rects).
      eapply painted_trans; [|apply IH].
      split; [cbn; lia|]. intros children Hc. cbn. rewrite Hc. reflexivity.
    + rewrite decide_False by discriminate. apply IH.
Qed.

Lemma children_painted (children : list tnode) :
  Forall (λ child, ∀ st, painted st (boxes child) (processTextNodes child st))
         children ->
  ∀ st, painted st (flat_map boxes children)
          (foldl (λ s child, processTextNodes child s) st children).
Proof.
  induction 1 as [|child children Hc Hall IH]; intros st; simpl.
  - apply painted_refl.
  - eapply painted_trans; [apply Hc|apply IH].
Qed.

Lemma processTextNodes_painted n : ∀ st,
  painted st (boxes n) (processTextNodes n st).
Proof.
  induction n as [ty name text parentElement rects children IH] using tnode_ind.
  intros st. simpl. destruct (skipped name); [apply painted_refl|].
  eapply painted_trans; [|apply children_painted, IH].
  destruct (isText ty text); cbn [andb]; [|apply painted_refl].
  destruct parentElement; [apply drawRects_painted|apply painted_refl].
Qed.

End TextFacts.

(** X15.  When the selector resolves and the document has a body,
    [highlightAllText] removes the overlays there were, draws one box for
    every rectangle of positive width and height of every text node that
    is not all white space (as [trim] strips it, the no-break space and the
    other Unicode spaces included), has a parent element and is not inside
    a [script] or [style] element, in the colours of the palette in turn,
    and returns the number of boxes: the container holds exactly these
    boxes. *)
Theorem highlightAllText_counts_its_boxes
    (B : Adv.Browser) (querySelector : string -> option Text.tnode)
    (parentSelector : string) (root : Text.tnode) (st : Adv.State) :
  querySelector parentSelector = Some root ->
  is_Some (Adv.document_body B) ->
  ∃ st',
    Text.highlightAllText B querySelector parentSelector st
    = Some (length (Text.boxes root), st') ∧
    Adv.container st' = Some (Text.paint (Text.boxes root) 0).
Proof.
  intros Hq [b Hb]. unfold Text.highlightAllText. rewrite Hq. cbv zeta.
  cbn [Adv.container Adv.log Adv.set_console Adv.reset Adv.clearCache
       Adv.set_computedStyles Adv.set_boundingRects Adv.set_ID_current
       Adv.set_assigned Adv.set_highlightIndex Adv.removeAllHighlights
       Adv.set_container].
  rewrite Hb.
  match goal with
  | |- context [Text.processTextNodes root ?s] =>
      destruct (processTextNodes_painted root s) as [Hi Hc]
  end.
  eexists. split.
  - rewrite Hi. reflexivity.
  - rewrite (Hc [] eq_refl). reflexivity.
Qed.

Lemma highlightAllText_counts_its_boxes_witness :
  Samples.paragraphs "#p" = Some Samples.paragraph ∧
  is_Some (Adv.document_body Sample.page) ∧
  fst <$> Text.highlightAllText Sample.page Samples.paragraphs "#p" Adv.initial
  = Some 2.
Proof.
  assert (is_Some (Adv.document_body Sample.page)) as Hb by (eexists; reflexivity).
  split; [reflexivity|]. split; [exact Hb|].
  destruct (highlightAllText_counts_its_boxes Sample.page Samples.paragraphs "#p"
              Samples.paragraph Adv.initial eq_refl Hb) as (st' & -> & _).
  reflexivity.
Defined.

(** A text node of one no-break space is blank for [trim]: no box is drawn
    for it and the count is 0. *)
Example no_break_space_is_blank :
  fst <$> Text.highlightAllText Sample.page
            (λ _, Some (Text.TNode 1 "P" [160%N] true []
                          [Text.TNode 3 "#text" [160%N] true [mkRect 0 0 4 16] []]))
            "p" Adv.initial
  = Some 0.
Proof. vm_compute. reflexivity. Qed.

(** X16.  When the selector resolves to nothing, [highlightAllText] returns
    0 and draws nothing, but has already removed the overlays there were
    and reset the counters. *)
Theorem highlightAllText_unknown_selector
    (B : Adv.Browser) (querySelector : string -> option Text.tnode)
    (parentSelector : string) (st : Adv.State) :
  querySelector parentSelector = None ->
  ∃ st',
    Text.highlightAllText B querySelector parentSelector st = Some (0, st') ∧
    Adv.container st' = None ∧
    Adv.highlightIndex st' = 0 ∧
    Adv.ID_current st' = 0 ∧
    Adv.DOM_HASH_MAP st' = Adv.DOM_HASH_MAP st.
Proof.
  intros Hq. unfold Text.highlightAllText. rewrite Hq. cbv zeta.
  eexists. split; [reflexivity|]. repeat split.
Qed.

Lemma highlightAllText_unknown_selector_witness :
  Samples.paragraphs "#none" = None ∧
  fst <$> Text.highlightAllText Sample.page Samples.paragraphs "#none"
     (Adv.findAndHighlightInteractiveElements Sample.page Sample.noOptions
        Adv.initial).2 = Some 0.
Proof.
  split; [reflexivity|].
  destruct (highlightAllText_unknown_selector Sample.page Samples.paragraphs "#none"
              (Adv.findAndHighlightInteractiveElements Sample.page Sample.noOptions
                 Adv.initial).2 eq_refl) as (st' & -> & _).
  reflexivity.
Defined.

(** X17.  In a document without a body, [highlightAllText] with a selector
    that resolves throws: the container cannot be created, and nothing
    catches the exception. *)
Theorem highlightAllText_needs_a_body
    (B : Adv.Browser) (querySelector : string -> option Text.tnode)
    (parentSelector : string) (st : Adv.State) :
  is_Some (querySelector parentSelector) ->
  Adv.document_body B = None ->
  Text.highlightAllText B querySelector parentSelector st = None.
Proof.
  intros [root Hq] Hb. unfold Text.highlightAllText. rewrite Hq. cbv zeta.
  cbn [Adv.container Adv.log Adv.set_console Adv.reset Adv.clearCache
       Adv.set_computedStyles Adv.set_boundingRects Adv.set_ID_current
       Adv.set_assigned Adv.set_highlightIndex Adv.removeAllHighlights
       Adv.set_container].
  rewrite Hb. reflexivity.
Qed.

Lemma highlightAllText_needs_a_body_witness :
  is_Some (Samples.paragraphs "#p") ∧
  Adv.document_body Sample.bodiless = None ∧
  Text.highlightAllText Sample.bodiless Samples.paragraphs "#p" Adv.initial = None.
Proof.
  assert (is_Some (Samples.paragraphs "#p")) as H by (eexists; reflexivity).
  split; [exact H|]. split; [reflexivity|].
  exact (highlightAllText_needs_a_body Sample.bodiless Samples.paragraphs "#p"
           Adv.initial H eq_refl).
Defined.

(** * The landmarks of the photo display *)
Section LandmarkFacts.

Import Landmarks.

Lemma connectPoints_is_Some (points : list Point) (indices : list nat) :
  is_Some (connectPoints points indices) ↔
  indices ≠ [] ∧ Forall (λ i, i < length points) indices.
Proof.
  destruct indices as [|first rest]; unfold connectPoints.
  - split; [intros [x H]; discriminate|intros [H _]; congruence].
  - rewrite Forall_cons, <- lookup_lt_is_Some.
    assert (is_Some (mapM (λ i, points !! i) rest)
            ↔ Forall (λ i, i < length points) rest) as Hrest.
    { rewrite mapM_is_Some. apply Forall_proper; [|reflexivity].
      intros i. unfold compose. apply lookup_lt_is_Some. }
    rewrite <- Hrest.
    destruct (points !! first) as [p|]; cbn [mbind option_bind].
    + destruct (mapM (λ i, points !! i) rest) as [ps|]; cbn [mbind option_bind].
      * split; [|intros _; eexists; reflexivity].
        intros _. split; [discriminate|]. split; eexists; reflexivity.
      * split; [intros [x H]; discriminate|].
        intros (_ & _ & [x H]). discriminate.
    + split; [intros [x H]; discriminate|].
      intros (_ & [x H] & _). discriminate.
Qed.

Lemma groups_in_range (n : nat) :
  Forall (λ g, g ≠ [] ∧ Forall (λ i, i < n) g) groups ↔ 68 <= n.
Proof.
  unfold groups. repeat rewrite Forall_cons. repeat rewrite Forall_nil.
  split.
  - intros H. decompose [and] H. lia.
  - intros H. repeat split; try discriminate; lia.
Qed.

Lemma canvas_is_Some (width height : Q) (landmarks : list Point)
    (originalWidth originalHeight : Q) :
  is_Some (canvas width height landmarks originalWidth originalHeight)
  ↔ 68 <= length landmarks.
Proof.
  unfold canvas. cbv zeta.
  rewrite <- groups_in_range.
  set (points := scaled _ _ <$> landmarks).
  assert (is_Some (mapM (connectPoints points) groups)
          ↔ Forall (λ g, g ≠ [] ∧ Forall (λ i, i < length landmarks) g) groups)
    as H.
  { rewrite mapM_is_Some. apply Forall_proper; [|reflexivity].
    intros g. unfold compose. rewrite connectPoints_is_Some.
    unfold points. rewrite length_fmap. reflexivity. }
  rewrite <- H. split.
  - intros [ops Ho]. destruct (mapM (connectPoints points) groups); [|discriminate].
    eexists. reflexivity.
  - intros [lines ->]. eexists. reflexivity.
Qed.

Lemma omap_skip {A B} (f : A -> option B) (a : A) (l : list A) :
  f a = None -> omap f (a :: l) = omap f l.
Proof. intros H. cbn. rewrite H. reflexivity. Qed.

Lemma arcs_dots (points : list Point) : arcs (flat_map dot points) = points.
Proof.
  induction points as [|[x y] points IH]; [reflexivity|].
  change (flat_map dot ((x, y) :: points))
    with (dot (x, y) ++ flat_map dot points).
  unfold arcs in *. rewrite omap_app, IH. reflexivity.
Qed.

Lemma strokes_dots (points : list Point) : strokes (flat_map dot points) = 0.
Proof.
  induction points as [|[x y] points IH]; [reflexivity|].
  change (flat_map dot ((x, y) :: points))
    with (dot (x, y) ++ flat_map dot points).
  unfold strokes in *. rewrite omap_app, length_app, IH. reflexivity.
Qed.

Lemma connectPoints_marks (points : list Point) (indices : list nat) ops :
  connectPoints points indices = Some ops -> arcs ops = [] ∧ strokes ops = 1.
Proof.
  destruct indices as [|first rest]; unfold connectPoints; [discriminate|].
  destruct (points !! first) as [p|]; cbn [mbind option_bind]; [|discriminate].
  destruct (mapM (λ i, points !! i) rest) as [ps|]; cbn [mbind option_bind];
    [|discriminate].
  intros [= <-]. unfold arcs, strokes.
  rewrite !omap_skip by reflexivity. rewrite !omap_app.
  assert (∀ A (f : CanvasOp -> option A),
            (∀ x y, f (LineTo x y) = None) ->
            omap f ((λ q : Point, LineTo q.1 q.2) <$> ps) = []) as H.
  { intros A f Hf. induction ps as [|q ps IH]; [reflexivity|].
    cbn. rewrite Hf. exact IH. }
  rewrite !H by reflexivity. split; reflexivity.
Qed.

Lemma lines_marks (points : list Point) (gs : list (list nat)) : ∀ lines,
  mapM (connectPoints points) gs = Some lines ->
  arcs (concat lines) = [] ∧ strokes (concat lines) = length gs.
Proof.
  induction gs as [|g gs IH]; intros lines.
  - intros [= <-]. split; reflexivity.
  - cbn [mapM]. destruct (connectPoints points g) as [ops|] eqn:Hg;
      cbn [mbind option_bind]; [|discriminate].
    destruct (mapM (connectPoints points) gs) as [rest|];
      cbn [mbind option_bind mret option_ret]; [|discriminate].
    intros [= <-]. destruct (IH rest eq_refl) as [Ha Hs].
    destruct (connectPoints_marks _ _ _ Hg) as [Ha1 Hs1].
    unfold arcs, strokes in *. cbn [concat]. rewrite !omap_app, length_app.
    rewrite Ha, Ha1, Hs, Hs1. split; reflexivity.
Qed.

End LandmarkFacts.

(** X18.  The [onload] handler of the photo throws, and so shows neither the
    landmarks nor the metrics panel, exactly when it is given original
    dimensions that are not zero and between 1 and 67 landmarks: the lines
    of the face need the 68 points of the landmark model. *)
Theorem onload_needs_68_landmarks
    (Number_toString : Q -> string) (width height : Q)
    (landmarks : option (list Landmarks.Point))
    (attractivenessScore : option Q) (metrics : option Photo.Metrics)
    (originalWidth originalHeight : option Q) :
  Landmarks.onload Number_toString width height landmarks attractivenessScore
    metrics originalWidth originalHeight = None
  ↔ JS.truthy_number originalWidth = true ∧
    JS.truthy_number originalHeight = true ∧
    ∃ l, landmarks = Some l ∧ 0 < length l < 68.
Proof.
  unfold Landmarks.onload, Landmarks.drawing.
  destruct landmarks as [l|]; cbn [default andb].
  - change (id l) with l.
    destruct (Nat.ltb_spec 0 (length l)) as [Hl|Hl]; cbn [andb].
    + destruct (JS.truthy_number originalWidth); cbn [andb];
        [|split; [discriminate|intros (H & _); discriminate]].
      destruct (JS.truthy_number originalHeight); cbn [andb];
        [|split; [discriminate|intros (_ & H & _); discriminate]].
      pose proof (canvas_is_Some width height l (default 0%Q originalWidth)
                    (default 0%Q originalHeight)) as Hc.
      destruct (Landmarks.canvas width height l _ _) as [ops|];
        cbn [mbind option_bind].
      * split; [discriminate|]. intros (_ & _ & l' & [= <-] & _ & Hlt).
        assert (68 <= length l) by (apply Hc; eexists; reflexivity). lia.
      * split; [|reflexivity]. intros _. repeat split; trivial.
        exists l. split; [reflexivity|]. split; [exact Hl|].
        destruct (le_lt_dec 68 (length l)) as [Hge|Hlt]; [|exact Hlt].
        apply Hc in Hge. destruct Hge as [x Hx]. discriminate.
    + split; [discriminate|]. intros (_ & _ & l' & [= <-] & Hpos & _). lia.
  - split; [discriminate|]. intros (_ & _ & l' & H & _). discriminate.
Qed.

(** X19.  When the handler does not throw, the metrics panel is the last
    thing it appends, after the canvas if there are landmarks to draw; the
    canvas has one dot for every landmark, in order, at the landmark scaled
    from the original size to the size shown, and nine lines. *)
Theorem onload_appends
    (Number_toString : Q -> string) (width height : Q)
    (landmarks : option (list Landmarks.Point))
    (attractivenessScore : option Q) (metrics : option Photo.Metrics)
    (originalWidth originalHeight : option Q)
    (appended : list Landmarks.WrapperChild) :
  Landmarks.onload Number_toString width height landmarks attractivenessScore
    metrics originalWidth originalHeight = Some appended ->
  let panel :=
    Landmarks.MetricsOverlay
      (Photo.metricsHtml Number_toString attractivenessScore metrics) in
  if Landmarks.drawing landmarks originalWidth originalHeight
  then ∃ ops, appended = [Landmarks.Canvas ops; panel] ∧
       Landmarks.arcs ops
       = Landmarks.scaled (width / default 0%Q originalWidth)
                          (height / default 0%Q originalHeight)
         <$> default [] landmarks ∧
       Landmarks.strokes ops = 9
  else appended = [panel].
Proof.
  unfold Landmarks.onload. cbv zeta.
  destruct (Landmarks.drawing landmarks originalWidth originalHeight).
  - unfold Landmarks.canvas. cbv zeta.
    set (points := Landmarks.scaled _ _ <$> default [] landmarks).
    destruct (mapM (Landmarks.connectPoints points) Landmarks.groups)
      as [lines|] eqn:Hl; cbn [mbind option_bind]; [|discriminate].
    intros [= <-]. eexists. split; [reflexivity|].
    destruct (lines_marks _ _ _ Hl) as [Ha Hs].
    unfold Landmarks.arcs, Landmarks.strokes in *.
    rewrite !omap_app, length_app, Ha, Hs.
    fold (Landmarks.arcs (flat_map Landmarks.dot points)).
    fold (Landmarks.strokes (flat_map Landmarks.dot points)).
    rewrite arcs_dots, strokes_dots, app_nil_r. split; reflexivity.
  - cbn [mbind option_bind]. intros [= <-]. reflexivity.
Qed.

Lemma onload_appends_witness :
  ∃ appended ops,
    Landmarks.onload (λ _, "7") 100 100 (Some (replicate 68 (2, 4)%Q)) (Some 7%Q)
      None (Some 200%Q) (Some 200%Q) = Some appended ∧
    appended = [Landmarks.Canvas ops; Landmarks.MetricsOverlay Photo.unavailable] ∧
    length (Landmarks.arcs ops) = 68 ∧
    Landmarks.strokes ops = 9.
Proof.
  destruct (Landmarks.onload (λ _, "7") 100 100 (Some (replicate 68 (2, 4)%Q))
              (Some 7%Q) None (Some 200%Q) (Some 200%Q)) as [appended|] eqn:H;
    [|vm_compute in H; discriminate].
  pose proof (onload_appends _ _ _ _ _ _ _ _ appended H) as T.
  cbv zeta in T.
  change (Landmarks.drawing (Some (replicate 68 (2, 4)%Q)) (Some 200%Q) (Some 200%Q))
    with true in T.
  destruct T as (ops & -> & Ha & Hs).
  eexists; exists ops. split; [reflexivity|]. split; [reflexivity|].
  split; [rewrite Ha, length_fmap; reflexivity|exact Hs].
Defined.

(** * The life of the panels *)
Section PanelFacts.

Import Panels.

Lemma uids_filter_out (kind : Node -> bool) (c : nat) (kids : list Node) :
  uid <$> filter (λ n, kind n = true) (filter (λ n, uid n ≠ c) kids)
  = filter (λ u, u ≠ c) (uid <$> filter (λ n, kind n = true) kids).
Proof.
  induction kids as [|n kids IH]; [reflexivity|].
  rewrite !filter_cons.
  destruct (decide (uid n ≠ c)) as [Hn|Hn], (decide (kind n = true)) as [Hk|Hk].
  - rewrite filter_cons, decide_True by exact Hk.
    rewrite !fmap_cons, filter_cons, decide_True by exact Hn.
    rewrite IH. reflexivity.
  - rewrite filter_cons, decide_False by exact Hk. exact IH.
  - rewrite !fmap_cons, filter_cons, decide_False by exact Hn. exact IH.
  - exact IH.
Qed.

Lemma uids_filter_app (kind : Node -> bool) (kids : list Node) (new : Node) :
  uid <$> filter (λ n, kind n = true) (kids ++ [new])
  = (uid <$> filter (λ n, kind n = true) kids)
    ++ (if kind new then [uid new] else []).
Proof.
  rewrite filter_app, fmap_app. f_equal.
  rewrite filter_cons. destruct (kind new).
  - rewrite decide_True by reflexivity. reflexivity.
  - rewrite decide_False by discriminate. reflexivity.
Qed.

Lemma uid_inj (kids : list Node) (n m : Node) :
  NoDup (uid <$> kids) -> n ∈ kids -> m ∈ kids -> uid n = uid m -> n = m.
Proof.
  induction kids as [|k kids IH]; intros Hd Hn Hm Hu.
  - inversion Hn.
  - rewrite fmap_cons in Hd. apply NoDup_cons in Hd as [Hk Hd].
    apply elem_of_cons in Hn as [->|Hn], Hm as [->|Hm].
    + reflexivity.
    + exfalso. apply Hk. rewrite Hu. apply list_elem_of_fmap_2. exact Hm.
    + exfalso. apply Hk. rewrite <- Hu. apply list_elem_of_fmap_2. exact Hn.
    + exact (IH Hd Hn Hm Hu).
Qed.

Lemma filter_out_absent (c : nat) (l : list nat) :
  c ∉ l -> filter (λ u, u ≠ c) l = l.
Proof.
  induction l as [|u l IH]; intros Hc; [reflexivity|].
  apply not_elem_of_cons in Hc as [Hu Hc].
  rewrite filter_cons, decide_True by congruence.
  rewrite IH by exact Hc. reflexivity.
Qed.

Lemma NoDup_uids_filter (P : Node -> Prop) `{∀ n, Decision (P n)}
    (kids : list Node) :
  NoDup (uid <$> kids) -> NoDup (uid <$> filter P kids).
Proof.
  intros Hd. eapply sublist_NoDup; [exact Hd|].
  apply fmap_sublist, sublist_filter.
Qed.

(** A child whose identity is among the panels of a kind is one. *)
Lemma held_kind (kind : Node -> bool) (st : State) (n : Node) :
  NoDup (uid <$> children st) -> n ∈ children st ->
  uid n ∈ held kind st -> kind n = true.
Proof.
  intros Hd Hn Hu. unfold held in Hu.
  apply list_elem_of_fmap in Hu as (m & Hu & Hm).
  apply list_elem_of_filter in Hm as [Hk Hm].
  rewrite (uid_inj _ n m Hd Hn Hm Hu). exact Hk.
Qed.

Lemma tidy_remove (st : State) (kids : list Node) (c s : nat)
    (dc lc : option nat) :
  tidy st -> body st = Some kids ->
  filter (λ u, u ≠ c) (option_list (displayContainer st)) = option_list dc ->
  filter (λ u, u ≠ c) (option_list (loadingContainer st)) = option_list lc ->
  tidy (mkState (Some (filter (λ n, uid n ≠ c) kids)) s dc lc (nextNode st)).
Proof.
  intros (_ & Hd & Hb & Hr & Hl) Hk Hdc Hlc.
  unfold tidy, held, children in *. rewrite Hk in *. cbn in *.
  split; [eexists; reflexivity|]. split; [apply NoDup_uids_filter, Hd|].
  split; [intros n Hn; apply list_elem_of_filter in Hn as [_ Hn]; exact (Hb n Hn)|].
  rewrite !uids_filter_out, Hr, Hl. split; assumption.
Qed.

Lemma tidy_append (st : State) (kids : list Node) (new : Node) (s : nat)
    (dc lc : option nat) :
  tidy st -> body st = Some kids -> uid new = nextNode st ->
  option_list (displayContainer st) ++ (if isResearch new then [uid new] else [])
  = option_list dc ->
  option_list (loadingContainer st) ++ (if isLoading new then [uid new] else [])
  = option_list lc ->
  tidy (mkState (Some (kids ++ [new])) s dc lc (S (nextNode st))).
Proof.
  intros (_ & Hd & Hb & Hr & Hl) Hk Hu Hdc Hlc.
  unfold tidy, held, children in *. rewrite Hk in *. cbn in *.
  split; [eexists; reflexivity|]. split.
  { rewrite fmap_app. apply NoDup_app. split; [exact Hd|]. split.
    - intros u Hin Hnew. apply list_elem_of_fmap in Hin as (n & -> & Hn).
      apply list_elem_of_singleton in Hnew. specialize (Hb n Hn). lia.
    - apply NoDup_singleton. }
  split.
  { intros n Hn. apply elem_of_app in Hn as [Hn|Hn].
    - specialize (Hb n Hn). lia.
    - apply list_elem_of_singleton in Hn as ->. lia. }
  rewrite !uids_filter_app, Hr, Hl. split; assumption.
Qed.

(** Removing a child that is no research or loading panel. *)
Lemma tidy_remove_other (st : State) (n : Node) :
  tidy st -> n ∈ children st -> isResearch n = false -> isLoading n = false ->
  tidy (remove (uid n) st).
Proof.
  intros Ht Hn Hr Hl. pose proof Ht as ([kids Hk] & Hd & _ & Er & El).
  unfold remove. rewrite Hk. unfold set_body. cbn [fmap option_fmap option_map].
  apply (tidy_remove st kids); [exact Ht|exact Hk| |].
  - apply filter_out_absent. rewrite <- Er. intros Hin.
    apply (held_kind isResearch st n Hd Hn) in Hin. congruence.
  - apply filter_out_absent. rewrite <- El. intros Hin.
    apply (held_kind isLoading st n Hd Hn) in Hin. congruence.
Qed.

Lemma find_by_uid (kids : list Node) (c : nat) :
  c ∈ uid <$> kids -> ∃ n, n ∈ kids ∧ uid n = c.
Proof.
  intros H. apply list_elem_of_fmap in H as (n & -> & Hn). eauto.
Qed.

Lemma removeResearchDisplay_tidy (st : State) :
  tidy st ->
  ∃ st', removeResearchDisplay st = Returns st' ∧ tidy st' ∧
         displayContainer st' = None ∧ styles st' = styles st.
Proof.
  intros Ht. pose proof Ht as ([kids Hk] & Hd & _ & Er & El).
  unfold removeResearchDisplay.
  destruct (displayContainer st) as [c|] eqn:Hc; [|eauto].
  assert (c ∈ held isResearch st) as Hin by (rewrite Er; cbn; left).
  assert (∃ n, n ∈ children st ∧ uid n = c ∧ isResearch n = true)
    as (n & Hn & Hu & Hr).
  { unfold held in Hin. apply list_elem_of_fmap in Hin as (n & -> & Hn).
    apply list_elem_of_filter in Hn as [Hr Hn]. eauto. }
  unfold removeChild. rewrite Hk.
  rewrite bool_decide_eq_true_2.
  2:{ unfold children in Hn. rewrite Hk in Hn. cbn in Hn.
      rewrite <- Hu. apply list_elem_of_fmap_2. exact Hn. }
  cbn. eexists. split; [reflexivity|]. split; [|split; reflexivity].
  apply (tidy_remove st kids); [exact Ht|exact Hk| |].
  - rewrite Hc. unfold option_list at 1. cbn [from_option option_rect].
    rewrite filter_cons, decide_False by (intros H; congruence).
    reflexivity.
  - cbn [loadingContainer set_body]. apply filter_out_absent.
    rewrite <- El, <- Hu. intros Hl.
    apply (held_kind isLoading st n Hd Hn) in Hl.
    unfold isResearch, isLoading in *. destruct (content n); discriminate.
Qed.

Lemma hide_tidy (st : State) :
  tidy st ->
  ∃ st', hide st = Returns st' ∧ tidy st' ∧
         loadingContainer st' = None ∧ styles st' = styles st.
Proof.
  intros Ht. pose proof Ht as ([kids Hk] & Hd & _ & Er & El).
  unfold hide.
  destruct (loadingContainer st) as [c|] eqn:Hc; [|eauto].
  assert (c ∈ held isLoading st) as Hin by (rewrite El; cbn; left).
  assert (∃ n, n ∈ children st ∧ uid n = c ∧ isLoading n = true)
    as (n & Hn & Hu & Hl).
  { unfold held in Hin. apply list_elem_of_fmap in Hin as (n & -> & Hn).
    apply list_elem_of_filter in Hn as [Hl Hn]. eauto. }
  unfold removeChild. rewrite Hk.
  rewrite bool_decide_eq_true_2.
  2:{ unfold children in Hn. rewrite Hk in Hn. cbn in Hn.
      rewrite <- Hu. apply list_elem_of_fmap_2. exact Hn. }
  cbn. eexists. split; [reflexivity|]. split; [|split; reflexivity].
  apply (tidy_remove st kids); [exact Ht|exact Hk| |].
  - cbn [displayContainer set_body]. apply filter_out_absent.
    rewrite <- Er, <- Hu. intros Hr.
    apply (held_kind isResearch st n Hd Hn) in Hr.
    unfold isResearch, isLoading in *. destruct (content n); discriminate.
  - rewrite Hc. unfold option_list at 1. cbn [from_option option_rect].
    rewrite filter_cons, decide_False by (intros H; congruence).
    reflexivity.
Qed.

Lemma displayResearch_tidy (data : Research.ResearchResult) (st : State) :
  tidy st ->
  ∃ st', displayResearch data st = Returns st' ∧ tidy st' ∧
         styles st' = styles st.
Proof.
  intros Ht. unfold displayResearch, createDisplayContainer.
  destruct (removeResearchDisplay_tidy st Ht) as (st1 & -> & Ht1 & Hc1 & Hs1).
  cbn [andThen]. pose proof Ht1 as ([kids Hk] & _).
  unfold appendChild. cbn [body set_nextNode]. rewrite Hk. cbn.
  eexists. split; [reflexivity|]. split; [|exact Hs1].
  apply (tidy_append st1 kids); [exact Ht1|exact Hk|reflexivity| |].
  - rewrite Hc1. reflexivity.
  - cbn. apply app_nil_r.
Qed.

Lemma show_tidy (message : option string) (st : State) :
  tidy st ->
  ∃ st', show message st = Returns st' ∧ tidy st' ∧
         styles st' = S (styles st).
Proof.
  intros Ht. unfold show.
  destruct (hide_tidy st Ht) as (st1 & -> & Ht1 & Hc1 & Hs1).
  cbn [andThen]. pose proof Ht1 as ([kids Hk] & _).
  unfold appendChild. cbn [body set_nextNode set_styles]. rewrite Hk. cbn.
  eexists. split; [reflexivity|]. split; [|rewrite Hs1; reflexivity].
  apply (tidy_append st1 kids); [exact Ht1|exact Hk|reflexivity| |].
  - cbn. apply app_nil_r.
  - rewrite Hc1. reflexivity.
Qed.

Lemma getElementById_photo (st : State) (n : Node) :
  getElementById "photo-display-container" st = Some n ->
  n ∈ children st ∧ isResearch n = false ∧ isLoading n = false.
Proof.
  unfold getElementById, children. destruct (body st) as [kids|]; [|discriminate].
  intros H. apply head_Some_elem_of in H.
  apply list_elem_of_filter in H as [Hi Hn]. split; [exact Hn|].
  unfold elementId, isResearch, isLoading in *.
  destruct (content n); try discriminate; split; reflexivity.
Qed.

Lemma removePhotoDisplay_tidy (st : State) :
  tidy st ->
  tidy (removePhotoDisplay st) ∧ styles (removePhotoDisplay st) = styles st.
Proof.
  intros Ht. unfold removePhotoDisplay.
  destruct (getElementById _ st) as [n|] eqn:Hg; [|split; [exact Ht|reflexivity]].
  apply getElementById_photo in Hg as (Hn & Hr & Hl).
  split; [apply tidy_remove_other; assumption|reflexivity].
Qed.

Lemma displayPhoto_tidy (url : string) (st : State) :
  tidy st ->
  ∃ st', displayPhoto url st = Returns st' ∧ tidy st' ∧ styles st' = styles st.
Proof.
  intros Ht. unfold displayPhoto. cbv zeta.
  destruct (removePhotoDisplay_tidy st Ht) as [Ht1 Hs1].
  pose proof Ht1 as ([kids Hk] & _).
  unfold appendChild. cbn [body set_nextNode]. rewrite Hk. cbn.
  eexists. split; [reflexivity|]. split; [|exact Hs1].
  apply (tidy_append (removePhotoDisplay st) kids);
    [exact Ht1|exact Hk|reflexivity| |]; cbn; apply app_nil_r.
Qed.

Lemma click_tidy (c : nat) (st : State) :
  tidy st -> tidy (click c st) ∧ styles (click c st) = styles st.
Proof.
  intros Ht. unfold click.
  destruct (body st) as [kids|] eqn:Hk; [|split; [exact Ht|reflexivity]].
  destruct (list_find _ kids) as [[i [u k]]|] eqn:Hf;
    [|split; [exact Ht|reflexivity]].
  apply list_find_Some in Hf as (Hi & Hu & _). cbn in Hu. subst u.
  destruct k; try (split; [exact Ht|reflexivity]).
  split; [|reflexivity].
  apply (tidy_remove_other st (mkNode c (PhotoPanel url))); try reflexivity;
    [exact Ht|].
  unfold children. rewrite Hk. cbn. eapply list_elem_of_lookup_2, Hi.
Qed.

Lemma call_tidy (c : Call) (st : State) :
  tidy st ->
  ∃ st', call c st = Returns st' ∧ tidy st' ∧
         styles st' = styles st + (if isShow c then 1 else 0).
Proof.
  intros Ht. destruct c; cbn [call isShow]; rewrite ?Nat.add_0_r.
  - apply displayResearch_tidy, Ht.
  - destruct (removeResearchDisplay_tidy st Ht) as (st' & H & Ht' & _ & Hs).
    eauto.
  - destruct (show_tidy message st Ht) as (st' & H & Ht' & Hs).
    exists st'. split; [exact H|]. split; [exact Ht'|lia].
  - destruct (hide_tidy st Ht) as (st' & H & Ht' & _ & Hs). eauto.
  - apply displayPhoto_tidy, Ht.
  - destruct (removePhotoDisplay_tidy st Ht). eauto.
  - destruct (click_tidy c st Ht). eauto.
Qed.

Lemma run_tidy (calls : list Call) : ∀ st,
  tidy st ->
  ∃ st', run calls st = Returns st' ∧ tidy st' ∧
         styles st' = styles st + length (filter (λ c, isShow c = true) calls).
Proof.
  induction calls as [|c calls IH]; intros st Ht.
  - exists st. cbn. rewrite Nat.add_0_r. auto.
  - destruct (call_tidy c st Ht) as (st1 & Hc & Ht1 & Hs1).
    destruct (IH st1 Ht1) as (st2 & Hr & Ht2 & Hs2).
    exists st2. cbn [run]. rewrite Hc. cbn [andThen].
    split; [exact Hr|]. split; [exact Ht2|].
    rewrite Hs2, Hs1, filter_cons. destruct (isShow c).
    + rewrite decide_True by reflexivity. cbn [length]. lia.
    + rewrite decide_False by discriminate. lia.
Qed.

Lemma initial_tidy : tidy initial.
Proof.
  unfold tidy, initial, held, children. cbn.
  split; [eexists; reflexivity|]. split; [apply NoDup_nil_2|].
  split; [intros n H; inversion H|]. split; reflexivity.
Qed.

Lemma stuck_removeChild (c : nat) (st : State) :
  c ∉ uid <$> children st -> removeChild c st = Throws st.
Proof.
  intros Hc. unfold removeChild, children in *.
  destruct (body st) as [kids|]; [|reflexivity].
  rewrite bool_decide_eq_false_2 by exact Hc. reflexivity.
Qed.

Lemma withId_remove (i : string) (c : nat) (kids : list Node) :
  filter (λ n, elementId n = i) (filter (λ n, uid n ≠ c) kids)
  = filter (λ n, uid n ≠ c) (filter (λ n, elementId n = i) kids).
Proof.
  induction kids as [|n kids IH]; [reflexivity|].
  rewrite !filter_cons.
  destruct (decide (uid n ≠ c)) as [Hn|Hn], (decide (elementId n = i)) as [Hi|Hi].
  - rewrite !filter_cons, decide_True by exact Hi.
    rewrite decide_True by exact Hn. rewrite IH. reflexivity.
  - rewrite filter_cons, decide_False by exact Hi. exact IH.
  - rewrite filter_cons, decide_False by exact Hn. exact IH.
  - exact IH.
Qed.

(** Without the first element that has the id, when there is at most
    one, none has it. *)
Lemma withId_removed (i : string) (kids : list Node) :
  length (filter (λ n, elementId n = i) kids) <= 1 ->
  filter (λ n, elementId n = i)
    (match head (filter (λ n, elementId n = i) kids) with
     | Some n => filter (λ m, uid m ≠ uid n) kids
     | None => kids
     end) = [].
Proof.
  intros Hl.
  destruct (filter (λ n, elementId n = i) kids) as [|n [|m rest]] eqn:Hf;
    cbn [head]; [exact Hf| |cbn in Hl; lia].
  rewrite withId_remove, Hf, filter_cons, decide_False by (intros H; congruence).
  reflexivity.
Qed.

Lemma filter_keeps_older (c : nat) (kids : list Node) :
  (∀ n, n ∈ kids -> uid n < c) -> filter (λ n, uid n ≠ c) kids = kids.
Proof.
  induction kids as [|k kids IH]; intros Hb; [reflexivity|].
  rewrite filter_cons, decide_True.
  - rewrite IH; [reflexivity|]. intros n Hn. apply Hb. right. exact Hn.
  - specialize (Hb k (list_elem_of_here _ _)). lia.
Qed.

Lemma find_none_older (c : nat) (kids : list Node) :
  (∀ n, n ∈ kids -> uid n < c) -> list_find (λ n, uid n = c) kids = None.
Proof.
  intros Hb. apply list_find_None. apply Forall_forall. intros n Hn.
  specialize (Hb n Hn). lia.
Qed.

End PanelFacts.

(** X20.  From a state in which the panels in the document are the ones that
    [researchDisplay] and [loadingIndicator] hold, no sequence of calls of
    the three scripts, and of clicks, throws, and the document never has
    more than one research panel and one loading panel. *)
Theorem panels_never_pile_up (calls : list Panels.Call) (st : Panels.State) :
  Panels.tidy st ->
  ∃ st',
    Panels.run calls st = Panels.Returns st' ∧
    length (Panels.held Panels.isResearch st') <= 1 ∧
    length (Panels.held Panels.isLoading st') <= 1.
Proof.
  intros Ht. destruct (run_tidy calls st Ht) as (st' & Hr & Ht' & _).
  exists st'. split; [exact Hr|].
  destruct Ht' as (_ & _ & _ & -> & ->).
  split; [destruct (Panels.displayContainer st')
         |destruct (Panels.loadingContainer st')]; cbn; lia.
Qed.

Lemma panels_never_pile_up_witness :
  ∃ st',
    Panels.run Samples.panel_calls Panels.initial = Panels.Returns st' ∧
    length (Panels.held Panels.isResearch st') <= 1 ∧
    length (Panels.held Panels.isLoading st') <= 1.
Proof.
  exact (panels_never_pile_up Samples.panel_calls Panels.initial initial_tidy).
Defined.

(** X21.  Every call of [show] leaves one more [style] element in the head
    of the document, and nothing removes one: after a sequence of calls
    there are as many more as there were calls of [show]. *)
Theorem show_leaves_a_style_each_time (calls : list Panels.Call) (st : Panels.State) :
  Panels.tidy st ->
  ∃ st',
    Panels.run calls st = Panels.Returns st' ∧
    Panels.styles st'
    = Panels.styles st + length (filter (λ c, Panels.isShow c = true) calls).
Proof.
  intros Ht. destruct (run_tidy calls st Ht) as (st' & Hr & _ & Hs).
  exists st'. split; assumption.
Qed.

Lemma show_leaves_a_style_each_time_witness :
  ∃ st',
    Panels.run Samples.panel_calls Panels.initial = Panels.Returns st' ∧
    Panels.styles st' = 2.
Proof.
  exact (show_leaves_a_style_each_time Samples.panel_calls Panels.initial
           initial_tidy).
Defined.

(** X22.  Once the research panel has been taken out of the body by someone
    else, [removeResearchDisplay] and [displayResearch] throw and change
    nothing, so that they throw again on every later call. *)
Theorem research_display_stuck_once_detached
    (data : Research.ResearchResult) (c : nat) (st : Panels.State) :
  Panels.displayContainer st = Some c ->
  c ∉ Panels.uid <$> Panels.children st ->
  Panels.removeResearchDisplay st = Panels.Throws st ∧
  Panels.displayResearch data st = Panels.Throws st.
Proof.
  intros Hc Hn.
  assert (Panels.removeResearchDisplay st = Panels.Throws st) as H.
  { unfold Panels.removeResearchDisplay. rewrite Hc.
    rewrite (stuck_removeChild c st Hn). reflexivity. }
  split; [exact H|].
  unfold Panels.displayResearch, Panels.createDisplayContainer.
  rewrite H. reflexivity.
Qed.

Lemma research_display_stuck_once_detached_witness :
  Panels.displayResearch (Research.mkResult None None None) Samples.detached
  = Panels.Throws Samples.detached.
Proof.
  refine (proj2 (research_display_stuck_once_detached
                   (Research.mkResult None None None) 0 Samples.detached
                   eq_refl _)).
  cbn. apply not_elem_of_nil.
Defined.

(** X23.  The same for the loading indicator: once its panel has been taken
    out of the body by someone else, [hide] and [show] throw and change
    nothing; [show] does not get to add its [style] element. *)
Theorem loading_indicator_stuck_once_detached
    (message : option string) (c : nat) (st : Panels.State) :
  Panels.loadingContainer st = Some c ->
  c ∉ Panels.uid <$> Panels.children st ->
  Panels.hide st = Panels.Throws st ∧
  Panels.show message st = Panels.Throws st.
Proof.
  intros Hc Hn.
  assert (Panels.hide st = Panels.Throws st) as H.
  { unfold Panels.hide. rewrite Hc.
    rewrite (stuck_removeChild c st Hn). reflexivity. }
  split; [exact H|].
  unfold Panels.show. rewrite H. reflexivity.
Qed.

Lemma loading_indicator_stuck_once_detached_witness :
  Panels.show None Samples.detached = Panels.Throws Samples.detached.
Proof.
  refine (proj2 (loading_indicator_stuck_once_detached None 1 Samples.detached
                   eq_refl _)).
  cbn. apply not_elem_of_nil.
Defined.

(** X24.  In a document with a body in which at most one element has the id
    [photo-display-container], [displayPhoto] leaves exactly one: the new
    container, showing the photo, which [removePhotoDisplay] then removes,
    leaving none. *)
Theorem displayPhoto_replaces_the_photo
    (url : string) (st : Panels.State) (kids : list Panels.Node) :
  Panels.body st = Some kids ->
  length (filter (λ n, Panels.elementId n = "photo-display-container") kids) <= 1 ->
  ∃ st',
    Panels.displayPhoto url st = Panels.Returns st' ∧
    filter (λ n, Panels.elementId n = "photo-display-container")
           (Panels.children st')
    = [Panels.mkNode (Panels.nextNode st) (Panels.PhotoPanel url)] ∧
    filter (λ n, Panels.elementId n = "photo-display-container")
           (Panels.children (Panels.removePhotoDisplay st'))
    = [].
Proof.
  intros Hk Hl. pose proof (withId_removed _ kids Hl) as Hnone.
  unfold Panels.displayPhoto. cbv zeta.
  assert (Panels.nextNode (Panels.removePhotoDisplay st) = Panels.nextNode st) as Hn.
  { unfold Panels.removePhotoDisplay. destruct (Panels.getElementById _ st); reflexivity. }
  assert (Panels.body (Panels.removePhotoDisplay st)
          = Some (match head (filter (λ n, Panels.elementId n
                                           = "photo-display-container") kids) with
                  | Some n => filter (λ m, Panels.uid m ≠ Panels.uid n) kids
                  | None => kids
                  end)) as Hb.
  { unfold Panels.removePhotoDisplay, Panels.getElementById. rewrite Hk.
    destruct (head _) as [n|]; [|exact Hk].
    unfold Panels.remove. rewrite Hk. reflexivity. }
  unfold Panels.appendChild. cbn [Panels.body Panels.set_nextNode]. rewrite Hb, Hn.
  eexists. split; [reflexivity|].
  unfold Panels.children at 1. cbn [Panels.body Panels.set_body default from_option id].
  assert (filter (λ n, Panels.elementId n = "photo-display-container")
            (match head (filter (λ n, Panels.elementId n
                                      = "photo-display-container") kids) with
             | Some n => filter (λ m, Panels.uid m ≠ Panels.uid n) kids
             | None => kids
             end ++ [Panels.mkNode (Panels.nextNode st) (Panels.PhotoPanel url)])
          = [Panels.mkNode (Panels.nextNode st) (Panels.PhotoPanel url)]) as Hone.
  { rewrite filter_app, Hnone. reflexivity. }
  split; [exact Hone|].
  unfold Panels.removePhotoDisplay, Panels.getElementById.
  cbn [Panels.body Panels.set_body]. rewrite Hone. cbn [head].
  unfold Panels.remove, Panels.children.
  cbn [Panels.body Panels.set_body fmap option_fmap option_map default from_option id].
  rewrite withId_remove, Hone, filter_cons, decide_False by (intros H; congruence).
  reflexivity.
Qed.

Lemma displayPhoto_replaces_the_photo_witness :
  ∃ st',
    Panels.displayPhoto "b.jpg" Samples.with_photo = Panels.Returns st' ∧
    filter (λ n, Panels.elementId n = "photo-display-container")
           (Panels.children st')
    = [Panels.mkNode 1 (Panels.PhotoPanel "b.jpg")] ∧
    filter (λ n, Panels.elementId n = "photo-display-container")
           (Panels.children (Panels.removePhotoDisplay st'))
    = [].
Proof.
  refine (displayPhoto_replaces_the_photo "b.jpg" Samples.with_photo _ eq_refl _).
  vm_compute. lia.
Defined.

(** X25.  A click on the photo container closes it: the body is left with
    the children it had before [displayPhoto], less the photo container
    that was there. *)
Theorem click_closes_the_photo (url : string) (st : Panels.State) :
  Panels.tidy st ->
  ∃ st',
    Panels.displayPhoto url st = Panels.Returns st' ∧
    Panels.children (Panels.click (Panels.nextNode st) st')
    = Panels.children (Panels.removePhotoDisplay st).
Proof.
  intros Ht. destruct (removePhotoDisplay_tidy st Ht) as [Ht1 _].
  assert (Panels.nextNode (Panels.removePhotoDisplay st) = Panels.nextNode st) as Hn.
  { unfold Panels.removePhotoDisplay. destruct (Panels.getElementById _ st); reflexivity. }
  destruct Ht1 as ([kids Hk] & _ & Hb & _).
  unfold Panels.children in *. rewrite Hk in *. cbn [default from_option id] in *.
  rewrite Hn in Hb.
  unfold Panels.displayPhoto. cbv zeta. unfold Panels.appendChild.
  cbn [Panels.body Panels.set_nextNode]. rewrite Hk, Hn.
  eexists. split; [reflexivity|].
  unfold Panels.click. cbn [Panels.body Panels.set_body].
  rewrite list_find_app_r by (apply find_none_older, Hb).
  cbn [list_find fmap option_fmap option_map].
  rewrite decide_True by reflexivity. cbn [option_map prod_map fst snd id].
  unfold Panels.remove. cbn [Panels.body Panels.set_body fmap option_fmap option_map
                             default from_option id].
  rewrite filter_app, filter_keeps_older by exact Hb.
  rewrite filter_cons, decide_False by (intros H; apply H; reflexivity).
  apply app_nil_r.
Qed.

Lemma click_closes_the_photo_witness :
  ∃ st',
    Panels.displayPhoto "a.jpg" Panels.initial = Panels.Returns st' ∧
    Panels.children (Panels.click 0 st') = [].
Proof.
  exact (click_closes_the_photo "a.jpg" Panels.initial initial_tidy).
Defined.
